(** * Contact directory (task1/main.py): shallow embedding and verification

    The development follows the layout of the program: validated fields
    ([Name], [Phone], [Birthday]), the contact [Record], the [AddressBook]
    (a [UserDict]), and the command handlers wrapped by [input_error].
    Library behaviour the program relies on ([str.isdigit],
    [datetime.strptime], [datetime.replace], [datetime + timedelta],
    [datetime.weekday], [datetime.strftime]) is modelled in the modules
    [Unicode] and [Datetime]. *)

From Stdlib Require Import ZArith List Bool Lia String Ascii.
Import ListNotations.
Local Open Scope Z_scope.

(* ================================================================== *)
(** ** Python strings *)

(** A Python [str] is a sequence of Unicode code points; [len] counts
    code points. *)
Definition codepoint := Z.
Definition pystr := list codepoint.

(** ASCII literals of the source, as code-point sequences. *)
Definition py (s : string) : pystr :=
  map (fun a => Z.of_N (N_of_ascii a)) (list_ascii_of_string s).

Definition len {A : Type} (l : list A) : Z := Z.of_nat (List.length l).

Fixpoint str_eqb (a b : pystr) : bool :=
  match a, b with
  | [], [] => true
  | x :: a', y :: b' => (x =? y) && str_eqb a' b'
  | _, _ => false
  end.

(** Truthiness of a [str]: the empty string is false. *)
Definition truthy (s : pystr) : bool :=
  match s with [] => false | _ :: _ => true end.

Module Unicode.

Definition in_range (lo hi c : codepoint) : bool := (lo <=? c) && (c <=? hi).

Definition in_ranges (t : list (codepoint * codepoint)) (c : codepoint) : bool :=
  existsb (fun r => in_range (fst r) (snd r) c) t.

(** Code points with Numeric_Type=Decimal (general category Nd) in
    Unicode 15.0, the database of CPython 3.12.  Every run starts at a
    digit zero and its length is a multiple of ten, so the value of a
    digit is its offset in the run modulo ten. *)
Definition decimal_runs : list (codepoint * codepoint) :=
  [ (0x0030, 0x0039); (0x0660, 0x0669); (0x06F0, 0x06F9); (0x07C0, 0x07C9);
    (0x0966, 0x096F); (0x09E6, 0x09EF); (0x0A66, 0x0A6F); (0x0AE6, 0x0AEF);
    (0x0B66, 0x0B6F); (0x0BE6, 0x0BEF); (0x0C66, 0x0C6F); (0x0CE6, 0x0CEF);
    (0x0D66, 0x0D6F); (0x0DE6, 0x0DEF); (0x0E50, 0x0E59); (0x0ED0, 0x0ED9);
    (0x0F20, 0x0F29); (0x1040, 0x1049); (0x1090, 0x1099); (0x17E0, 0x17E9);
    (0x1810, 0x1819); (0x1946, 0x194F); (0x19D0, 0x19D9); (0x1A80, 0x1A89);
    (0x1A90, 0x1A99); (0x1B50, 0x1B59); (0x1BB0, 0x1BB9); (0x1C40, 0x1C49);
    (0x1C50, 0x1C59); (0xA620, 0xA629); (0xA8D0, 0xA8D9); (0xA900, 0xA909);
    (0xA9D0, 0xA9D9); (0xA9F0, 0xA9F9); (0xAA50, 0xAA59); (0xABF0, 0xABF9);
    (0xFF10, 0xFF19); (0x104A0, 0x104A9); (0x10D30, 0x10D39);
    (0x11066, 0x1106F); (0x110F0, 0x110F9); (0x11136, 0x1113F);
    (0x111D0, 0x111D9); (0x112F0, 0x112F9); (0x11450, 0x11459);
    (0x114D0, 0x114D9); (0x11650, 0x11659); (0x116C0, 0x116C9);
    (0x11730, 0x11739); (0x118E0, 0x118E9); (0x11950, 0x11959);
    (0x11C50, 0x11C59); (0x11D50, 0x11D59); (0x11DA0, 0x11DA9);
    (0x11F50, 0x11F59); (0x16A60, 0x16A69); (0x16AC0, 0x16AC9);
    (0x16B50, 0x16B59); (0x1D7CE, 0x1D7FF); (0x1E140, 0x1E149);
    (0x1E2F0, 0x1E2F9); (0x1E4F0, 0x1E4F9); (0x1E950, 0x1E959);
    (0x1FBF0, 0x1FBF9) ].

(** Code points with Numeric_Type=Digit (superscripts, circled digits
    and the like): digits for [str.isdigit], but neither matched by the
    regular-expression class [\d] nor accepted by [int]. *)
Definition other_digit_runs : list (codepoint * codepoint) :=
  [ (0x00B2, 0x00B3); (0x00B9, 0x00B9); (0x1369, 0x1371); (0x19DA, 0x19DA);
    (0x2070, 0x2070); (0x2074, 0x2079); (0x2080, 0x2089); (0x2460, 0x2468);
    (0x2474, 0x247C); (0x2488, 0x2490); (0x24EA, 0x24EA); (0x24F5, 0x24FD);
    (0x24FF, 0x24FF); (0x2776, 0x277E); (0x2780, 0x2788); (0x278A, 0x2792);
    (0x10A40, 0x10A43); (0x10E60, 0x10E68); (0x11052, 0x1105A);
    (0x1F100, 0x1F10A) ].

(** [\d] of module [re] on a [str] pattern, and [str.isdecimal] on one
    character. *)
Definition isdecimal_char (c : codepoint) : bool := in_ranges decimal_runs c.

(** [str.isdigit] on one character. *)
Definition isdigit_char (c : codepoint) : bool :=
  isdecimal_char c || in_ranges other_digit_runs c.

(** The characters '0' .. '9'. *)
Definition is_ascii_digit (c : codepoint) : bool := in_range 48 57 c.

(** Value of a decimal digit, [None] for any other character. *)
Definition decimal_value (c : codepoint) : option Z :=
  match find (fun r => in_range (fst r) (snd r) c) decimal_runs with
  | Some r => Some ((c - fst r) mod 10)
  | None => None
  end.

(** [str.isdigit]: every character is a digit and there is at least
    one character. *)
Definition isdigit (s : pystr) : bool :=
  truthy s && forallb isdigit_char s.

End Unicode.

(* ================================================================== *)
(** ** Exceptions and results *)

(** Text of an exception: given by the program, or chosen by the
    interpreter or a library (not tracked). *)
Inductive message :=
| Msg (text : pystr)
| LibMsg.

(** The exception classes that occur.  [PhoneValidationError] and
    [NameValidationError] derive from [Exception] directly (lines 6 and
    12), the others are built-in. *)
Inductive exn :=
| PhoneValidationError (m : pystr)
| NameValidationError (m : pystr)
| ValueError (m : message)
| KeyError
| IndexError
| TypeError
| AttributeError
| OverflowError.

Inductive result (A : Type) :=
| Ok (a : A)
| Raise (e : exn).
Arguments Ok {A} a.
Arguments Raise {A} e.

Definition rbind {A B : Type} (r : result A) (k : A -> result B) : result B :=
  match r with
  | Ok a => k a
  | Raise e => Raise e
  end.

Declare Scope result_scope.
Delimit Scope result_scope with result.
Notation "x <- r ;; k" := (rbind r (fun x => k))
  (at level 61, r at next level, right associativity) : result_scope.
Local Open Scope result_scope.

Definition PhoneValidationError_default : pystr :=
  py "The phone number must be 10 characters long.".
Definition NameValidationError_default : pystr :=
  py "Length must be at least 1 character in string format".

(* ================================================================== *)
(** ** The [datetime] library *)

Module Datetime.

(** A naive [datetime]: calendar date and time of day. *)
Record datetime := mkdt {
  year : Z; month : Z; day : Z;
  hour : Z; minute : Z; second : Z; microsecond : Z }.

Definition MINYEAR : Z := 1.
Definition MAXYEAR : Z := 9999.

Definition is_leap (y : Z) : bool :=
  (y mod 4 =? 0) && (negb (y mod 100 =? 0) || (y mod 400 =? 0)).

Definition DAYS_IN_MONTH : list Z :=
  [-1; 31; 28; 31; 30; 31; 30; 31; 31; 30; 31; 30; 31].

Definition DAYS_BEFORE_MONTH : list Z :=
  [-1; 0; 31; 59; 90; 120; 151; 181; 212; 243; 273; 304; 334].

Definition days_in_month (y m : Z) : Z :=
  if (m =? 2) && is_leap y then 29 else nth (Z.to_nat m) DAYS_IN_MONTH 0.

Definition days_before_year (y : Z) : Z :=
  let p := y - 1 in p * 365 + p / 4 - p / 100 + p / 400.

Definition days_before_month (y m : Z) : Z :=
  nth (Z.to_nat m) DAYS_BEFORE_MONTH 0
  + (if (2 <? m) && is_leap y then 1 else 0).

Definition ymd2ord (y m d : Z) : Z :=
  days_before_year y + days_before_month y m + d.

(** [toordinal]: 1 for 0001-01-01. *)
Definition toordinal (t : datetime) : Z := ymd2ord (year t) (month t) (day t).

(** [weekday]: Monday is 0, Sunday is 6. *)
Definition weekday (t : datetime) : Z := (toordinal t + 6) mod 7.

(** The check made by the [date] constructor. *)
Definition valid_date (y m d : Z) : bool :=
  (MINYEAR <=? y) && (y <=? MAXYEAR) && (1 <=? m) && (m <=? 12)
  && (1 <=? d) && (d <=? days_in_month y m).

Definition valid_time (h mi s us : Z) : bool :=
  (0 <=? h) && (h <? 24) && (0 <=? mi) && (mi <? 60)
  && (0 <=? s) && (s <? 60) && (0 <=? us) && (us <? 1000000).

(** Every [datetime] object satisfies this; the record type does not
    enforce it. *)
Definition valid (t : datetime) : bool :=
  valid_date (year t) (month t) (day t)
  && valid_time (hour t) (minute t) (second t) (microsecond t).

(** [t.replace(year=y)]: builds a new object, so the date is checked
    again (29 February in a common year is rejected). *)
Definition replace_year (t : datetime) (y : Z) : result datetime :=
  if valid_date y (month t) (day t)
  then Ok (mkdt y (month t) (day t)
                (hour t) (minute t) (second t) (microsecond t))
  else Raise (ValueError LibMsg).

(** The day after [t], same time of day; [None] after 9999-12-31. *)
Definition next_day (t : datetime) : option datetime :=
  let mk y m d :=
    mkdt y m d (hour t) (minute t) (second t) (microsecond t) in
  if day t <? days_in_month (year t) (month t)
  then Some (mk (year t) (month t) (day t + 1))
  else if month t <? 12
  then Some (mk (year t) (month t + 1) 1)
  else if year t <? MAXYEAR
  then Some (mk (year t + 1) 1 1)
  else None.

(** [t + timedelta(days=n)] for the day counts of this program, which
    are never negative: [n] steps to the next day, [OverflowError] past
    the last representable date. *)
Fixpoint add_days (t : datetime) (n : nat) : result datetime :=
  match n with
  | O => Ok t
  | S n' =>
      match next_day t with
      | Some t' => add_days t' n'
      | None => Raise OverflowError
      end
  end.

Definition timedelta_add (t : datetime) (days : Z) : result datetime :=
  add_days t (Z.to_nat days).

(** Comparison of naive datetimes: lexicographic on the fields. *)
Definition fields (t : datetime) : list Z :=
  [year t; month t; day t; hour t; minute t; second t; microsecond t].

Fixpoint lex_compare (a b : list Z) : comparison :=
  match a, b with
  | [], [] => Eq
  | [], _ :: _ => Lt
  | _ :: _, [] => Gt
  | x :: a', y :: b' =>
      match x ?= y with
      | Eq => lex_compare a' b'
      | c => c
      end
  end.

Definition compare (a b : datetime) : comparison :=
  lex_compare (fields a) (fields b).

Definition leb (a b : datetime) : bool :=
  match compare a b with Gt => false | _ => true end.

Definition ltb (a b : datetime) : bool :=
  match compare a b with Lt => true | _ => false end.

(** *** strftime('%d.%m.%Y') *)

Definition digit_char (d : Z) : codepoint := 48 + d.

(** [%d] and [%m]: two digits, zero-padded. *)
Definition pad2 (n : Z) : pystr :=
  [digit_char (n / 10); digit_char (n mod 10)].

Definition pad4 (n : Z) : pystr :=
  [digit_char (n / 1000); digit_char (n / 100 mod 10);
   digit_char (n / 10 mod 10); digit_char (n mod 10)].

Fixpoint strip_zeros (s : pystr) : pystr :=
  match s with
  | c :: (_ :: _) as r => if c =? 48 then strip_zeros r else s
  | _ => s
  end.

(** [%Y] is delegated to the C library of the platform: four
    zero-padded digits as the library documents, or the plain decimal
    year (glibc).  Both agree from year 1000 on. *)
Definition format_Y (zero_pad : bool) (y : Z) : pystr :=
  if zero_pad then pad4 y else strip_zeros (pad4 y).

Definition strftime_dmY (zero_pad : bool) (t : datetime) : pystr :=
  pad2 (day t) ++ [46] ++ pad2 (month t) ++ [46] ++ format_Y zero_pad (year t).

(** *** strptime(value, '%d.%m.%Y')

    [_strptime] turns the format into the regular expression
    [(?P<d>3[0-1]|[1-2]\d|0[1-9]|[1-9]| [1-9])\.(?P<m>1[0-2]|0[1-9]|[1-9])\.(?P<Y>\d\d\d\d)]
    and matches it at the start of the text.  Alternatives are tried
    in order, backtracking into the next one when the rest of the
    pattern fails: each piece takes the continuation [k] that matches
    the rest of the pattern. *)

Definition orelse {A : Type} (a b : option A) : option A :=
  match a with Some _ => a | None => b end.

Definition two {A : Type} (p q : codepoint -> bool) (s : pystr)
    (k : pystr -> pystr -> option A) : option A :=
  match s with
  | a :: b :: r => if p a && q b then k [a; b] r else None
  | _ => None
  end.

Definition one {A : Type} (p : codepoint -> bool) (s : pystr)
    (k : pystr -> pystr -> option A) : option A :=
  match s with
  | a :: r => if p a then k [a] r else None
  | _ => None
  end.

Definition re_d {A : Type} (s : pystr) (k : pystr -> pystr -> option A)
    : option A :=
  orelse (two (Z.eqb 51) (Unicode.in_range 48 49) s k)
 (orelse (two (Unicode.in_range 49 50) Unicode.isdecimal_char s k)
 (orelse (two (Z.eqb 48) (Unicode.in_range 49 57) s k)
 (orelse (one (Unicode.in_range 49 57) s k)
         (two (Z.eqb 32) (Unicode.in_range 49 57) s k)))).

Definition re_m {A : Type} (s : pystr) (k : pystr -> pystr -> option A)
    : option A :=
  orelse (two (Z.eqb 49) (Unicode.in_range 48 50) s k)
 (orelse (two (Z.eqb 48) (Unicode.in_range 49 57) s k)
         (one (Unicode.in_range 49 57) s k)).

Definition re_Y {A : Type} (s : pystr) (k : pystr -> pystr -> option A)
    : option A :=
  match s with
  | a :: b :: c :: d :: r =>
      if Unicode.isdecimal_char a && Unicode.isdecimal_char b
         && Unicode.isdecimal_char c && Unicode.isdecimal_char d
      then k [a; b; c; d] r else None
  | _ => None
  end.

Definition re_dot {A : Type} (s : pystr) (k : pystr -> option A) : option A :=
  match s with
  | c :: r => if c =? 46 then k r else None
  | [] => None
  end.

(** The groups [d], [m], [Y] of the first match and the text left
    after it. *)
Definition re_match (s : pystr) : option (pystr * pystr * pystr * pystr) :=
  re_d s (fun d s1 =>
  re_dot s1 (fun s2 =>
  re_m s2 (fun m s3 =>
  re_dot s3 (fun s4 =>
  re_Y s4 (fun y rest => Some (d, m, y, rest)))))).

Fixpoint int_digits (acc : Z) (s : pystr) : option Z :=
  match s with
  | [] => Some acc
  | c :: r =>
      match Unicode.decimal_value c with
      | Some v => int_digits (10 * acc + v) r
      | None => None
      end
  end.

(** [int(text)] on the shapes the groups capture: decimal digits,
    after one blank for a day matched by the last alternative. *)
Definition py_int (s : pystr) : option Z :=
  match s with
  | [] => None
  | c :: r => if (c =? 32) && truthy r then int_digits 0 r else int_digits 0 s
  end.

(** [datetime.strptime(value, '%d.%m.%Y')]: every failure is a
    [ValueError] (no match, text left over, or a date the calendar
    does not have). *)
Definition strptime_dmY (value : pystr) : result datetime :=
  match re_match value with
  | None => Raise (ValueError LibMsg)
  | Some (d, m, y, rest) =>
      if truthy rest then Raise (ValueError LibMsg)
      else
        match py_int y, py_int m, py_int d with
        | Some yv, Some mv, Some dv =>
            if valid_date yv mv dv
            then Ok (mkdt yv mv dv 0 0 0 0)
            else Raise (ValueError LibMsg)
        | _, _, _ => Raise (ValueError LibMsg)
        end
  end.

End Datetime.

Import Datetime.

(* ================================================================== *)
(** ** Mutable objects: state passing *)

(** A method or handler that may mutate an object of type [S]: it
    returns its result (or the exception raised) and the object as the
    call leaves it.  Mutations made before an exception is raised stay. *)
Definition M (S A : Type) : Type := S -> result A * S.

Definition ret {S A : Type} (a : A) : M S A := fun s => (Ok a, s).

Definition raise {S A : Type} (e : exn) : M S A := fun s => (Raise e, s).

Definition bind {S A B : Type} (m : M S A) (k : A -> M S B) : M S B :=
  fun s =>
    match m s with
    | (Ok a, s') => k a s'
    | (Raise e, s') => (Raise e, s')
    end.

(** A computation that touches no object. *)
Definition lift {S A : Type} (r : result A) : M S A := fun s => (r, s).

Definition get {S : Type} : M S S := fun s => (Ok s, s).

Definition put {S : Type} (s : S) : M S unit := fun _ => (Ok tt, s).

Declare Scope method_scope.
Delimit Scope method_scope with M.
Notation "x <~ m ;; k" := (bind m (fun x => k))
  (at level 61, m at next level, right associativity) : method_scope.
Notation "m ;;; k" := (bind m (fun _ => k))
  (at level 61, right associativity) : method_scope.
Local Open Scope method_scope.

(* ================================================================== *)
(** ** Validated fields (lines 18-60) *)

(** The values a handler passes to a constructor: text, or a [Phone]
    object (identified with the text it holds in [value]). *)
Inductive pyval :=
| VStr (s : pystr)
| VPhone (value : pystr).

Module Name.

(** [isinstance(value, str) and len(value) > 1] *)
Definition validate (value : pyval) : bool :=
  match value with
  | VStr s => 1 <? len s
  | VPhone _ => false
  end.

(** [Name(value)], giving the [value] of the new field. *)
Definition init (value : pystr) : result pystr :=
  if validate (VStr value) then Ok value
  else Raise (NameValidationError NameValidationError_default).

End Name.

Module Phone.

(** [len(value) == 10 and value.isdigit()].  [Field] defines no
    [__len__], so [len] of a [Phone] object raises [TypeError]. *)
Definition validate (value : pyval) : result bool :=
  match value with
  | VStr s => Ok ((len s =? 10) && Unicode.isdigit s)
  | VPhone _ => Raise TypeError
  end.

(** [Phone(value)], giving the [value] of the new field. *)
Definition init (value : pyval) : result pystr :=
  ok <- validate value ;;
  match ok, value with
  | true, VStr s => Ok s
  | true, VPhone p => Ok p   (* not reached: [validate] raised *)
  | false, _ => Raise (PhoneValidationError PhoneValidationError_default)
  end.

End Phone.

Module Birthday.

Definition invalid_date_format : pystr :=
  py "Invalid date format. Use DD.MM.YYYY".

Definition str_to_datetime (value : pystr) : result datetime :=
  match strptime_dmY value with
  | Raise (ValueError _) => Raise (ValueError (Msg invalid_date_format))
  | r => r
  end.

(** [Birthday(value)], giving the [value] of the new field. *)
Definition init (value : pystr) : result datetime := str_to_datetime value.

End Birthday.

(* ================================================================== *)
(** ** Record (lines 63-95) *)

Module Record.

(** [name] is the text of the [Name] field, [phones] the texts of the
    [Phone] objects in list order, [birthday] the date of the
    [Birthday] field when there is one. *)
Record t := mk {
  name : pystr;
  phones : list pystr;
  birthday : option datetime }.

Definition init (name : pystr) : result t :=
  n <- Name.init name ;;
  Ok (mk n [] None).

Definition add_birthday (string : pystr) : M t unit :=
  b <~ lift (Birthday.init string) ;;
  fun self => (Ok tt, mk (name self) (phones self) (Some b)).

Definition add_phone (value : pyval) : M t unit :=
  p <~ lift (Phone.init value) ;;
  fun self => (Ok tt, mk (name self) (phones self ++ [p]) (birthday self)).

(** The loop of [remove_phone]: the list without its first phone whose
    value is [value], [None] when the loop ends without a match. *)
Fixpoint remove_first (value : pystr) (l : list pystr) : option (list pystr) :=
  match l with
  | [] => None
  | phone :: l' =>
      if str_eqb phone value then Some l'
      else option_map (cons phone) (remove_first value l')
  end.

Definition remove_phone (value : pystr) : M t unit :=
  fun self =>
    match remove_first value (phones self) with
    | Some l => (Ok tt, mk (name self) l (birthday self))
    | None =>
        (Raise (ValueError
                  (Msg (py "Phone number " ++ value ++ py " not found."))),
         self)
    end.

Definition find_phone (value : pystr) (self : t) : option pystr :=
  List.find (fun phone => str_eqb phone value) (phones self).

Definition edit_phone (old_value new_value : pystr) : M t unit :=
  ok <~ lift (Phone.validate (VStr new_value)) ;;
  if ok then
    remove_phone old_value ;;;
    add_phone (VStr new_value)
  else raise (PhoneValidationError PhoneValidationError_default).

Fixpoint join (sep : pystr) (l : list pystr) : pystr :=
  match l with
  | [] => []
  | [x] => x
  | x :: l' => x ++ sep ++ join sep l'
  end.

Definition str (self : t) : pystr :=
  py "Contact name: " ++ name self ++ py ", phones: "
  ++ join (py "; ") (phones self).

End Record.

(* ================================================================== *)
(** ** AddressBook (lines 98-142) *)

Module AddressBook.

(** [self.data]: a [dict] from the text of a name to a record, in
    insertion order. *)
Definition t := list (pystr * Record.t).

(** [d.get(key)] *)
Fixpoint dict_get (key : pystr) (d : t) : option Record.t :=
  match d with
  | [] => None
  | (k, v) :: d' => if str_eqb k key then Some v else dict_get key d'
  end.

(** [d[key] = v]: an existing key keeps its place, a new one goes last. *)
Fixpoint dict_set (key : pystr) (v : Record.t) (d : t) : t :=
  match d with
  | [] => [(key, v)]
  | (k, x) :: d' =>
      if str_eqb k key then (k, v) :: d' else (k, x) :: dict_set key v d'
  end.

(** [del d[key]] for a key that is present. *)
Fixpoint dict_del (key : pystr) (d : t) : t :=
  match d with
  | [] => []
  | (k, x) :: d' => if str_eqb k key then d' else (k, x) :: dict_del key d'
  end.

(** [key in d] *)
Definition dict_contains (key : pystr) (d : t) : bool :=
  match dict_get key d with Some _ => true | None => false end.

Definition keys (d : t) : list pystr := map fst d.
Definition values (d : t) : list Record.t := map snd d.

(** One element of the list [get_upcoming_birthdays] returns: the
    dictionary with the keys [name] and [birthday]. *)
Record entry := mk_entry { entry_name : pystr; entry_birthday : pystr }.

(** What [get_upcoming_birthdays] returns: the list when it is not
    empty, else a text. *)
Inductive upcoming :=
| Entries (l : list entry)
| Text (s : pystr).

Definition no_upcoming : pystr := py "There are no upcoming birthdays yet".

(** Lines 107-116: the date to greet on, before the weekend rule. *)
Definition window_date (today today_plus_seven_days value : datetime)
    : result (option datetime) :=
  birthday_this_year <- replace_year value (year today) ;;
  if leb today birthday_this_year
     && leb birthday_this_year today_plus_seven_days
  then Ok (Some birthday_this_year)
  else if ltb birthday_this_year today then
    birthday_next_year <- replace_year birthday_this_year (year today + 1) ;;
    if leb birthday_next_year today_plus_seven_days
    then Ok (Some birthday_next_year)
    else Ok None
  else Ok None.

(** Lines 118-120: a date on Saturday or Sunday moves forward. *)
Definition weekend_shift (greeting_date : datetime) : result datetime :=
  if 5 <=? weekday greeting_date
  then timedelta_add greeting_date (7 - weekday greeting_date)
  else Ok greeting_date.

(** The body of the loop for one record: the entry it appends, if any. *)
Definition record_entry (zero_pad : bool)
    (today today_plus_seven_days : datetime) (record : Record.t)
    : result (option entry) :=
  match Record.birthday record with
  | None => Ok None
  | Some value =>
      g <- window_date today today_plus_seven_days value ;;
      match g with
      | None => Ok None
      | Some greeting_date =>
          shifted <- weekend_shift greeting_date ;;
          Ok (Some (mk_entry (Record.name record)
                             (strftime_dmY zero_pad shifted)))
      end
  end.

(** The loop over [self.data.values()]; the first exception ends it. *)
Fixpoint for_records (zero_pad : bool)
    (today today_plus_seven_days : datetime)
    (records : list Record.t) (upcoming_birthdays : list entry)
    : M t (list entry) :=
  match records with
  | [] => ret upcoming_birthdays
  | record :: rest =>
      e <~ lift (record_entry zero_pad today today_plus_seven_days record) ;;
      for_records zero_pad today today_plus_seven_days rest
        (match e with
         | Some x => upcoming_birthdays ++ [x]
         | None => upcoming_birthdays
         end)
  end.

(** [get_upcoming_birthdays], with the clock reading [datetime.now()]
    given as [now] and the platform's rendering of [%Y] as
    [zero_pad]. *)
Definition get_upcoming_birthdays (zero_pad : bool) (now : datetime)
    : M t upcoming :=
  today_plus_seven_days <~ lift (timedelta_add now 7) ;;
  self <~ get ;;
  upcoming_birthdays <~
    for_records zero_pad now today_plus_seven_days (values self) [] ;;
  ret (match upcoming_birthdays with
       | [] => Text no_upcoming
       | _ :: _ => Entries upcoming_birthdays
       end).

Definition add_record (record : Record.t) : M t unit :=
  fun self => (Ok tt, dict_set (Record.name record) record self).

Definition find (name : pystr) : M t (option Record.t) :=
  fun self => (Ok (dict_get name self), self).

Definition delete (name : pystr) : M t unit :=
  fun self =>
    if dict_contains name self then (Ok tt, dict_del name self)
    else (Raise (ValueError
                   (Msg (py "Record for " ++ name ++ py " not found."))),
          self).

End AddressBook.

(* ================================================================== *)
(** ** Command handlers (lines 145-222) *)

(** The decorator: three built-in classes are turned into a text, any
    other exception goes through. *)
Definition input_error (func : M AddressBook.t pystr) : M AddressBook.t pystr :=
  fun book =>
    match func book with
    | (Raise (ValueError _), book') =>
        (Ok (py "Give me name and phone, please."), book')
    | (Raise KeyError, book') => (Ok (py "This contact does not exist."), book')
    | (Raise IndexError, book') => (Ok (py "Not enough arguments."), book')
    | other => other
    end.

(** Method calls on the object [record] that the store holds under
    [key]: the store holds the same object, so it sees every change,
    also those made before an exception. *)
Definition on_record {A : Type} (key : pystr) (record : Record.t)
    (m : M Record.t A) : M AddressBook.t A :=
  fun book =>
    let (r, record') := m record in (r, AddressBook.dict_set key record' book).

Definition change_contact_func (args : list pystr) : M AddressBook.t pystr :=
  match args with
  | [] => raise IndexError
  | name :: tail =>
      let new_birthday :=
        if (2 <? len args) && Unicode.isdigit (last args [])
        then Some (last args []) else None in
      match tail with
      | [] => raise TypeError
      | [_] => raise (ValueError LibMsg)
      | old_phone :: new_phone :: _ =>
          found <~ AddressBook.find name ;;
          match found with
          | None => ret (py "Contact " ++ name ++ py " not found.")
          | Some record =>
              on_record name record
                ((if truthy old_phone && truthy new_phone
                  then Record.edit_phone old_phone new_phone
                  else ret tt) ;;;
                 (match new_birthday with
                  | Some b => if truthy b then Record.add_birthday b else ret tt
                  | None => ret tt
                  end) ;;;
                 ret (py "Contact " ++ name ++ py " updated successfully."))
          end
      end
  end.

Definition change_contact (args : list pystr) : M AddressBook.t pystr :=
  input_error (change_contact_func args).

Definition add_contact_func (args : list pystr) : M AddressBook.t pystr :=
  match args with
  | name :: phone :: _ =>
      let rest (record : Record.t) (message : pystr) :=
        on_record name record
          ((if truthy phone
            then p <~ lift (Phone.init (VStr phone)) ;; Record.add_phone (VPhone p)
            else ret tt) ;;;
           ret message) in
      found <~ AddressBook.find name ;;
      match found with
      | None =>
          record <~ lift (Record.init name) ;;
          AddressBook.add_record record ;;;
          rest record (py "Contact added.")
      | Some record => rest record (py "Contact updated.")
      end
  | _ => raise (ValueError LibMsg)
  end.

Definition add_contact (args : list pystr) : M AddressBook.t pystr :=
  input_error (add_contact_func args).

Definition add_birthday_func (args : list pystr) : M AddressBook.t pystr :=
  match args with
  | name :: birthday :: _ =>
      found <~ AddressBook.find name ;;
      match found with
      | None => ret (py "Contact " ++ name ++ py " not found.")
      | Some record =>
          on_record name record
            (Record.add_birthday birthday ;;; ret (py "Contact updated."))
      end
  | _ => raise (ValueError LibMsg)
  end.

Definition add_birthday (args : list pystr) : M AddressBook.t pystr :=
  input_error (add_birthday_func args).

Definition show_birthday_func (zero_pad : bool) (args : list pystr)
    : M AddressBook.t pystr :=
  match args with
  | name :: _ =>
      found <~ AddressBook.find name ;;
      match found with
      | None => ret (py "Birthday for " ++ name ++ py " not found.")
      | Some record =>
          ret (match Record.birthday record with
               | Some value => strftime_dmY zero_pad value
               | None => py "Birthday is None"
               end)
      end
  | [] => raise (ValueError LibMsg)
  end.

Definition show_birthday (zero_pad : bool) (args : list pystr)
    : M AddressBook.t pystr :=
  input_error (show_birthday_func zero_pad args).

Definition show_phone_func (args : list pystr) : M AddressBook.t pystr :=
  match args with
  | name :: _ =>
      found <~ AddressBook.find name ;;
      match found with
      | None => ret (py "Contact " ++ name ++ py " not found.")
      | Some record =>
          ret (match Record.phones record with
               | [] => py "No phones found."
               | _ :: _ => Record.join (py ", ") (Record.phones record)
               end)
      end
  | [] => raise (ValueError LibMsg)
  end.

Definition show_phone (args : list pystr) : M AddressBook.t pystr :=
  input_error (show_phone_func args).

(* ================================================================== *)
(** ** Listing, the birthdays command and input parsing
       (lines 158-161 and 224-241) *)

Module Text.

(** Code points for which [str.isspace] holds; [str.split()] and
    [str.strip()] cut at them. *)
Definition space_runs : list (codepoint * codepoint) :=
  [ (0x0009, 0x000D); (0x001C, 0x0020); (0x0085, 0x0085); (0x00A0, 0x00A0);
    (0x1680, 0x1680); (0x2000, 0x200A); (0x2028, 0x2029); (0x202F, 0x202F);
    (0x205F, 0x205F); (0x3000, 0x3000) ].

Definition isspace_char (c : codepoint) : bool :=
  Unicode.in_ranges space_runs c.

(** [s.split()]: the maximal runs of characters that are not white
    space, in order; [cur] is the run being read. *)
Fixpoint split_from (cur : pystr) (s : pystr) : list pystr :=
  match s with
  | [] => if truthy cur then [cur] else []
  | c :: r =>
      if isspace_char c
      then (if truthy cur then cur :: split_from [] r else split_from [] r)
      else split_from (cur ++ [c]) r
  end.

Definition split (s : pystr) : list pystr := split_from [] s.

Fixpoint lstrip (s : pystr) : pystr :=
  match s with
  | c :: r => if isspace_char c then lstrip r else s
  | [] => []
  end.

(** [s.strip()] *)
Definition strip (s : pystr) : pystr := rev (lstrip (rev (lstrip s))).

(** [format(s, '^width')]: the text centred with blanks, the odd blank
    on the right; a text that is wide enough is left as it is. *)
Definition center (width : Z) (s : pystr) : pystr :=
  let pad := width - len s in
  if pad <=? 0 then s
  else repeat 32 (Z.to_nat (pad / 2)) ++ s
       ++ repeat 32 (Z.to_nat (pad - pad / 2)).

End Text.

(** [parse_input]; [lower] stands for [str.lower], whose case tables
    are not modelled. *)
Definition parse_input (lower : pystr -> pystr) (user_input : pystr)
    : result (pystr * list pystr) :=
  match Text.split user_input with
  | [] => Raise (ValueError LibMsg)
  | cmd :: args => Ok (lower (Text.strip cmd), args)
  end.

(** One line of [show_all] for the item [name], [record] of the store.
    The birthday is read as [record.birthday.value], which raises
    [AttributeError] when the record has none. *)
Definition show_all_line (zero_pad : bool) (name : pystr) (record : Record.t)
    : result pystr :=
  match Record.birthday record with
  | None => Raise AttributeError
  | Some value =>
      let b := strftime_dmY zero_pad value in
      Ok (Text.center 12 name ++ [124]
          ++ Text.center 12 (if truthy b then b else []) ++ [124]
          ++ Record.join (py ", ") (Record.phones record))
  end.

Fixpoint show_all_lines (zero_pad : bool) (items : AddressBook.t)
    : result (list pystr) :=
  match items with
  | [] => Ok []
  | (name, record) :: rest =>
      line <- show_all_line zero_pad name record ;;
      lines <- show_all_lines zero_pad rest ;;
      Ok (line :: lines)
  end.

Definition show_all_func (zero_pad : bool) : M AddressBook.t pystr :=
  book <~ get ;;
  match book with
  | [] => ret (py "No contacts.")
  | _ :: _ =>
      lines <~ lift (show_all_lines zero_pad book) ;;
      ret (Record.join [10] lines)
  end.

Definition show_all (zero_pad : bool) : M AddressBook.t pystr :=
  input_error (show_all_func zero_pad).

(** What a handler that prints works on: the store and the lines
    printed so far. *)
Definition console : Type := list pystr.

Definition print (line : pystr) : M (AddressBook.t * console) unit :=
  fun s => (Ok tt, (fst s, snd s ++ [line])).

(** A method of the store, called by a handler that prints. *)
Definition on_book {A : Type} (m : M AddressBook.t A)
    : M (AddressBook.t * console) A :=
  fun s => let (r, book') := m (fst s) in (r, (book', snd s)).

Fixpoint print_entries (l : list AddressBook.entry)
    : M (AddressBook.t * console) unit :=
  match l with
  | [] => ret tt
  | entry :: rest =>
      print (AddressBook.entry_name entry ++ py " : "
             ++ AddressBook.entry_birthday entry) ;;;
      print_entries rest
  end.

Definition birthdays_func (zero_pad : bool) (now : datetime)
    : M (AddressBook.t * console) unit :=
  upcoming_birthdays <~
    on_book (AddressBook.get_upcoming_birthdays zero_pad now) ;;
  match upcoming_birthdays with
  | AddressBook.Text s => print s
  | AddressBook.Entries l => print_entries l
  end.

(** The decorator on a function that returns [None]: the value of the
    call is [None] ([inl tt]) or one of the three texts. *)
Definition input_error_none {S : Type} (func : M S unit) : M S (unit + pystr) :=
  fun s =>
    match func s with
    | (Ok tt, s') => (Ok (inl tt), s')
    | (Raise (ValueError _), s') =>
        (Ok (inr (py "Give me name and phone, please.")), s')
    | (Raise KeyError, s') => (Ok (inr (py "This contact does not exist.")), s')
    | (Raise IndexError, s') => (Ok (inr (py "Not enough arguments.")), s')
    | (Raise e, s') => (Raise e, s')
    end.

Definition birthdays (zero_pad : bool) (now : datetime)
    : M (AddressBook.t * console) (unit + pystr) :=
  input_error_none (birthdays_func zero_pad now).

(* ================================================================== *)
(** ** Vocabulary of the statements *)

(** [m] leaves the object as it found it, on every path. *)
Definition readonly {S A : Type} (m : M S A) : Prop := forall s, snd (m s) = s.

(** [m] keeps the property [P] of the object, on every path. *)
Definition preserves {S A : Type} (P : S -> Prop) (m : M S A) : Prop :=
  forall s, P s -> P (snd (m s)).

(** The invariant of the store: no key occurs twice. *)
Definition unique_keys (book : AddressBook.t) : Prop :=
  NoDup (AddressBook.keys book).

(** The strict shape DD.MM.YYYY: two ASCII digits, a dot, two ASCII
    digits, a dot, four ASCII digits. *)
Definition is_DD_MM_YYYY (s : pystr) : bool :=
  match s with
  | [d1; d2; p1; m1; m2; p2; y1; y2; y3; y4] =>
      forallb Unicode.is_ascii_digit [d1; d2; m1; m2; y1; y2; y3; y4]
      && (p1 =? 46) && (p2 =? 46)
  | _ => false
  end.

(** The text [a b . c d . e f g h] written with the decimal digits
    [a] .. [h] (numbers from 0 to 9). *)
Definition dmY_text (a b c d e f g h : Z) : pystr :=
  [48 + a; 48 + b; 46; 48 + c; 48 + d; 46; 48 + e; 48 + f; 48 + g; 48 + h].

(** Year, month and day that a text of the shape DD.MM.YYYY names. *)
Definition dmY_fields (s : pystr) : option (Z * Z * Z) :=
  match s with
  | [d1; d2; _; m1; m2; _; y1; y2; y3; y4] =>
      Some (1000 * (y1 - 48) + 100 * (y2 - 48) + 10 * (y3 - 48) + (y4 - 48),
            10 * (m1 - 48) + (m2 - 48),
            10 * (d1 - 48) + (d2 - 48))
  | _ => None
  end.

(** Every phone of the record passes [Phone.validate]. *)
Definition valid_phones (r : Record.t) : Prop :=
  Forall (fun p => Phone.validate (VStr p) = Ok true) (Record.phones r).

(** Every record of the store is kept under its own name. *)
Definition keys_are_names (book : AddressBook.t) : Prop :=
  Forall (fun kv => Record.name (snd kv) = fst kv) book.

(** [l1] is [l2] with some elements left out, the others in order. *)
Inductive subsequence {A : Type} : list A -> list A -> Prop :=
| subsequence_nil : subsequence [] []
| subsequence_skip x l1 l2 : subsequence l1 l2 -> subsequence l1 (x :: l2)
| subsequence_take x l1 l2 : subsequence l1 l2 -> subsequence (x :: l1) (x :: l2).



(** [m] raises no exception outside [P], whatever object it starts
    from. *)
Definition raises_only {S A : Type} (P : exn -> Prop) (m : M S A) : Prop :=
  forall s e, fst (m s) = Raise e -> P e.

(** The record has a birthday. *)
Definition has_birthday (r : Record.t) : bool :=
  match Record.birthday r with Some _ => true | None => false end.

(** No white space in the text, and at least one character. *)
Definition is_token (w : pystr) : Prop :=
  w <> [] /\ Forall (fun c => Text.isspace_char c = false) w.

(** The texts accepted for the day, with the day they stand for: 30 or
    31; a 1 or a 2 and then any decimal digit; a zero and then 1 to 9;
    1 to 9 alone; a blank and then 1 to 9. *)
Inductive day_text : pystr -> Z -> Prop :=
| day_thirty b : 48 <= b <= 49 -> day_text [51; b] (30 + (b - 48))
| day_teens a b w :
    49 <= a <= 50 -> Unicode.decimal_value b = Some w ->
    day_text [a; b] (10 * (a - 48) + w)
| day_padded b : 49 <= b <= 57 -> day_text [48; b] (b - 48)
| day_single b : 49 <= b <= 57 -> day_text [b] (b - 48)
| day_blank b : 49 <= b <= 57 -> day_text [32; b] (b - 48).

(** The texts accepted for the month: 10 to 12; a zero and then 1 to 9;
    1 to 9 alone. *)
Inductive month_text : pystr -> Z -> Prop :=
| month_late b : 48 <= b <= 50 -> month_text [49; b] (10 + (b - 48))
| month_padded b : 49 <= b <= 57 -> month_text [48; b] (b - 48)
| month_single b : 49 <= b <= 57 -> month_text [b] (b - 48).

(** The texts accepted for the year: four decimal digits. *)
Inductive year_text : pystr -> Z -> Prop :=
| year_digits a b c d wa wb wc wd :
    Unicode.decimal_value a = Some wa -> Unicode.decimal_value b = Some wb ->
    Unicode.decimal_value c = Some wc -> Unicode.decimal_value d = Some wd ->
    year_text [a; b; c; d] (1000 * wa + 100 * wb + 10 * wc + wd).

(** [s] is a day, a dot, a month, a dot and a year, each written in one
    of the accepted ways, and these name the date of the calendar [t]
    (at midnight). *)
Definition lenient_date (s : pystr) (t : datetime) : Prop :=
  exists d m y dv mv yv,
    s = d ++ [46] ++ m ++ [46] ++ y
    /\ day_text d dv /\ month_text m mv /\ year_text y yv
    /\ valid_date yv mv dv = true
    /\ t = mkdt yv mv dv 0 0 0 0.

(* ================================================================== *)
(** * Properties *)

(** ** Strings and the dictionary *)

Lemma str_eqb_eq (a b : pystr) : str_eqb a b = true <-> a = b.
Proof.
  revert b; induction a as [|x a IH]; intros [|y b]; simpl;
    try (split; [discriminate | congruence]); try tauto.
  rewrite andb_true_iff, Z.eqb_eq, IH.
  split; [intros [-> ->]; reflexivity | intros H; inversion H; auto].
Qed.

Lemma str_eqb_refl (a : pystr) : str_eqb a a = true.
Proof. apply str_eqb_eq; reflexivity. Qed.

Lemma str_eqb_neq (a b : pystr) : str_eqb a b = false <-> a <> b.
Proof.
  rewrite <- str_eqb_eq. destruct (str_eqb a b); split; congruence.
Qed.

Section Dict.
Import AddressBook.

Lemma dict_get_set_same key v d : dict_get key (dict_set key v d) = Some v.
Proof.
  induction d as [|[k x] d IH]; simpl.
  - now rewrite str_eqb_refl.
  - destruct (str_eqb k key) eqn:E; simpl; now rewrite E.
Qed.

Lemma dict_get_set_other key key' v d :
  key' <> key -> dict_get key' (dict_set key v d) = dict_get key' d.
Proof.
  intros N. induction d as [|[k x] d IH]; simpl.
  - destruct (str_eqb key key') eqn:E; [|reflexivity].
    apply str_eqb_eq in E. congruence.
  - destruct (str_eqb k key) eqn:E; simpl.
    + apply str_eqb_eq in E. subst k.
      destruct (str_eqb key key') eqn:E'; [|reflexivity].
      apply str_eqb_eq in E'. congruence.
    + now rewrite IH.
Qed.

Lemma dict_get_none_keys key d : dict_get key d = None <-> ~ In key (keys d).
Proof.
  induction d as [|[k x] d IH]; simpl; [tauto|].
  destruct (str_eqb k key) eqn:E.
  - apply str_eqb_eq in E. split; [discriminate | intros H; exfalso; auto].
  - apply str_eqb_neq in E. rewrite IH. tauto.
Qed.

Lemma dict_set_present key v d :
  dict_contains key d = true -> keys (dict_set key v d) = keys d.
Proof.
  unfold dict_contains. induction d as [|[k x] d IH]; simpl; [discriminate|].
  destruct (str_eqb k key) eqn:E; simpl; [reflexivity|].
  intros H. now rewrite IH.
Qed.

Lemma dict_set_absent key v d :
  dict_get key d = None -> dict_set key v d = d ++ [(key, v)].
Proof.
  induction d as [|[k x] d IH]; simpl; [reflexivity|].
  destruct (str_eqb k key); [discriminate|].
  intros H. now rewrite IH.
Qed.

Lemma dict_set_keys key v d :
  keys (dict_set key v d)
  = if dict_contains key d then keys d else keys d ++ [key].
Proof.
  destruct (dict_contains key d) eqn:E.
  - now apply dict_set_present.
  - unfold dict_contains in E.
    destruct (dict_get key d) eqn:G; [discriminate|].
    rewrite dict_set_absent by assumption.
    unfold keys. now rewrite map_app.
Qed.

Lemma dict_set_NoDup key v d : NoDup (keys d) -> NoDup (keys (dict_set key v d)).
Proof.
  intros H. rewrite dict_set_keys.
  destruct (dict_contains key d) eqn:E; [assumption|].
  unfold dict_contains in E.
  destruct (dict_get key d) eqn:G; [discriminate|].
  apply dict_get_none_keys in G.
  apply NoDup_rev in H. rewrite <- (rev_involutive (keys d ++ [key])).
  apply NoDup_rev. rewrite rev_app_distr. simpl. constructor; [|assumption].
  now rewrite <- in_rev.
Qed.

Lemma dict_del_incl key d k : In k (keys (dict_del key d)) -> In k (keys d).
Proof.
  induction d as [|[k' x] d IH]; simpl; [tauto|].
  destruct (str_eqb k' key); simpl; intuition.
Qed.

Lemma dict_del_NoDup key d : NoDup (keys d) -> NoDup (keys (dict_del key d)).
Proof.
  induction d as [|[k x] d IH]; simpl; intros H; [constructor|].
  inversion H as [|? ? Hn Hd]; subst.
  destruct (str_eqb k key); [assumption|].
  simpl. constructor; [|auto].
  intros Hin. apply Hn. eapply dict_del_incl; eassumption.
Qed.

Lemma dict_del_get key d : NoDup (keys d) -> dict_get key (dict_del key d) = None.
Proof.
  induction d as [|[k x] d IH]; simpl; intros H; [reflexivity|].
  inversion H as [|? ? Hn Hd]; subst.
  destruct (str_eqb k key) eqn:E; simpl.
  - apply str_eqb_eq in E. subst. now apply dict_get_none_keys.
  - rewrite E. auto.
Qed.

Lemma dict_set_get_same key v d : dict_get key d = Some v -> dict_set key v d = d.
Proof.
  induction d as [|[k x] d IH]; simpl; [discriminate|].
  destruct (str_eqb k key); [congruence|].
  intros H. now rewrite IH.
Qed.

Lemma dict_set_twice key v v' d :
  dict_set key v (dict_set key v' d) = dict_set key v d.
Proof.
  induction d as [|[k x] d IH]; simpl.
  - now rewrite str_eqb_refl.
  - destruct (str_eqb k key) eqn:E; simpl; rewrite E; [reflexivity|].
    now rewrite IH.
Qed.

End Dict.

(** ** Methods that only read, and methods that keep an invariant *)

Lemma readonly_ret {S A : Type} (a : A) : readonly (@ret S A a).
Proof. intros s; reflexivity. Qed.

Lemma readonly_raise {S A : Type} (e : exn) : readonly (@raise S A e).
Proof. intros s; reflexivity. Qed.

Lemma readonly_lift {S A : Type} (r : result A) : readonly (@lift S A r).
Proof. intros s; reflexivity. Qed.

Lemma readonly_get {S : Type} : readonly (@get S).
Proof. intros s; reflexivity. Qed.

Lemma readonly_bind {S A B : Type} (m : M S A) (k : A -> M S B) :
  readonly m -> (forall a, readonly (k a)) -> readonly (bind m k).
Proof.
  intros Hm Hk s. unfold bind. specialize (Hm s).
  destruct (m s) as [[a|e] s']; simpl in *; subst; [apply Hk | reflexivity].
Qed.

Lemma readonly_preserves {S A : Type} (P : S -> Prop) (m : M S A) :
  readonly m -> preserves P m.
Proof. intros H s Hs. now rewrite H. Qed.

Lemma preserves_bind {S A B : Type} (P : S -> Prop) (m : M S A) (k : A -> M S B) :
  preserves P m -> (forall a, preserves P (k a)) -> preserves P (bind m k).
Proof.
  intros Hm Hk s Hs. unfold bind. specialize (Hm s Hs).
  destruct (m s) as [[a|e] s']; simpl in *; [now apply Hk | assumption].
Qed.

Lemma preserves_input_error (P : AddressBook.t -> Prop) (func : M AddressBook.t pystr) :
  preserves P func -> preserves P (input_error func).
Proof.
  intros H s Hs. unfold input_error. specialize (H s Hs).
  destruct (func s) as [[a|[]] s']; simpl in *; assumption.
Qed.

Create HintDb frame.
#[local] Hint Resolve readonly_ret readonly_raise readonly_lift readonly_get : frame.
#[local] Hint Extern 2 (readonly (bind _ _)) =>
  apply readonly_bind; [|intro] : frame.

Lemma for_records_readonly zero_pad today t7 records acc :
  readonly (AddressBook.for_records zero_pad today t7 records acc).
Proof.
  revert acc. induction records as [|record rest IH]; intros acc; simpl.
  - auto with frame.
  - apply readonly_bind; [auto with frame|]. intros e. apply IH.
Qed.

Lemma get_upcoming_birthdays_readonly zero_pad now :
  readonly (AddressBook.get_upcoming_birthdays zero_pad now).
Proof.
  unfold AddressBook.get_upcoming_birthdays.
  apply readonly_bind; [auto with frame|]; intros t7.
  apply readonly_bind; [auto with frame|]; intros self.
  apply readonly_bind; [apply for_records_readonly|]; intros l.
  auto with frame.
Qed.

Lemma find_readonly name : readonly (AddressBook.find name).
Proof. intros s; reflexivity. Qed.

Lemma add_record_unique record : preserves unique_keys (AddressBook.add_record record).
Proof. intros s Hs. simpl. now apply dict_set_NoDup. Qed.

Lemma delete_unique name : preserves unique_keys (AddressBook.delete name).
Proof.
  intros s Hs. unfold AddressBook.delete.
  destruct (AddressBook.dict_contains name s); simpl; [|assumption].
  now apply dict_del_NoDup.
Qed.

Lemma on_record_unique {A : Type} key record (m : M Record.t A) :
  preserves unique_keys (on_record key record m).
Proof.
  intros s Hs. unfold on_record. destruct (m record) as [r record']. simpl.
  now apply dict_set_NoDup.
Qed.

#[local] Hint Resolve find_readonly get_upcoming_birthdays_readonly : frame.
#[local] Hint Resolve add_record_unique delete_unique on_record_unique : frame.
#[local] Hint Extern 1 (preserves _ (ret _)) =>
  apply readonly_preserves, readonly_ret : frame.
#[local] Hint Extern 1 (preserves _ (raise _)) =>
  apply readonly_preserves, readonly_raise : frame.
#[local] Hint Extern 1 (preserves _ (lift _)) =>
  apply readonly_preserves, readonly_lift : frame.
#[local] Hint Extern 1 (preserves _ (AddressBook.find _)) =>
  apply readonly_preserves, find_readonly : frame.
#[local] Hint Extern 2 (preserves _ (bind _ _)) =>
  apply preserves_bind; [|intro] : frame.

Lemma add_contact_unique args : preserves unique_keys (add_contact args).
Proof.
  apply preserves_input_error. unfold add_contact_func.
  destruct args as [|name [|phone rest]]; auto with frame.
  apply preserves_bind; [auto with frame|]. intros [record|]; auto with frame.
Qed.

Lemma change_contact_unique args : preserves unique_keys (change_contact args).
Proof.
  apply preserves_input_error. unfold change_contact_func.
  destruct args as [|name [|old_phone [|new_phone rest]]]; auto with frame.
  apply preserves_bind; [auto with frame|]. intros [record|]; auto with frame.
Qed.

Lemma add_birthday_unique args : preserves unique_keys (add_birthday args).
Proof.
  apply preserves_input_error. unfold add_birthday_func.
  destruct args as [|name [|birthday rest]]; auto with frame.
  apply preserves_bind; [auto with frame|]. intros [record|]; auto with frame.
Qed.

(** ** Phone numbers *)

Lemma isdigit_spec (s : pystr) :
  Unicode.isdigit s = true
  <-> s <> [] /\ Forall (fun c => Unicode.isdigit_char c = true) s.
Proof.
  unfold Unicode.isdigit. rewrite andb_true_iff, forallb_forall, Forall_forall.
  destruct s; simpl; intuition congruence.
Qed.

Lemma in_ranges_spec t c :
  Unicode.in_ranges t c = true <-> exists r, In r t /\ fst r <= c <= snd r.
Proof.
  unfold Unicode.in_ranges, Unicode.in_range. rewrite existsb_exists.
  split; intros [r [Hr Hc]]; exists r; split; auto.
  - apply andb_true_iff in Hc. lia.
  - apply andb_true_iff. lia.
Qed.

Lemma ascii_digit_is_digit (c : codepoint) :
  Unicode.isdigit_char c && (c <? 128) = Unicode.is_ascii_digit c.
Proof.
  unfold Unicode.is_ascii_digit.
  destruct (Unicode.in_range 48 57 c) eqn:E.
  - unfold Unicode.in_range in E. apply andb_true_iff in E.
    apply andb_true_iff. split.
    + unfold Unicode.isdigit_char. apply orb_true_iff. left.
      apply in_ranges_spec. exists (48, 57). simpl. split; [auto | lia].
    + apply Z.ltb_lt. lia.
  - apply andb_false_iff.
    destruct (c <? 128) eqn:L; [left | now right].
    apply Z.ltb_lt in L.
    assert (N : ~ (48 <= c <= 57)).
    { unfold Unicode.in_range in E. apply andb_false_iff in E. lia. }
    unfold Unicode.isdigit_char.
    apply orb_false_iff; split;
      (apply not_true_is_false; intros H; apply in_ranges_spec in H;
       destruct H as [r [Hr Hc]]; simpl in Hr;
       repeat (destruct Hr as [<-|Hr]; [simpl in Hc; lia|]); assumption).
Qed.

(** C6, as the code has it.  [Phone.validate] is true exactly for texts
    of length 10 whose characters are all digits in the sense of
    [str.isdigit]: the ASCII digits and the other Unicode digit
    characters (among the code points below 128, the ASCII digits only).
    Validation of a text never raises, and building a [Phone] from a
    text that is not valid raises [PhoneValidationError]. *)
Theorem Phone_validate_spec (s : pystr) :
  (Phone.validate (VStr s) = Ok true
   <-> List.length s = 10%nat /\ Forall (fun c => Unicode.isdigit_char c = true) s)
  /\ (Phone.validate (VStr s) = Ok true \/ Phone.validate (VStr s) = Ok false)
  /\ Phone.init (VStr s)
     = match Phone.validate (VStr s) with
       | Ok true => Ok s
       | _ => Raise (PhoneValidationError PhoneValidationError_default)
       end
  /\ (forall c, Unicode.isdigit_char c && (c <? 128) = Unicode.is_ascii_digit c).
Proof.
  assert (V : Phone.validate (VStr s)
              = Ok ((len s =? 10) && Unicode.isdigit s)) by reflexivity.
  split; [|split; [|split]].
  - rewrite V. split.
    + intros H. injection H as H'. apply andb_true_iff in H'.
      destruct H' as [L D]. apply Z.eqb_eq in L. unfold len in L.
      apply isdigit_spec in D. split; [lia | tauto].
    + intros [L D]. f_equal. apply andb_true_iff. split.
      * apply Z.eqb_eq. unfold len. lia.
      * apply isdigit_spec. split; [|assumption].
        destruct s; [discriminate | congruence].
  - rewrite V. destruct ((len s =? 10) && Unicode.isdigit s); auto.
  - unfold Phone.init. rewrite V. simpl.
    destruct ((len s =? 10) && Unicode.isdigit s); reflexivity.
  - apply ascii_digit_is_digit.
Qed.

(** C6, counterexample: ten ARABIC-INDIC DIGIT ONE characters (U+0661)
    pass [Phone.validate] and build a [Phone], although none of them is
    an ASCII digit. *)
Lemma Phone_validate_non_ascii_digits :
  let s := repeat 0x0661 10 in
  List.length s = 10%nat
  /\ forallb Unicode.is_ascii_digit s = false
  /\ Phone.validate (VStr s) = Ok true
  /\ Phone.init (VStr s) = Ok s.
Proof. repeat split. Qed.

(** ** Records *)

Lemma remove_first_none value l :
  ~ In value l -> Record.remove_first value l = None.
Proof.
  induction l as [|phone l IH]; simpl; intros H; [reflexivity|].
  destruct (str_eqb phone value) eqn:E.
  - apply str_eqb_eq in E. tauto.
  - rewrite IH; [reflexivity | tauto].
Qed.

(** C8.  [edit_phone] changes nothing when it fails: with a new value
    that is not a valid phone it raises [PhoneValidationError] and the
    record is what it was (so the old phone, if present, still is); with
    a valid new value and an old value that is not in the list it raises
    the phone-not-found [ValueError] and the record is what it was. *)
Theorem edit_phone_atomic (self : Record.t) (old_value new_value : pystr) :
  (Phone.validate (VStr new_value) = Ok false ->
   Record.edit_phone old_value new_value self
   = (Raise (PhoneValidationError PhoneValidationError_default), self))
  /\ (Phone.validate (VStr new_value) = Ok true ->
      ~ In old_value (Record.phones self) ->
      Record.edit_phone old_value new_value self
      = (Raise (ValueError
                  (Msg (py "Phone number " ++ old_value ++ py " not found."))),
         self)).
Proof.
  unfold Record.edit_phone, bind, lift. split.
  - intros ->. reflexivity.
  - intros -> H. unfold Record.remove_phone.
    now rewrite (remove_first_none _ _ H).
Qed.

Lemma edit_phone_atomic_witness :
  let self := Record.mk (py "Alice") [py "1234567890"] None in
  Record.edit_phone (py "1234567890") (py "12345") self
  = (Raise (PhoneValidationError PhoneValidationError_default), self)
  /\ Record.edit_phone (py "5555555555") (py "0987654321") self
     = (Raise (ValueError
                 (Msg (py "Phone number " ++ py "5555555555" ++ py " not found."))),
        self).
Proof.
  intros self. split.
  - apply (proj1 (edit_phone_atomic self (py "1234567890") (py "12345"))).
    reflexivity.
  - apply (proj2 (edit_phone_atomic self (py "5555555555") (py "0987654321"))).
    + reflexivity.
    + simpl. intros [H|[]]. discriminate H.
Defined.

(** ** The store *)

(** C9.  In a store without repeated keys, after [add_record r] a
    lookup of [r]'s name gives [r], no key is repeated, every other key
    maps to what it mapped to, and when the name was already a key the
    keys (and their order) are the same, so the record replaced the
    earlier one.  [delete] and the handlers [add_contact],
    [change_contact], [add_birthday] and the birthday query keep the
    keys unrepeated as well. *)
Theorem add_record_unique_key (book : AddressBook.t) (r : Record.t) :
  unique_keys book ->
  let book' := snd (AddressBook.add_record r book) in
  AddressBook.find (Record.name r) book' = (Ok (Some r), book')
  /\ unique_keys book'
  /\ (forall k, k <> Record.name r ->
        AddressBook.dict_get k book' = AddressBook.dict_get k book)
  /\ (AddressBook.dict_contains (Record.name r) book = true ->
        AddressBook.keys book' = AddressBook.keys book)
  /\ (forall r2, Record.name r2 = Record.name r ->
        let book2 := snd (AddressBook.add_record r2 book') in
        AddressBook.dict_get (Record.name r) book2 = Some r2
        /\ AddressBook.keys book2 = AddressBook.keys book')
  /\ (forall name, unique_keys (snd (AddressBook.delete name book))
                   /\ AddressBook.dict_get name
                        (snd (AddressBook.delete name book)) = None)
  /\ (forall args, unique_keys (snd (add_contact args book))
                   /\ unique_keys (snd (change_contact args book))
                   /\ unique_keys (snd (add_birthday args book)))
  /\ (forall zero_pad now,
        unique_keys (snd (AddressBook.get_upcoming_birthdays zero_pad now book))).
Proof.
  intros U book'. subst book'. simpl.
  split; [|split; [|split; [|split; [|split; [|split; [|split]]]]]].
  - unfold AddressBook.find. now rewrite dict_get_set_same.
  - now apply dict_set_NoDup.
  - intros k Hk. now apply dict_get_set_other.
  - apply dict_set_present.
  - intros r2 E. rewrite E. split.
    + apply dict_get_set_same.
    + apply dict_set_present. unfold AddressBook.dict_contains.
      rewrite <- E. now rewrite dict_get_set_same.
  - intros name. split.
    + now apply delete_unique.
    + unfold AddressBook.delete, AddressBook.dict_contains.
      destruct (AddressBook.dict_get name book) eqn:G; simpl.
      * now apply dict_del_get.
      * assumption.
  - intros args. split; [|split].
    + now apply add_contact_unique.
    + now apply change_contact_unique.
    + now apply add_birthday_unique.
  - intros zero_pad now. now rewrite get_upcoming_birthdays_readonly.
Qed.

Lemma add_record_unique_key_witness :
  let alice := Record.mk (py "Alice") [py "1234567890"] None in
  let alice2 := Record.mk (py "Alice") [] None in
  let bob := Record.mk (py "Bob") [] None in
  let book := [(py "Bob", bob); (py "Alice", alice2)] in
  unique_keys book
  /\ AddressBook.find (py "Alice") (snd (AddressBook.add_record alice book))
     = (Ok (Some alice), [(py "Bob", bob); (py "Alice", alice)])
  /\ unique_keys (snd (AddressBook.add_record alice book)).
Proof.
  intros alice alice2 bob book.
  assert (U : unique_keys book).
  { repeat constructor; simpl; intuition discriminate. }
  split; [exact U|].
  destruct (add_record_unique_key book alice U) as (F & U' & _).
  split; [exact F | exact U'].
Defined.

(** C10.  The birthday query does not change the store: whatever the
    clock reading and the stored records, and also when the query ends
    with an exception, the store after the call is the store before it
    (same entries in the same order, each record with the same name,
    phones and birthday). *)
Theorem get_upcoming_birthdays_frame (zero_pad : bool) (now : datetime)
    (book : AddressBook.t) :
  snd (AddressBook.get_upcoming_birthdays zero_pad now book) = book.
Proof. apply get_upcoming_birthdays_readonly. Qed.

(** ** Handlers *)

Lemma input_error_snd func book : snd (input_error func book) = snd (func book).
Proof.
  unfold input_error. destruct (func book) as [[a|[]] book']; reflexivity.
Qed.

(** What [add_contact] does with a name that is valid and a phone text
    that is not empty: it never returns.  A phone that is not valid
    raises [PhoneValidationError]; a valid one is wrapped in a [Phone]
    and handed to [add_phone], whose [Phone(value)] raises [TypeError]
    on it.  Neither is caught by [input_error], and a record made for a
    new name is in the store by then. *)
Lemma add_contact_with_phone (book : AddressBook.t) (name phone : pystr) :
  truthy phone = true ->
  Name.validate (VStr name) = true ->
  add_contact [name; phone] book
  = (Raise (match Phone.validate (VStr phone) with
            | Ok true => TypeError
            | _ => PhoneValidationError PhoneValidationError_default
            end),
     match AddressBook.dict_get name book with
     | Some _ => book
     | None => book ++ [(name, Record.mk name [] None)]
     end).
Proof.
  intros T N.
  assert (I : Record.init name = Ok (Record.mk name [] None)).
  { unfold Record.init, Name.init. now rewrite N. }
  unfold add_contact, input_error, add_contact_func, bind at 1, AddressBook.find.
  rewrite T.
  destruct (AddressBook.dict_get name book) as [record|] eqn:G.
  - unfold on_record.
    match goal with |- context [bind (bind ?a ?b) ?c record] =>
      replace (bind (bind a b) c record)
        with (Raise (match Phone.validate (VStr phone) with
                     | Ok true => TypeError
                     | _ => PhoneValidationError PhoneValidationError_default
                     end) : result pystr, record)
    end.
    + rewrite (dict_set_get_same _ _ _ G).
      destruct (Phone.validate (VStr phone)) as [[|]|]; reflexivity.
    + unfold bind, lift, Phone.init. simpl.
      destruct ((len phone =? 10) && Unicode.isdigit phone); reflexivity.
  - unfold bind at 1, lift. rewrite I.
    unfold bind at 1, AddressBook.add_record, on_record. simpl Record.name.
    match goal with |- context [bind (bind ?a ?b) ?c ?r] =>
      replace (bind (bind a b) c r)
        with (Raise (match Phone.validate (VStr phone) with
                     | Ok true => TypeError
                     | _ => PhoneValidationError PhoneValidationError_default
                     end) : result pystr, r)
    end.
    + rewrite dict_set_twice, (dict_set_absent _ _ _ G).
      destruct (Phone.validate (VStr phone)) as [[|]|]; reflexivity.
    + unfold bind, lift, Phone.init. simpl.
      destruct ((len phone =? 10) && Unicode.isdigit phone); reflexivity.
Qed.

(** C2, on the code.  For a store that has no key Bob, [add_contact]
    with the arguments Bob and 12345 ends with [PhoneValidationError]
    (the claim's failure), but the store is not what it was: the new
    record of Bob, without phones, is its last entry. *)
Theorem add_contact_short_phone_adds_record (book : AddressBook.t) :
  AddressBook.dict_get (py "Bob") book = None ->
  let bob := Record.mk (py "Bob") [] None in
  add_contact [py "Bob"; py "12345"] book
  = (Raise (PhoneValidationError PhoneValidationError_default),
     book ++ [(py "Bob", bob)])
  /\ AddressBook.dict_get (py "Bob") (book ++ [(py "Bob", bob)]) = Some bob.
Proof.
  intros G bob. split.
  - rewrite add_contact_with_phone by reflexivity. now rewrite G.
  - rewrite <- (dict_set_absent _ bob _ G). apply dict_get_set_same.
Qed.

Lemma add_contact_short_phone_adds_record_witness :
  AddressBook.dict_get (py "Bob") [] = None
  /\ add_contact [py "Bob"; py "12345"] []
     = (Raise (PhoneValidationError PhoneValidationError_default),
        [(py "Bob", Record.mk (py "Bob") [] None)]).
Proof.
  split; [reflexivity|].
  apply (proj1 (add_contact_short_phone_adds_record [] eq_refl)).
Defined.

(** C3, on the code.  [input_error] catches [ValueError], [KeyError]
    and [IndexError] only.  For every store, every valid name and every
    phone text that is not empty, the exception raised in [add_contact]
    leaves the handler: [PhoneValidationError] for a phone that is not
    valid, [TypeError] for one that is.  A name of one character leaves
    it as [NameValidationError], and [change_contact] with the name
    alone as [TypeError]. *)
Theorem input_error_lets_exceptions_through (book : AddressBook.t)
    (name phone : pystr) :
  truthy phone = true ->
  Name.validate (VStr name) = true ->
  fst (add_contact [name; phone] book)
  = Raise (match Phone.validate (VStr phone) with
           | Ok true => TypeError
           | _ => PhoneValidationError PhoneValidationError_default
           end)
  /\ add_contact [py "B"; phone] []
     = (Raise (NameValidationError NameValidationError_default), [])
  /\ change_contact [name] book = (Raise TypeError, book).
Proof.
  intros T N. split; [|split].
  - now rewrite add_contact_with_phone.
  - reflexivity.
  - reflexivity.
Qed.

Lemma input_error_lets_exceptions_through_witness :
  fst (add_contact [py "Alice"; py "123"] [])
  = Raise (PhoneValidationError PhoneValidationError_default)
  /\ fst (add_contact [py "Alice"; py "1234567890"] []) = Raise TypeError.
Proof.
  split.
  - apply (proj1 (input_error_lets_exceptions_through
                    [] (py "Alice") (py "123") eq_refl eq_refl)).
  - apply (proj1 (input_error_lets_exceptions_through
                    [] (py "Alice") (py "1234567890") eq_refl eq_refl)).
Defined.

(** ** Text that [strptime] accepts contains a dot *)

Lemma orelse_some {A : Type} (a b : option A) v :
  orelse a b = Some v -> a = Some v \/ b = Some v.
Proof. destruct a; simpl; auto. Qed.

Lemma two_some {A : Type} p q s (k : pystr -> pystr -> option A) v :
  two p q s k = Some v ->
  exists a b r, s = a :: b :: r /\ p a = true /\ q b = true /\ k [a; b] r = Some v.
Proof.
  destruct s as [|a [|b r]]; simpl; try discriminate.
  destruct (p a) eqn:Pa; [|discriminate].
  destruct (q b) eqn:Qb; [|discriminate].
  intros H. exists a, b, r. auto.
Qed.

Lemma one_some {A : Type} p s (k : pystr -> pystr -> option A) v :
  one p s k = Some v ->
  exists a r, s = a :: r /\ p a = true /\ k [a] r = Some v.
Proof.
  destruct s as [|a r]; simpl; try discriminate.
  destruct (p a) eqn:Pa; [|discriminate].
  intros H. exists a, r. auto.
Qed.

Lemma re_dot_some {A : Type} s (k : pystr -> option A) v :
  re_dot s k = Some v -> exists r, s = 46 :: r /\ k r = Some v.
Proof.
  destruct s as [|c r]; simpl; [discriminate|].
  destruct (c =? 46) eqn:E; [|discriminate].
  apply Z.eqb_eq in E. subst. eauto.
Qed.

Lemma re_d_some {A : Type} s (k : pystr -> pystr -> option A) v :
  re_d s k = Some v -> exists d r, s = d ++ r /\ k d r = Some v.
Proof.
  unfold re_d. intros H.
  repeat (apply orelse_some in H; destruct H as [H|H]);
    first [ apply two_some in H; destruct H as (a & b & r & -> & _ & _ & H);
            now exists [a; b], r
          | apply one_some in H; destruct H as (a & r & -> & _ & H);
            now exists [a], r ].
Qed.

Lemma re_match_dot s v : re_match s = Some v -> In 46 s.
Proof.
  unfold re_match. intros H.
  apply re_d_some in H. destruct H as (d & r & -> & H).
  apply re_dot_some in H. destruct H as (r' & -> & _).
  apply in_or_app. right. now left.
Qed.

Lemma str_to_datetime_not_isdigit value d :
  Birthday.str_to_datetime value = Ok d -> Unicode.isdigit value = false.
Proof.
  unfold Birthday.str_to_datetime, strptime_dmY. intros H.
  destruct (re_match value) as [v|] eqn:R; [|discriminate].
  apply re_match_dot in R.
  apply not_true_is_false. intros D. apply isdigit_spec in D.
  destruct D as [_ D]. rewrite Forall_forall in D.
  specialize (D _ R). discriminate D.
Qed.

Lemma edit_phone_birthday old_value new_value self :
  Record.birthday (snd (Record.edit_phone old_value new_value self))
  = Record.birthday self.
Proof.
  unfold Record.edit_phone, bind, lift. simpl.
  destruct ((len new_value =? 10) && Unicode.isdigit new_value) eqn:V;
    [|reflexivity].
  unfold Record.remove_phone.
  destruct (Record.remove_first old_value (Record.phones self)); [|reflexivity].
  unfold Record.add_phone, bind, lift, Phone.init. simpl. rewrite V. reflexivity.
Qed.

(** C5, on the code.  With the arguments name, old phone, new phone
    and a text [bday] that [Birthday] parses (to any date [d]), for a
    name that is in the store, [change_contact] leaves the birthday of
    that contact as it was: the last argument is used as a birthday only
    when [isdigit] holds of it, and no text with the dots of a date is
    all digits. *)
Theorem change_contact_keeps_birthday (book : AddressBook.t)
    (name old_phone new_phone bday : pystr) (record : Record.t) (d : datetime) :
  Birthday.str_to_datetime bday = Ok d ->
  AddressBook.dict_get name book = Some record ->
  exists record',
    AddressBook.dict_get name
      (snd (change_contact [name; old_phone; new_phone; bday] book))
    = Some record'
    /\ Record.birthday record' = Record.birthday record.
Proof.
  intros B G. unfold change_contact. rewrite input_error_snd.
  unfold change_contact_func.
  replace (last [name; old_phone; new_phone; bday] []) with bday by reflexivity.
  rewrite (str_to_datetime_not_isdigit _ _ B), andb_false_r.
  unfold bind at 1, AddressBook.find. rewrite G. unfold on_record.
  match goal with |- context [let (_, _) := ?m in _] =>
    assert (E : Record.birthday (snd m) = Record.birthday record);
    [|destruct m as [r record']]
  end.
  - unfold bind at 1.
    destruct (truthy old_phone && truthy new_phone).
    + pose proof (edit_phone_birthday old_phone new_phone record) as E.
      destruct (Record.edit_phone old_phone new_phone record) as [[[]|e] r'];
        exact E.
    + reflexivity.
  - exists record'. simpl. split; [apply dict_get_set_same | exact E].
Qed.

Lemma change_contact_keeps_birthday_witness :
  let alice := Record.mk (py "Alice") [py "1234567890"] None in
  Birthday.str_to_datetime (py "15.03.1990") = Ok (mkdt 1990 3 15 0 0 0 0)
  /\ exists record',
       AddressBook.dict_get (py "Alice")
         (snd (change_contact
                 [py "Alice"; py "1234567890"; py "0987654321"; py "15.03.1990"]
                 [(py "Alice", alice)]))
       = Some record'
       /\ Record.birthday record' = None.
Proof.
  intros alice. split; [reflexivity|].
  exact (change_contact_keeps_birthday [(py "Alice", alice)]
           (py "Alice") (py "1234567890") (py "0987654321") (py "15.03.1990")
           alice (mkdt 1990 3 15 0 0 0 0) eq_refl eq_refl).
Defined.

(** ** The calendar *)

Lemma valid_date_iff y m d :
  valid_date y m d = true
  <-> 1 <= y <= 9999 /\ 1 <= m <= 12 /\ 1 <= d <= days_in_month y m.
Proof.
  unfold valid_date, MINYEAR, MAXYEAR.
  rewrite !andb_true_iff, !Z.leb_le. tauto.
Qed.

Lemma days_before_year_succ y :
  days_before_year (y + 1)
  = days_before_year y + (if is_leap y then 366 else 365).
Proof.
  unfold days_before_year, is_leap. cbv zeta.
  replace (y + 1 - 1) with y by lia.
  destruct (Z.eqb_spec (y mod 4) 0), (Z.eqb_spec (y mod 100) 0),
    (Z.eqb_spec (y mod 400) 0); simpl; Z.div_mod_to_equations; lia.
Qed.

Ltac month_cases m :=
  let H := fresh "Hm" in
  assert (H : m = 1 \/ m = 2 \/ m = 3 \/ m = 4 \/ m = 5 \/ m = 6 \/ m = 7
              \/ m = 8 \/ m = 9 \/ m = 10 \/ m = 11 \/ m = 12) by lia;
  repeat (destruct H as [H|H]; [subst m|]); [..|subst m].

Lemma days_before_month_succ y m :
  1 <= m <= 11 ->
  days_before_month y (m + 1) = days_before_month y m + days_in_month y m.
Proof.
  intros Hm.
  assert (H : m = 1 \/ m = 2 \/ m = 3 \/ m = 4 \/ m = 5 \/ m = 6 \/ m = 7
              \/ m = 8 \/ m = 9 \/ m = 10 \/ m = 11) by lia.
  unfold days_before_month, days_in_month.
  repeat (destruct H as [H|H]; [subst m; simpl; destruct (is_leap y); reflexivity|]).
  subst m; simpl; destruct (is_leap y); reflexivity.
Qed.

Lemma days_in_december y : days_in_month y 12 = 31.
Proof. reflexivity. Qed.

Lemma days_before_december y :
  days_before_month y 12 + 31 = if is_leap y then 366 else 365.
Proof. unfold days_before_month. simpl. destruct (is_leap y); reflexivity. Qed.

Lemma days_in_month_pos y m : 1 <= m <= 12 -> 28 <= days_in_month y m <= 31.
Proof.
  intros Hm. unfold days_in_month. month_cases m; simpl;
    try destruct (is_leap y); lia.
Qed.

Lemma next_day_ordinal t t' :
  valid_date (year t) (month t) (day t) = true ->
  next_day t = Some t' ->
  toordinal t' = toordinal t + 1
  /\ valid_date (year t') (month t') (day t') = true.
Proof.
  intros V. apply valid_date_iff in V. destruct V as (Vy & Vm & Vd).
  unfold next_day, toordinal, ymd2ord, MAXYEAR.
  destruct (Z.ltb_spec (day t) (days_in_month (year t) (month t))).
  { intros H'. injection H' as <-. simpl. split; [lia|].
    apply valid_date_iff. lia. }
  destruct (Z.ltb_spec (month t) 12).
  { intros H'. injection H' as <-. simpl.
    rewrite days_before_month_succ by lia. split; [lia|].
    apply valid_date_iff.
    pose proof (days_in_month_pos (year t) (month t + 1)). lia. }
  destruct (Z.ltb_spec (year t) 9999); [|discriminate].
  intros H'. injection H' as <-. simpl.
  assert (E : month t = 12) by lia. rewrite E in *.
  rewrite days_before_year_succ.
  pose proof (days_before_december (year t)) as D.
  pose proof (days_in_december (year t)) as D'.
  split.
  - unfold days_before_month at 1. simpl. lia.
  - apply valid_date_iff. unfold days_in_month. simpl. lia.
Qed.

Lemma next_day_none t :
  valid_date (year t) (month t) (day t) = true ->
  next_day t = None ->
  year t = 9999 /\ month t = 12 /\ day t = 31.
Proof.
  intros V. apply valid_date_iff in V. destruct V as (Vy & Vm & Vd).
  unfold next_day, MAXYEAR.
  destruct (Z.ltb_spec (day t) (days_in_month (year t) (month t)));
    [discriminate|].
  destruct (Z.ltb_spec (month t) 12); [discriminate|].
  destruct (Z.ltb_spec (year t) 9999); [discriminate|].
  intros _. assert (E : month t = 12) by lia. rewrite E in *.
  pose proof (days_in_december (year t)). lia.
Qed.

Lemma add_days_ordinal n : forall t t',
  valid_date (year t) (month t) (day t) = true ->
  add_days t n = Ok t' ->
  toordinal t' = toordinal t + Z.of_nat n
  /\ valid_date (year t') (month t') (day t') = true.
Proof.
  induction n as [|n IH]; intros t t' V; simpl add_days.
  - intros H. injection H as <-. split; [lia | assumption].
  - destruct (next_day t) as [t1|] eqn:N; [|discriminate].
    destruct (next_day_ordinal _ _ V N) as [O1 V1].
    intros H. destruct (IH _ _ V1 H) as [O2 V2]. split; [lia | assumption].
Qed.

Lemma weekday_last_day t :
  year t = 9999 -> month t = 12 -> day t = 31 -> weekday t = 4.
Proof.
  intros Hy Hm Hd. unfold weekday, toordinal. rewrite Hy, Hm, Hd. reflexivity.
Qed.

Lemma weekday_range t : 0 <= weekday t <= 6.
Proof. unfold weekday. pose proof (Z.mod_pos_bound (toordinal t + 6) 7). lia. Qed.

(** A valid date on a Saturday or Sunday has a Monday one or two days
    later, within the range of [datetime]. *)
Lemma weekend_to_monday t :
  valid_date (year t) (month t) (day t) = true ->
  5 <= weekday t ->
  exists monday,
    timedelta_add t (7 - weekday t) = Ok monday
    /\ weekday monday = 0
    /\ toordinal monday = toordinal t + (7 - weekday t)
    /\ valid_date (year monday) (month monday) (day monday) = true.
Proof.
  intros V W. pose proof (weekday_range t) as R.
  assert (S1 : exists t1, next_day t = Some t1).
  { destruct (next_day t) as [t1|] eqn:N; [eauto|].
    destruct (next_day_none _ V N) as (Hy & Hm & Hd).
    pose proof (weekday_last_day _ Hy Hm Hd). lia. }
  destruct S1 as [t1 N1]. destruct (next_day_ordinal _ _ V N1) as [O1 V1].
  assert (W1 : weekday t1 = (weekday t + 1) mod 7).
  { unfold weekday in *. rewrite O1. Z.div_mod_to_equations. lia. }
  unfold timedelta_add.
  assert (C : weekday t = 6 \/ weekday t = 5) by lia.
  destruct C as [C|C]; rewrite C in *.
  - exists t1. change (Z.to_nat (7 - 6)) with 1%nat. simpl. rewrite N1.
    repeat split; [exact W1 | lia | assumption].
  - assert (S2 : exists t2, next_day t1 = Some t2).
    { destruct (next_day t1) as [t2|] eqn:N; [eauto|].
      destruct (next_day_none _ V1 N) as (Hy & Hm & Hd).
      pose proof (weekday_last_day _ Hy Hm Hd) as L. rewrite W1 in L.
      discriminate L. }
    destruct S2 as [t2 N2]. destruct (next_day_ordinal _ _ V1 N2) as [O2 V2].
    exists t2. change (Z.to_nat (7 - 5)) with 2%nat. simpl. rewrite N1, N2.
    repeat split; [|lia|assumption].
    unfold weekday in *. rewrite O2, O1. Z.div_mod_to_equations. lia.
Qed.

(** ** Order of dates and ordinals *)

Lemma days_before_year_mono y1 y2 :
  y1 <= y2 -> days_before_year y1 <= days_before_year y2.
Proof. intros H. unfold days_before_year. cbv zeta. Z.div_mod_to_equations. lia. Qed.

Ltac table_simpl :=
  cbv beta iota delta
    [days_before_month days_in_month DAYS_IN_MONTH DAYS_BEFORE_MONTH nth
     Z.to_nat Pos.to_nat Pos.iter_op Init.Nat.add Nat.add
     Z.eqb Z.ltb Z.compare Pos.eqb Pos.compare Pos.compare_cont andb].

Lemma day_of_year_bound y m d :
  1 <= m <= 12 -> 1 <= d <= days_in_month y m ->
  1 <= days_before_month y m + d <= (if is_leap y then 366 else 365).
Proof.
  intros Hm. destruct (is_leap y) eqn:L; month_cases m; table_simpl;
    rewrite ?L; lia.
Qed.

Lemma days_before_month_lt y m1 m2 :
  1 <= m1 -> m1 < m2 -> m2 <= 12 ->
  days_before_month y m1 + days_in_month y m1 <= days_before_month y m2.
Proof.
  intros H1 H12 H2.
  destruct (is_leap y) eqn:L; month_cases m1; month_cases m2; try lia;
    table_simpl; rewrite ?L; lia.
Qed.

Lemma ymd2ord_mono y1 m1 d1 y2 m2 d2 :
  valid_date y1 m1 d1 = true -> valid_date y2 m2 d2 = true ->
  y1 < y2 \/ (y1 = y2 /\ (m1 < m2 \/ (m1 = m2 /\ d1 <= d2))) ->
  ymd2ord y1 m1 d1 <= ymd2ord y2 m2 d2.
Proof.
  intros V1 V2. apply valid_date_iff in V1, V2.
  destruct V1 as (Vy1 & Vm1 & Vd1). destruct V2 as (Vy2 & Vm2 & Vd2).
  unfold ymd2ord. intros [L|[-> [L|[-> L]]]].
  - pose proof (day_of_year_bound y1 m1 d1 Vm1 Vd1).
    pose proof (day_of_year_bound y2 m2 d2 Vm2 Vd2).
    pose proof (days_before_year_succ y1).
    pose proof (days_before_year_mono (y1 + 1) y2).
    destruct (is_leap y1); lia.
  - pose proof (days_before_month_lt y2 m1 m2). lia.
  - lia.
Qed.

Lemma compare_not_Gt a b :
  Datetime.compare a b <> Gt ->
  year a < year b
  \/ (year a = year b
      /\ (month a < month b \/ (month a = month b /\ day a <= day b))).
Proof.
  unfold Datetime.compare, fields. cbn [lex_compare].
  destruct (Z.compare_spec (year a) (year b)); [|lia|congruence].
  destruct (Z.compare_spec (month a) (month b)); [|lia|congruence].
  destruct (Z.compare_spec (day a) (day b)); [lia|lia|congruence].
Qed.

Lemma ymd2ord_next_year y m d :
  valid_date y m d = true -> valid_date (y + 1) m d = true ->
  ymd2ord y m d + 365 <= ymd2ord (y + 1) m d.
Proof.
  intros V1 V2. apply valid_date_iff in V1, V2.
  destruct V1 as (Vy1 & Vm1 & Vd1).
  unfold ymd2ord. rewrite days_before_year_succ.
  unfold days_before_month.
  destruct (2 <? m); simpl; destruct (is_leap y), (is_leap (y + 1)); lia.
Qed.

(** A clock reading after midnight is later than midnight of its day. *)
Lemma midnight_before_now now :
  valid now = true ->
  (hour now, minute now, second now, microsecond now) <> (0, 0, 0, 0) ->
  Datetime.compare now (mkdt (year now) (month now) (day now) 0 0 0 0) = Gt.
Proof.
  unfold valid, valid_time. rewrite !andb_true_iff, !Z.leb_le, !Z.ltb_lt.
  intros (_ & H) N.
  unfold Datetime.compare, fields. cbn [lex_compare year month day hour minute
    second microsecond].
  rewrite !Z.compare_refl.
  destruct (Z.compare_spec (hour now) 0); [|lia|reflexivity].
  destruct (Z.compare_spec (minute now) 0); [|lia|reflexivity].
  destruct (Z.compare_spec (second now) 0); [|lia|reflexivity].
  destruct (Z.compare_spec (microsecond now) 0); [|lia|reflexivity].
  exfalso. apply N. congruence.
Qed.

Lemma compare_antisym a b :
  Datetime.compare a b = Gt -> Datetime.compare b a = Lt.
Proof.
  unfold Datetime.compare.
  generalize (fields a) (fields b). intros l.
  induction l as [|x l IH]; intros [|y l']; simpl; try discriminate.
  - reflexivity.
  - rewrite (Z.compare_antisym x y).
    destruct (x ?= y); simpl; auto; discriminate.
Qed.

(** ** The birthday query *)

Lemma replace_year_valid t y t' :
  replace_year t y = Ok t' ->
  valid_date (year t') (month t') (day t') = true.
Proof.
  unfold replace_year.
  destruct (valid_date y (month t) (day t)) eqn:V; [|discriminate].
  intros H. injection H as <-. exact V.
Qed.

Lemma window_date_valid today t7 value g :
  AddressBook.window_date today t7 value = Ok (Some g) ->
  valid_date (year g) (month g) (day g) = true.
Proof.
  unfold AddressBook.window_date, rbind.
  destruct (replace_year value (year today)) as [b|] eqn:R1; [|discriminate].
  destruct (leb today b && leb b t7).
  - intros H. injection H as <-. eapply replace_year_valid; eassumption.
  - destruct (ltb b today); [|discriminate].
    destruct (replace_year b (year today + 1)) as [b'|] eqn:R2; [|discriminate].
    destruct (leb b' t7); [|discriminate].
    intros H. injection H as <-. eapply replace_year_valid; eassumption.
Qed.









(** C1, on the code.  Take any clock reading [now] that is not exactly
    midnight, and a record whose birthday (a date at midnight, as
    [Birthday] builds it) has the month and day of [now], so that its
    date in the current year is today.  The loop body gives no entry for
    this record: the test of line 109 fails because midnight of today is
    before [now], line 112 moves the date a year ahead, out of the
    window.  (When the date does not exist in the next year, line 113
    raises [ValueError] instead.) *)
Theorem birthday_today_not_included (zero_pad : bool) (now t7 : datetime)
    (record : Record.t) (value : datetime) :
  valid now = true ->
  (hour now, minute now, second now, microsecond now) <> (0, 0, 0, 0) ->
  timedelta_add now 7 = Ok t7 ->
  Record.birthday record = Some value ->
  value = mkdt (year value) (month now) (day now) 0 0 0 0 ->
  replace_year value (year now)
  = Ok (mkdt (year now) (month now) (day now) 0 0 0 0)
  /\ (AddressBook.record_entry zero_pad now t7 record = Ok None
      \/ AddressBook.record_entry zero_pad now t7 record
         = Raise (ValueError LibMsg)).
Proof.
  intros V N T B E.
  pose proof V as V'. unfold valid in V'. apply andb_true_iff in V'.
  destruct V' as [Vd Vt].
  set (b := mkdt (year now) (month now) (day now) 0 0 0 0).
  assert (R : replace_year value (year now) = Ok b).
  { unfold replace_year. rewrite E. cbn [month day hour minute second microsecond].
    now rewrite Vd. }
  split; [exact R|].
  unfold AddressBook.record_entry, AddressBook.window_date. rewrite B, R.
  cbn [rbind].
  pose proof (midnight_before_now now V N) as G. fold b in G.
  assert (L1 : leb now b = false) by (unfold leb; now rewrite G).
  assert (L2 : ltb b now = true)
    by (unfold ltb; now rewrite (compare_antisym _ _ G)).
  rewrite L1, L2. cbn [andb].
  unfold replace_year. cbn [month day year hour minute second microsecond b].
  destruct (valid_date (year now + 1) (month now) (day now)) eqn:V2;
    [|right; reflexivity].
  left. cbn [rbind].
  set (b' := mkdt (year now + 1) (month now) (day now) 0 0 0 0).
  assert (L : leb b' t7 = false).
  { unfold leb. destruct (Datetime.compare b' t7) eqn:C; try reflexivity;
      exfalso.
    all: destruct (add_days_ordinal _ _ _ Vd T) as [O7 V7].
    all: assert (C' : Datetime.compare b' t7 <> Gt) by congruence.
    all: apply compare_not_Gt in C'.
    all: pose proof (ymd2ord_mono _ _ _ _ _ _ V2 V7 C') as M.
    all: pose proof (ymd2ord_next_year _ _ _ Vd V2) as Y.
    all: unfold toordinal in O7; cbn [year month day b'] in M; lia. }
  rewrite L. reflexivity.
Qed.

Lemma birthday_today_not_included_witness :
  let now := mkdt 2024 3 15 10 30 0 0 in
  let t7 := mkdt 2024 3 22 10 30 0 0 in
  let born := mkdt 1990 3 15 0 0 0 0 in
  let alice := Record.mk (py "Alice") [py "1234567890"] (Some born) in
  Birthday.str_to_datetime (py "15.03.1990") = Ok born
  /\ timedelta_add now 7 = Ok t7
  /\ replace_year born (year now) = Ok (mkdt 2024 3 15 0 0 0 0)
  /\ (AddressBook.record_entry true now t7 alice = Ok None
      \/ AddressBook.record_entry true now t7 alice = Raise (ValueError LibMsg)).
Proof.
  intros now t7 born alice.
  split; [reflexivity|]. split; [reflexivity|].
  apply (birthday_today_not_included true now t7 alice born);
    try reflexivity.
  vm_compute. intros H. discriminate H.
Defined.

(** The whole query on that store: at 10:30 on 15 March 2024, with
    Alice born 15.03.1990 as the only record, the answer is the text for
    no birthdays. *)
Example get_upcoming_birthdays_on_the_day :
  let now := mkdt 2024 3 15 10 30 0 0 in
  let born := mkdt 1990 3 15 0 0 0 0 in
  let book := [(py "Alice", Record.mk (py "Alice") [py "1234567890"] (Some born))] in
  AddressBook.get_upcoming_birthdays true now book
  = (Ok (AddressBook.Text AddressBook.no_upcoming), book).
Proof. reflexivity. Qed.

(** The day after is reported, moved from Saturday 16 March 2024 to
    Monday. *)
Example get_upcoming_birthdays_next_day :
  let now := mkdt 2024 3 15 10 30 0 0 in
  let born := mkdt 1990 3 16 0 0 0 0 in
  let book := [(py "Alice", Record.mk (py "Alice") [py "1234567890"] (Some born))] in
  AddressBook.get_upcoming_birthdays true now book
  = (Ok (AddressBook.Entries [AddressBook.mk_entry (py "Alice") (py "18.03.2024")]),
     book).
Proof. reflexivity. Qed.

(** ** Parsing and formatting a birthday *)

Ltac digit_cases x :=
  let H := fresh "Hd" in
  assert (H : x = 0 \/ x = 1 \/ x = 2 \/ x = 3 \/ x = 4 \/ x = 5 \/ x = 6
              \/ x = 7 \/ x = 8 \/ x = 9) by lia;
  repeat (destruct H as [H|H]; [subst x|]); [..|subst x].

Lemma isdecimal_ascii x : 0 <= x <= 9 -> Unicode.isdecimal_char (48 + x) = true.
Proof. intros H. digit_cases x; reflexivity. Qed.

Lemma decimal_value_ascii x :
  0 <= x <= 9 -> Unicode.decimal_value (48 + x) = Some x.
Proof. intros H. digit_cases x; reflexivity. Qed.

Lemma py_int_two a b :
  0 <= a <= 9 -> 0 <= b <= 9 -> py_int [48 + a; 48 + b] = Some (10 * a + b).
Proof.
  intros Ha Hb. unfold py_int.
  destruct (Z.eqb_spec (48 + a) 32); [lia|]. cbn [andb int_digits].
  rewrite (decimal_value_ascii a), (decimal_value_ascii b) by assumption.
  f_equal; lia.
Qed.

Lemma py_int_four e f g h :
  0 <= e <= 9 -> 0 <= f <= 9 -> 0 <= g <= 9 -> 0 <= h <= 9 ->
  py_int [48 + e; 48 + f; 48 + g; 48 + h]
  = Some (1000 * e + 100 * f + 10 * g + h).
Proof.
  intros He Hf Hg Hh. unfold py_int.
  destruct (Z.eqb_spec (48 + e) 32); [lia|]. cbn [andb int_digits].
  rewrite (decimal_value_ascii e), (decimal_value_ascii f),
    (decimal_value_ascii g), (decimal_value_ascii h) by assumption.
  f_equal; lia.
Qed.

Lemma re_d_two_digits {A : Type} a b rest (k : pystr -> pystr -> option A) v :
  0 <= a <= 9 -> 0 <= b <= 9 -> 1 <= 10 * a + b <= 31 ->
  k [48 + a; 48 + b] rest = Some v ->
  re_d (48 + a :: 48 + b :: rest) k = Some v.
Proof.
  intros Ha Hb Hv. unfold re_d, two, one.
  digit_cases a; try lia; digit_cases b; try lia;
    intros K; vm_compute in K |- *; rewrite K; reflexivity.
Qed.

Lemma re_m_two_digits {A : Type} c d rest (k : pystr -> pystr -> option A) v :
  0 <= c <= 9 -> 0 <= d <= 9 -> 1 <= 10 * c + d <= 12 ->
  k [48 + c; 48 + d] rest = Some v ->
  re_m (48 + c :: 48 + d :: rest) k = Some v.
Proof.
  intros Hc Hd Hv. unfold re_m, two, one.
  digit_cases c; try lia; digit_cases d; try lia;
    intros K; vm_compute in K |- *; rewrite K; reflexivity.
Qed.

Lemma re_match_strict a b c d e f g h :
  0 <= a <= 9 -> 0 <= b <= 9 -> 0 <= c <= 9 -> 0 <= d <= 9 ->
  0 <= e <= 9 -> 0 <= f <= 9 -> 0 <= g <= 9 -> 0 <= h <= 9 ->
  1 <= 10 * a + b <= 31 -> 1 <= 10 * c + d <= 12 ->
  re_match (dmY_text a b c d e f g h)
  = Some ([48 + a; 48 + b], [48 + c; 48 + d],
          [48 + e; 48 + f; 48 + g; 48 + h], []).
Proof.
  intros Ha Hb Hc Hd He Hf Hg Hh Hday Hmonth.
  unfold re_match, dmY_text.
  apply re_d_two_digits; try assumption.
  cbv beta. unfold re_dot at 1. rewrite Z.eqb_refl.
  apply re_m_two_digits; try assumption.
  cbv beta. unfold re_dot at 1. rewrite Z.eqb_refl.
  unfold re_Y.
  rewrite (isdecimal_ascii e), (isdecimal_ascii f), (isdecimal_ascii g),
    (isdecimal_ascii h) by assumption.
  reflexivity.
Qed.

Lemma strptime_strict a b c d e f g h :
  0 <= a <= 9 -> 0 <= b <= 9 -> 0 <= c <= 9 -> 0 <= d <= 9 ->
  0 <= e <= 9 -> 0 <= f <= 9 -> 0 <= g <= 9 -> 0 <= h <= 9 ->
  valid_date (1000 * e + 100 * f + 10 * g + h) (10 * c + d) (10 * a + b) = true ->
  strptime_dmY (dmY_text a b c d e f g h)
  = Ok (mkdt (1000 * e + 100 * f + 10 * g + h) (10 * c + d) (10 * a + b)
             0 0 0 0).
Proof.
  intros Ha Hb Hc Hd He Hf Hg Hh V.
  pose proof V as V'. apply valid_date_iff in V'. destruct V' as (Vy & Vm & Vd).
  pose proof (days_in_month_pos (1000 * e + 100 * f + 10 * g + h) (10 * c + d) Vm).
  unfold strptime_dmY. rewrite re_match_strict by (assumption || lia).
  cbn [truthy]. rewrite py_int_four, !py_int_two by assumption.
  now rewrite V.
Qed.

Lemma pad2_digits a b :
  0 <= a <= 9 -> 0 <= b <= 9 -> pad2 (10 * a + b) = [48 + a; 48 + b].
Proof.
  intros Ha Hb. unfold pad2, digit_char.
  assert ((10 * a + b) / 10 = a) as -> by (Z.div_mod_to_equations; lia).
  assert ((10 * a + b) mod 10 = b) as -> by (Z.div_mod_to_equations; lia).
  reflexivity.
Qed.

Lemma pad4_digits e f g h :
  0 <= e <= 9 -> 0 <= f <= 9 -> 0 <= g <= 9 -> 0 <= h <= 9 ->
  pad4 (1000 * e + 100 * f + 10 * g + h) = [48 + e; 48 + f; 48 + g; 48 + h].
Proof.
  intros He Hf Hg Hh. unfold pad4, digit_char.
  set (y := 1000 * e + 100 * f + 10 * g + h).
  assert (y / 1000 = e) as -> by (subst y; Z.div_mod_to_equations; lia).
  assert (y / 100 = 10 * e + f) as -> by (subst y; Z.div_mod_to_equations; lia).
  assert (y / 10 = 10 * (10 * e + f) + g) as ->
    by (subst y; Z.div_mod_to_equations; lia).
  assert ((10 * e + f) mod 10 = f) as -> by (Z.div_mod_to_equations; lia).
  assert ((10 * (10 * e + f) + g) mod 10 = g) as ->
    by (Z.div_mod_to_equations; lia).
  assert (y mod 10 = h) as -> by (subst y; Z.div_mod_to_equations; lia).
  reflexivity.
Qed.

Lemma strftime_strict zero_pad a b c d e f g h :
  0 <= a <= 9 -> 0 <= b <= 9 -> 0 <= c <= 9 -> 0 <= d <= 9 ->
  0 <= e <= 9 -> 0 <= f <= 9 -> 0 <= g <= 9 -> 0 <= h <= 9 ->
  zero_pad = true \/ 1 <= e ->
  strftime_dmY zero_pad
    (mkdt (1000 * e + 100 * f + 10 * g + h) (10 * c + d) (10 * a + b) 0 0 0 0)
  = dmY_text a b c d e f g h.
Proof.
  intros Ha Hb Hc Hd He Hf Hg Hh P.
  unfold strftime_dmY, format_Y. cbn [year month day].
  rewrite !pad2_digits, pad4_digits by assumption.
  destruct zero_pad; [reflexivity|].
  destruct P as [P|P]; [discriminate|].
  cbn [strip_zeros]. destruct (Z.eqb_spec (48 + e) 48); [lia | reflexivity].
Qed.

Lemma strict_is_text s :
  is_DD_MM_YYYY s = true ->
  exists a b c d e f g h,
    s = dmY_text a b c d e f g h
    /\ 0 <= a <= 9 /\ 0 <= b <= 9 /\ 0 <= c <= 9 /\ 0 <= d <= 9
    /\ 0 <= e <= 9 /\ 0 <= f <= 9 /\ 0 <= g <= 9 /\ 0 <= h <= 9.
Proof.
  unfold is_DD_MM_YYYY.
  destruct s as [|d1 [|d2 [|p1 [|m1 [|m2 [|p2 [|y1 [|y2 [|y3 [|y4 [|]]]]]]]]]]];
    try discriminate.
  cbn [forallb]. unfold Unicode.is_ascii_digit, Unicode.in_range.
  rewrite !andb_true_iff, !Z.leb_le, !Z.eqb_eq. intros H.
  exists (d1 - 48), (d2 - 48), (m1 - 48), (m2 - 48),
    (y1 - 48), (y2 - 48), (y3 - 48), (y4 - 48).
  split; [|lia]. unfold dmY_text.
  repeat (f_equal; try lia).
Qed.

Lemma dmY_fields_text a b c d e f g h :
  dmY_fields (dmY_text a b c d e f g h)
  = Some (1000 * e + 100 * f + 10 * g + h, 10 * c + d, 10 * a + b).
Proof. unfold dmY_fields, dmY_text. repeat (f_equal; try lia). Qed.

Lemma strptime_error s e : strptime_dmY s = Raise e -> e = ValueError LibMsg.
Proof.
  unfold strptime_dmY.
  destruct (re_match s) as [[[[d m] y] rest]|]; [|congruence].
  destruct (truthy rest); [congruence|].
  destruct (py_int y), (py_int m), (py_int d); try congruence.
  destruct (valid_date _ _ _); congruence.
Qed.

Lemma strptime_ok s t :
  strptime_dmY s = Ok t ->
  valid_date (year t) (month t) (day t) = true
  /\ t = mkdt (year t) (month t) (day t) 0 0 0 0.
Proof.
  unfold strptime_dmY.
  destruct (re_match s) as [[[[d m] y] rest]|]; [|discriminate].
  destruct (truthy rest); [discriminate|].
  destruct (py_int y), (py_int m), (py_int d); try discriminate.
  destruct (valid_date _ _ _) eqn:V; [|discriminate].
  intros H. injection H as <-. auto.
Qed.

Lemma str_to_datetime_error s e :
  Birthday.str_to_datetime s = Raise e ->
  e = ValueError (Msg Birthday.invalid_date_format).
Proof.
  unfold Birthday.str_to_datetime.
  destruct (strptime_dmY s) as [t|e'] eqn:P; [discriminate|].
  apply strptime_error in P. subst e'. congruence.
Qed.

Lemma str_to_datetime_ok s t :
  Birthday.str_to_datetime s = Ok t <-> strptime_dmY s = Ok t.
Proof.
  unfold Birthday.str_to_datetime.
  destruct (strptime_dmY s) as [t'|[]]; split; congruence.
Qed.

(** Formatting a parsed date gives the strict, zero-padded text of that
    date, which parses to the same date. *)
Lemma strftime_canonical s t :
  strptime_dmY s = Ok t ->
  is_DD_MM_YYYY (strftime_dmY true t) = true
  /\ strptime_dmY (strftime_dmY true t) = Ok t.
Proof.
  intros P. destruct (strptime_ok _ _ P) as [V E].
  set (y := year t) in *. set (m := month t) in *. set (d := day t) in *.
  pose proof V as V'. apply valid_date_iff in V'. destruct V' as (Vy & Vm & Vd).
  pose proof (days_in_month_pos y m Vm) as Dm.
  assert (F : strftime_dmY true t
              = dmY_text (d / 10) (d mod 10) (m / 10) (m mod 10)
                  (y / 1000) (y / 100 mod 10) (y / 10 mod 10) (y mod 10))
    by reflexivity.
  assert (Ey : 1000 * (y / 1000) + 100 * (y / 100 mod 10)
               + 10 * (y / 10 mod 10) + y mod 10 = y)
    by (Z.div_mod_to_equations; lia).
  assert (Em : 10 * (m / 10) + m mod 10 = m) by (Z.div_mod_to_equations; lia).
  assert (Ed : 10 * (d / 10) + d mod 10 = d) by (Z.div_mod_to_equations; lia).
  assert (R : 0 <= d / 10 <= 9 /\ 0 <= d mod 10 <= 9
              /\ 0 <= m / 10 <= 9 /\ 0 <= m mod 10 <= 9
              /\ 0 <= y / 1000 <= 9 /\ 0 <= y / 100 mod 10 <= 9
              /\ 0 <= y / 10 mod 10 <= 9 /\ 0 <= y mod 10 <= 9)
    by (Z.div_mod_to_equations; lia).
  destruct R as (R1 & R2 & R3 & R4 & R5 & R6 & R7 & R8).
  rewrite F. split.
  - unfold is_DD_MM_YYYY, dmY_text. cbn [forallb].
    unfold Unicode.is_ascii_digit, Unicode.in_range.
    rewrite !andb_true_iff, !Z.leb_le, !Z.eqb_eq. lia.
  - rewrite strptime_strict; try assumption.
    + rewrite Ey, Em, Ed. f_equal. symmetry. exact E.
    + rewrite Ey, Em, Ed. exact V.
Qed.

(** *** The texts that parse *)

Lemma in_range_iff lo hi c : Unicode.in_range lo hi c = true <-> lo <= c <= hi.
Proof. unfold Unicode.in_range. rewrite andb_true_iff, !Z.leb_le. tauto. Qed.

Lemma existsb_find {A : Type} (f : A -> bool) l :
  existsb f l = true <-> exists r, find f l = Some r.
Proof.
  induction l as [|x l IH]; simpl.
  - split; [discriminate | intros [r H]; discriminate].
  - destruct (f x); simpl; [split; eauto | exact IH].
Qed.

Lemma isdecimal_value c :
  Unicode.isdecimal_char c = true <-> exists w, Unicode.decimal_value c = Some w.
Proof.
  unfold Unicode.isdecimal_char, Unicode.in_ranges, Unicode.decimal_value.
  rewrite existsb_find. split.
  - intros [r ->]. eauto.
  - intros [w H]. destruct (find _ Unicode.decimal_runs) as [r|]; [eauto|].
    discriminate.
Qed.

Lemma two_hit {A : Type} p q a b r (k : pystr -> pystr -> option A) :
  p a = true -> q b = true -> two p q (a :: b :: r) k = k [a; b] r.
Proof. intros Pa Qb. unfold two. now rewrite Pa, Qb. Qed.

Lemma two_miss_first {A : Type} p q a s (k : pystr -> pystr -> option A) :
  p a = false -> two p q (a :: s) k = None.
Proof. intros Pa. unfold two. destruct s; [reflexivity|]. now rewrite Pa. Qed.

Lemma two_miss_second {A : Type} p q a b r (k : pystr -> pystr -> option A) :
  q b = false -> two p q (a :: b :: r) k = None.
Proof. intros Qb. unfold two. rewrite Qb. now rewrite andb_false_r. Qed.

Lemma one_hit {A : Type} p a r (k : pystr -> pystr -> option A) :
  p a = true -> one p (a :: r) k = k [a] r.
Proof. intros Pa. unfold one. now rewrite Pa. Qed.

Lemma one_miss {A : Type} p a r (k : pystr -> pystr -> option A) :
  p a = false -> one p (a :: r) k = None.
Proof. intros Pa. unfold one. now rewrite Pa. Qed.

Ltac nine_cases b :=
  let H := fresh "Hb" in
  assert (H : b = 49 \/ b = 50 \/ b = 51 \/ b = 52 \/ b = 53 \/ b = 54
              \/ b = 55 \/ b = 56 \/ b = 57) by lia;
  repeat (destruct H as [H|H]; [subst b|]); [..|subst b].

Lemma day_text_int d dv : day_text d dv -> py_int d = Some dv.
Proof.
  intros [b H|a b w Ha Hw|b H|b H|b H].
  - assert (C : b = 48 \/ b = 49) by lia. destruct C; subst b; reflexivity.
  - assert (C : a = 49 \/ a = 50) by lia.
    destruct C; subst a; unfold py_int; cbn [andb Z.eqb Pos.eqb int_digits].
    + change (Unicode.decimal_value 49) with (Some 1). now rewrite Hw.
    + change (Unicode.decimal_value 50) with (Some 2). now rewrite Hw.
  - nine_cases b; reflexivity.
  - nine_cases b; reflexivity.
  - nine_cases b; reflexivity.
Qed.

Lemma month_text_int m mv : month_text m mv -> py_int m = Some mv.
Proof.
  intros [b H|b H|b H].
  - assert (C : b = 48 \/ b = 49 \/ b = 50) by lia.
    destruct C as [C|[C|C]]; subst b; reflexivity.
  - nine_cases b; reflexivity.
  - nine_cases b; reflexivity.
Qed.

Lemma decimal_value_not_blank c w : Unicode.decimal_value c = Some w -> c <> 32.
Proof. intros H ->. discriminate H. Qed.

Lemma year_text_int y yv : year_text y yv -> py_int y = Some yv.
Proof.
  intros [a b c d wa wb wc wd Ha Hb Hc Hd]. unfold py_int.
  destruct (Z.eqb_spec a 32) as [E|_];
    [now apply decimal_value_not_blank in Ha|].
  cbn [andb int_digits]. rewrite Ha, Hb, Hc, Hd. f_equal. lia.
Qed.

Lemma re_d_inv {A : Type} s (k : pystr -> pystr -> option A) v :
  re_d s k = Some v ->
  exists d r dv, s = d ++ r /\ day_text d dv /\ k d r = Some v.
Proof.
  unfold re_d. intros H.
  apply orelse_some in H. destruct H as [H|H].
  { apply two_some in H. destruct H as (a & b & r & -> & Pa & Qb & H).
    apply Z.eqb_eq in Pa. subst a. apply in_range_iff in Qb.
    exists [51; b], r, (30 + (b - 48)). split; [reflexivity|].
    split; [now constructor | exact H]. }
  apply orelse_some in H. destruct H as [H|H].
  { apply two_some in H. destruct H as (a & b & r & -> & Pa & Qb & H).
    apply in_range_iff in Pa. apply isdecimal_value in Qb. destruct Qb as [w Hw].
    exists [a; b], r, (10 * (a - 48) + w). split; [reflexivity|].
    split; [now constructor | exact H]. }
  apply orelse_some in H. destruct H as [H|H].
  { apply two_some in H. destruct H as (a & b & r & -> & Pa & Qb & H).
    apply Z.eqb_eq in Pa. subst a. apply in_range_iff in Qb.
    exists [48; b], r, (b - 48). split; [reflexivity|].
    split; [now constructor | exact H]. }
  apply orelse_some in H. destruct H as [H|H].
  { apply one_some in H. destruct H as (b & r & -> & Pb & H).
    apply in_range_iff in Pb.
    exists [b], r, (b - 48). split; [reflexivity|].
    split; [now constructor | exact H]. }
  apply two_some in H. destruct H as (a & b & r & -> & Pa & Qb & H).
  apply Z.eqb_eq in Pa. subst a. apply in_range_iff in Qb.
  exists [32; b], r, (b - 48). split; [reflexivity|].
  split; [now constructor | exact H].
Qed.

Lemma re_m_inv {A : Type} s (k : pystr -> pystr -> option A) v :
  re_m s k = Some v ->
  exists m r mv, s = m ++ r /\ month_text m mv /\ k m r = Some v.
Proof.
  unfold re_m. intros H.
  apply orelse_some in H. destruct H as [H|H].
  { apply two_some in H. destruct H as (a & b & r & -> & Pa & Qb & H).
    apply Z.eqb_eq in Pa. subst a. apply in_range_iff in Qb.
    exists [49; b], r, (10 + (b - 48)). split; [reflexivity|].
    split; [now constructor | exact H]. }
  apply orelse_some in H. destruct H as [H|H].
  { apply two_some in H. destruct H as (a & b & r & -> & Pa & Qb & H).
    apply Z.eqb_eq in Pa. subst a. apply in_range_iff in Qb.
    exists [48; b], r, (b - 48). split; [reflexivity|].
    split; [now constructor | exact H]. }
  apply one_some in H. destruct H as (b & r & -> & Pb & H).
  apply in_range_iff in Pb.
  exists [b], r, (b - 48). split; [reflexivity|].
  split; [now constructor | exact H].
Qed.

Lemma re_Y_inv {A : Type} s (k : pystr -> pystr -> option A) v :
  re_Y s k = Some v ->
  exists y r yv, s = y ++ r /\ year_text y yv /\ k y r = Some v.
Proof.
  unfold re_Y. destruct s as [|a [|b [|c [|d r]]]]; try discriminate.
  destruct (Unicode.isdecimal_char a) eqn:Ha; [|discriminate].
  destruct (Unicode.isdecimal_char b) eqn:Hb; [|discriminate].
  destruct (Unicode.isdecimal_char c) eqn:Hc; [|discriminate].
  destruct (Unicode.isdecimal_char d) eqn:Hd; [|discriminate].
  cbn [andb]. intros H.
  apply isdecimal_value in Ha, Hb, Hc, Hd.
  destruct Ha as [wa Ha], Hb as [wb Hb], Hc as [wc Hc], Hd as [wd Hd].
  exists [a; b; c; d], r, (1000 * wa + 100 * wb + 10 * wc + wd).
  split; [reflexivity|]. split; [now constructor | exact H].
Qed.

Lemma orelse_hit {A : Type} (a b : option A) v :
  a = Some v -> orelse a b = Some v.
Proof. now intros ->. Qed.

Lemma re_d_complete {A : Type} d dv r (k : pystr -> pystr -> option A) v :
  day_text d dv -> k d (46 :: r) = Some v -> re_d (d ++ 46 :: r) k = Some v.
Proof.
  intros [b H|a b w Ha Hw|b H|b H|b H] K; cbn [app]; unfold re_d.
  - rewrite (two_hit (Z.eqb 51)) by (reflexivity || now apply in_range_iff).
    apply orelse_hit. exact K.
  - rewrite (two_miss_first (Z.eqb 51)) by (apply Z.eqb_neq; lia).
    cbn [orelse].
    rewrite (two_hit (Unicode.in_range 49 50))
      by (now apply in_range_iff || (apply isdecimal_value; eauto)).
    apply orelse_hit. exact K.
  - rewrite (two_miss_first (Z.eqb 51)) by reflexivity. cbn [orelse].
    rewrite (two_miss_first (Unicode.in_range 49 50)) by reflexivity.
    cbn [orelse].
    rewrite (two_hit (Z.eqb 48)) by (reflexivity || now apply in_range_iff).
    apply orelse_hit. exact K.
  - rewrite (two_miss_second (Z.eqb 51)) by reflexivity. cbn [orelse].
    rewrite (two_miss_second (Unicode.in_range 49 50)) by reflexivity.
    cbn [orelse].
    rewrite (two_miss_second (Z.eqb 48)) by reflexivity. cbn [orelse].
    rewrite (one_hit (Unicode.in_range 49 57)) by now apply in_range_iff.
    apply orelse_hit. exact K.
  - rewrite (two_miss_first (Z.eqb 51)) by reflexivity. cbn [orelse].
    rewrite (two_miss_first (Unicode.in_range 49 50)) by reflexivity.
    cbn [orelse].
    rewrite (two_miss_first (Z.eqb 48)) by reflexivity. cbn [orelse].
    rewrite (one_miss (Unicode.in_range 49 57)) by reflexivity. cbn [orelse].
    rewrite (two_hit (Z.eqb 32)) by (reflexivity || now apply in_range_iff).
    exact K.
Qed.

Lemma re_m_complete {A : Type} m mv r (k : pystr -> pystr -> option A) v :
  month_text m mv -> k m (46 :: r) = Some v -> re_m (m ++ 46 :: r) k = Some v.
Proof.
  intros [b H|b H|b H] K; cbn [app]; unfold re_m.
  - rewrite (two_hit (Z.eqb 49)) by (reflexivity || now apply in_range_iff).
    apply orelse_hit. exact K.
  - rewrite (two_miss_first (Z.eqb 49)) by reflexivity. cbn [orelse].
    rewrite (two_hit (Z.eqb 48)) by (reflexivity || now apply in_range_iff).
    apply orelse_hit. exact K.
  - rewrite (two_miss_second (Z.eqb 49)) by reflexivity. cbn [orelse].
    rewrite (two_miss_second (Z.eqb 48)) by reflexivity. cbn [orelse].
    rewrite (one_hit (Unicode.in_range 49 57)) by now apply in_range_iff.
    exact K.
Qed.

Lemma re_Y_complete {A : Type} y yv r (k : pystr -> pystr -> option A) :
  year_text y yv -> re_Y (y ++ r) k = k y r.
Proof.
  intros [a b c d wa wb wc wd Ha Hb Hc Hd]. cbn [app]. unfold re_Y.
  assert (Da : Unicode.isdecimal_char a = true) by (apply isdecimal_value; eauto).
  assert (Db : Unicode.isdecimal_char b = true) by (apply isdecimal_value; eauto).
  assert (Dc : Unicode.isdecimal_char c = true) by (apply isdecimal_value; eauto).
  assert (Dd : Unicode.isdecimal_char d = true) by (apply isdecimal_value; eauto).
  now rewrite Da, Db, Dc, Dd.
Qed.

(** [strptime] succeeds exactly on the texts described by
    [lenient_date], with the date they name. *)
Lemma strptime_lenient s t : strptime_dmY s = Ok t <-> lenient_date s t.
Proof.
  unfold strptime_dmY, lenient_date. split.
  - destruct (re_match s) as [[[[d m] y] rest]|] eqn:R; [|discriminate].
    unfold re_match in R.
    apply re_d_inv in R. destruct R as (d0 & r0 & dv & -> & Td & R).
    apply re_dot_some in R. destruct R as (r1 & -> & R).
    apply re_m_inv in R. destruct R as (m0 & r2 & mv & -> & Tm & R).
    apply re_dot_some in R. destruct R as (r3 & -> & R).
    apply re_Y_inv in R. destruct R as (y0 & r4 & yv & -> & Ty & R).
    injection R as <- <- <- <-.
    destruct r4 as [|c r4]; cbn [truthy]; [|discriminate].
    rewrite (year_text_int _ _ Ty), (month_text_int _ _ Tm),
      (day_text_int _ _ Td).
    destruct (valid_date yv mv dv) eqn:V; [|discriminate].
    intros H. injection H as <-.
    exists d0, m0, y0, dv, mv, yv. rewrite app_nil_r. repeat split; assumption.
  - intros (d & m & y & dv & mv & yv & -> & Td & Tm & Ty & V & ->).
    assert (R : re_match (d ++ [46] ++ m ++ [46] ++ y) = Some (d, m, y, [])).
    { unfold re_match. cbn [app].
      apply (re_d_complete d dv); [assumption|].
      unfold re_dot at 1. rewrite Z.eqb_refl.
      apply (re_m_complete m mv); [assumption|].
      unfold re_dot at 1. rewrite Z.eqb_refl.
      rewrite <- (app_nil_r y) at 1.
      now rewrite (re_Y_complete y yv). }
    rewrite R. cbn [truthy].
    rewrite (year_text_int _ _ Ty), (month_text_int _ _ Tm),
      (day_text_int _ _ Td).
    now rewrite V.
Qed.

Lemma format_Y_from_1000 y :
  1000 <= y <= 9999 -> format_Y false y = format_Y true y.
Proof.
  intros H. unfold format_Y, pad4. cbn [strip_zeros].
  destruct (Z.eqb_spec (digit_char (y / 1000)) 48) as [E|_]; [|reflexivity].
  unfold digit_char in E. exfalso. Z.div_mod_to_equations. lia.
Qed.

Lemma strftime_canonical_any zero_pad s t :
  strptime_dmY s = Ok t ->
  zero_pad = true \/ 1000 <= year t ->
  is_DD_MM_YYYY (strftime_dmY zero_pad t) = true
  /\ strptime_dmY (strftime_dmY zero_pad t) = Ok t.
Proof.
  intros P C.
  assert (E : strftime_dmY zero_pad t = strftime_dmY true t).
  { destruct zero_pad; [reflexivity|]. destruct C as [C|C]; [discriminate|].
    destruct (strptime_ok _ _ P) as [V _]. apply valid_date_iff in V.
    unfold strftime_dmY. rewrite format_Y_from_1000 by lia. reflexivity. }
  rewrite E. eapply strftime_canonical. eassumption.
Qed.

(** C7, as the code has it.  A text [s] of the strict shape DD.MM.YYYY
    that names a date of the calendar (year 1 to 9999) parses to that
    date, and formatting the date gives [s] again, on a platform that
    pads the year to four digits, and on any platform from year 1000
    on.  The texts that parse are exactly those made of a day, a dot, a
    month, a dot and a year that name a date of the calendar, where the
    day is 01 to 31 (after a 1 or a 2 any decimal digit), or 1 to 9
    alone or after a blank, the month is 01 to 12 or 1 to 9 alone, and
    the year is four decimal digits; every other text fails, with the
    [ValueError] of the date format and no other exception.  A text
    that parses formats (with the year padded, or from year 1000 on) to
    a text of the strict shape that parses to the same date. *)
Theorem Birthday_parse_roundtrip (s : pystr) (y m d : Z) :
  is_DD_MM_YYYY s = true ->
  dmY_fields s = Some (y, m, d) ->
  valid_date y m d = true ->
  Birthday.str_to_datetime s = Ok (mkdt y m d 0 0 0 0)
  /\ strftime_dmY true (mkdt y m d 0 0 0 0) = s
  /\ (1000 <= y -> strftime_dmY false (mkdt y m d 0 0 0 0) = s)
  /\ (forall s' t, Birthday.str_to_datetime s' = Ok t <-> lenient_date s' t)
  /\ (forall s', (forall t, ~ lenient_date s' t) ->
                 Birthday.str_to_datetime s'
                 = Raise (ValueError (Msg Birthday.invalid_date_format)))
  /\ (forall s' e, Birthday.str_to_datetime s' = Raise e ->
                   e = ValueError (Msg Birthday.invalid_date_format))
  /\ (forall zero_pad s' t,
        Birthday.str_to_datetime s' = Ok t ->
        zero_pad = true \/ 1000 <= year t ->
        is_DD_MM_YYYY (strftime_dmY zero_pad t) = true
        /\ Birthday.str_to_datetime (strftime_dmY zero_pad t) = Ok t).
Proof.
  intros S F V.
  destruct (strict_is_text s S)
    as (a & b & c & d' & e & f & g & h & -> & Ha & Hb & Hc & Hd & He & Hf & Hg & Hh).
  rewrite dmY_fields_text in F.
  assert (Ey : y = 1000 * e + 100 * f + 10 * g + h) by congruence.
  assert (Em : m = 10 * c + d') by congruence.
  assert (Ed : d = 10 * a + b) by congruence.
  subst y m d. clear F.
  split; [|split; [|split; [|split; [|split; [|split]]]]].
  - apply str_to_datetime_ok. now apply strptime_strict.
  - apply strftime_strict; auto.
  - intros Y. apply strftime_strict; auto. right. lia.
  - intros s' t. rewrite str_to_datetime_ok. apply strptime_lenient.
  - intros s' N.
    destruct (Birthday.str_to_datetime s') as [t|x] eqn:P.
    + apply str_to_datetime_ok, strptime_lenient in P. now destruct (N t).
    + now rewrite (str_to_datetime_error _ _ P).
  - apply str_to_datetime_error.
  - intros zero_pad s' t P C. apply str_to_datetime_ok in P.
    destruct (strftime_canonical_any zero_pad _ _ P C) as [C1 C2].
    split; [exact C1|]. now apply str_to_datetime_ok.
Qed.

Lemma Birthday_parse_roundtrip_witness :
  is_DD_MM_YYYY (py "29.02.2024") = true
  /\ Birthday.str_to_datetime (py "29.02.2024") = Ok (mkdt 2024 2 29 0 0 0 0)
  /\ strftime_dmY true (mkdt 2024 2 29 0 0 0 0) = py "29.02.2024"
  /\ Birthday.str_to_datetime (py "29/02/2024")
     = Raise (ValueError (Msg Birthday.invalid_date_format))
  /\ lenient_date (py "1.1.2000") (mkdt 2000 1 1 0 0 0 0).
Proof.
  split; [reflexivity|].
  pose proof (Birthday_parse_roundtrip (py "29.02.2024") 2024 2 29
                eq_refl eq_refl eq_refl) as (P & F & _ & L & N & _).
  split; [exact P|]. split; [exact F|]. split.
  - apply N. intros t (d & m & y & dv & mv & yv & E & Td & Tm & _).
    destruct Td; destruct Tm; discriminate E.
  - apply L. reflexivity.
Defined.

(** C7, counterexample: the text 1.1.2000 is not of the shape
    DD.MM.YYYY, yet it parses (to 1 January 2000), and formatting the
    date gives 01.01.2000, another text.  Where the C library does not
    pad the year, the text 01.01.0999, of the strict shape, parses and
    formats to 01.01.999. *)
Lemma Birthday_parse_accepts_short_fields :
  is_DD_MM_YYYY (py "1.1.2000") = false
  /\ Birthday.str_to_datetime (py "1.1.2000") = Ok (mkdt 2000 1 1 0 0 0 0)
  /\ strftime_dmY true (mkdt 2000 1 1 0 0 0 0) = py "01.01.2000"
  /\ py "01.01.2000" <> py "1.1.2000"
  /\ is_DD_MM_YYYY (py "01.01.0999") = true
  /\ Birthday.str_to_datetime (py "01.01.0999") = Ok (mkdt 999 1 1 0 0 0 0)
  /\ strftime_dmY false (mkdt 999 1 1 0 0 0 0) = py "01.01.999".
Proof. repeat split. discriminate. Qed.

(** ** Worked examples *)

Example strptime_zero_padded :
  strptime_dmY (py "15.03.1990") = Ok (mkdt 1990 3 15 0 0 0 0).
Proof. reflexivity. Qed.

Example strptime_blank_padded_day :
  strptime_dmY (py " 1.1.2000") = Ok (mkdt 2000 1 1 0 0 0 0).
Proof. reflexivity. Qed.

Example strptime_no_such_day :
  strptime_dmY (py "31.02.2000") = Raise (ValueError LibMsg).
Proof. reflexivity. Qed.

Example strptime_text_left_over :
  strptime_dmY (py "01.01.20000") = Raise (ValueError LibMsg).
Proof. reflexivity. Qed.

Example strptime_year_zero :
  strptime_dmY (py "01.01.0000") = Raise (ValueError LibMsg).
Proof. reflexivity. Qed.

Example strptime_arabic_indic_digits :
  strptime_dmY ([49; 0x0665] ++ py ".01." ++ [0x0662; 0x0660; 0x0660; 0x0660])
  = Ok (mkdt 2000 1 15 0 0 0 0).
Proof. reflexivity. Qed.

Example weekday_of_last_day : weekday (mkdt 9999 12 31 0 0 0 0) = 4.
Proof. reflexivity. Qed.

Example timedelta_over_new_year :
  timedelta_add (mkdt 2023 12 28 1 2 3 4) 7 = Ok (mkdt 2024 1 4 1 2 3 4).
Proof. reflexivity. Qed.

Example upcoming_over_new_year :
  let now := mkdt 2023 12 30 9 0 0 0 in
  let alice := Record.mk (py "Alice") [py "1234567890"] (Some (mkdt 1990 1 1 0 0 0 0)) in
  AddressBook.get_upcoming_birthdays true now [(py "Alice", alice)]
  = (Ok (AddressBook.Entries [AddressBook.mk_entry (py "Alice") (py "01.01.2024")]),
     [(py "Alice", alice)]).
Proof. reflexivity. Qed.

Example upcoming_leap_day_raises :
  let now := mkdt 2023 3 1 9 0 0 0 in
  let alice := Record.mk (py "Alice") [] (Some (mkdt 2000 2 29 0 0 0 0)) in
  AddressBook.get_upcoming_birthdays true now [(py "Alice", alice)]
  = (Raise (ValueError LibMsg), [(py "Alice", alice)]).
Proof. reflexivity. Qed.

Example change_contact_edits_phone_only :
  let alice := Record.mk (py "Alice") [py "1234567890"] None in
  change_contact [py "Alice"; py "1234567890"; py "0987654321"; py "15.03.1990"]
    [(py "Alice", alice)]
  = (Ok (py "Contact Alice updated successfully."),
     [(py "Alice", Record.mk (py "Alice") [py "0987654321"] None)]).
Proof. reflexivity. Qed.

Example change_contact_three_arguments :
  let alice := Record.mk (py "Alice") [py "1234567890"] None in
  change_contact [py "Alice"; py "1234567890"; py "0987654321"]
    [(py "Alice", alice)]
  = (Ok (py "Give me name and phone, please."),
     [(py "Alice", Record.mk (py "Alice") [py "0987654321"] None)]).
Proof. reflexivity. Qed.

Example add_birthday_sets_date :
  let alice := Record.mk (py "Alice") [] None in
  add_birthday [py "Alice"; py "15.03.1990"] [(py "Alice", alice)]
  = (Ok (py "Contact updated."),
     [(py "Alice", Record.mk (py "Alice") [] (Some (mkdt 1990 3 15 0 0 0 0)))]).
Proof. reflexivity. Qed.

(* ================================================================== *)
(** * Further properties of the code *)

(** ** Records and their phones *)

(** [Record(name)] succeeds exactly for a name of two characters or
    more, and gives a record with that name, no phones and no birthday;
    a shorter name, the empty one included, raises
    [NameValidationError]. *)
Theorem Record_init_spec (name : pystr) :
  Record.init name
  = if 2 <=? len name then Ok (Record.mk name [] None)
    else Raise (NameValidationError NameValidationError_default).
Proof.
  unfold Record.init, Name.init, Name.validate, rbind.
  destruct (Z.ltb_spec 1 (len name)), (Z.leb_spec 2 (len name));
    try reflexivity; lia.
Qed.

Lemma remove_first_some value l l' :
  Record.remove_first value l = Some l' ->
  exists l1 l2, l = l1 ++ value :: l2 /\ l' = l1 ++ l2 /\ ~ In value l1.
Proof.
  revert l'. induction l as [|phone l IH]; simpl; intros l'; [discriminate|].
  destruct (str_eqb phone value) eqn:E.
  - apply str_eqb_eq in E. subst phone. intros H. injection H as <-.
    exists [], l. simpl. auto.
  - apply str_eqb_neq in E.
    destruct (Record.remove_first value l) as [l0|]; [|discriminate].
    simpl. intros H. injection H as <-.
    destruct (IH l0 eq_refl) as (l1 & l2 & -> & -> & N).
    exists (phone :: l1), l2. simpl. intuition.
Qed.

Lemma remove_first_in value l :
  In value l -> exists l', Record.remove_first value l = Some l'.
Proof.
  induction l as [|phone l IH]; simpl; [tauto|].
  destruct (str_eqb phone value) eqn:E; [eauto|].
  apply str_eqb_neq in E. intros [H|H]; [congruence|].
  destruct (IH H) as [l' ->]. simpl. eauto.
Qed.

Lemma record_eta (self : Record.t) :
  Record.mk (Record.name self) (Record.phones self) (Record.birthday self)
  = self.
Proof. destruct self; reflexivity. Qed.

Lemma add_phone_text value self :
  Record.add_phone (VStr value) self
  = if (len value =? 10) && Unicode.isdigit value
    then (Ok tt, Record.mk (Record.name self) (Record.phones self ++ [value])
                   (Record.birthday self))
    else (Raise (PhoneValidationError PhoneValidationError_default), self).
Proof.
  unfold Record.add_phone, bind, lift, Phone.init. simpl.
  destruct ((len value =? 10) && Unicode.isdigit value); reflexivity.
Qed.

Lemma validate_true value :
  Phone.validate (VStr value) = Ok true ->
  (len value =? 10) && Unicode.isdigit value = true.
Proof. simpl. congruence. Qed.

(** No method of a record changes its name, and none lets a phone in
    that does not pass [Phone.validate]: if every phone of the record is
    valid before [add_phone] (with a text or with a [Phone] object),
    [remove_phone], [edit_phone] or [add_birthday], every phone is valid
    after it, whether the call returns or raises. *)
Theorem record_methods_keep_name_and_valid_phones (self : Record.t)
    (value : pyval) (old_value new_value string : pystr) :
  valid_phones self ->
  (valid_phones (snd (Record.add_phone value self))
   /\ Record.name (snd (Record.add_phone value self)) = Record.name self)
  /\ (valid_phones (snd (Record.remove_phone old_value self))
      /\ Record.name (snd (Record.remove_phone old_value self))
         = Record.name self)
  /\ (valid_phones (snd (Record.edit_phone old_value new_value self))
      /\ Record.name (snd (Record.edit_phone old_value new_value self))
         = Record.name self)
  /\ (valid_phones (snd (Record.add_birthday string self))
      /\ Record.name (snd (Record.add_birthday string self))
         = Record.name self).
Proof.
  intros V. unfold valid_phones in *.
  assert (R : forall v, valid_phones (snd (Record.remove_phone v self))
                        /\ Record.name (snd (Record.remove_phone v self))
                           = Record.name self).
  { intros v. unfold Record.remove_phone, valid_phones.
    destruct (Record.remove_first v (Record.phones self)) as [l|] eqn:E;
      simpl; [|auto].
    apply remove_first_some in E. destruct E as (l1 & l2 & E & -> & _).
    rewrite E in V. rewrite Forall_app in *. destruct V as [V1 V2].
    inversion V2; subst. auto. }
  split; [|split; [apply R|split]].
  - destruct value as [s|p].
    + rewrite add_phone_text.
      destruct ((len s =? 10) && Unicode.isdigit s) eqn:E; simpl; [|auto].
      split; [|reflexivity]. apply Forall_app. split; [assumption|].
      constructor; [|constructor]. simpl. now rewrite E.
    + simpl. auto.
  - unfold Record.edit_phone, bind at 1, lift. simpl.
    destruct ((len new_value =? 10) && Unicode.isdigit new_value) eqn:E;
      simpl; [|auto].
    unfold bind. destruct (R old_value) as [R1 R2].
    destruct (Record.remove_phone old_value self) as [[[]|e] self'] eqn:Q;
      simpl in R1, R2; [|auto].
    rewrite add_phone_text, E. simpl. split; [|assumption].
    apply Forall_app. split; [assumption|].
    constructor; [|constructor]. simpl. now rewrite E.
  - unfold Record.add_birthday, bind, lift.
    destruct (Birthday.init string); simpl; auto.
Qed.

Lemma record_methods_keep_name_and_valid_phones_witness :
  let self := Record.mk (py "Alice") [py "1234567890"] None in
  valid_phones self
  /\ valid_phones (snd (Record.edit_phone (py "1234567890") (py "0987654321") self))
  /\ valid_phones (snd (Record.add_phone (VStr (py "12")) self)).
Proof.
  intros self.
  assert (V : valid_phones self) by (repeat constructor).
  split; [exact V|].
  pose proof (record_methods_keep_name_and_valid_phones self (VStr (py "12"))
                (py "1234567890") (py "0987654321") (py "x") V)
    as ((A & _) & _ & (E & _) & _).
  split; [exact E | exact A].
Defined.

(** [find_phone] finds a phone exactly when the record has it: the
    answer is the phone with the value asked for when that value is in
    the list, and [None] when it is not. *)
Theorem find_phone_spec (self : Record.t) (value : pystr) :
  (Record.find_phone value self = Some value <-> In value (Record.phones self))
  /\ (Record.find_phone value self = None
      <-> ~ In value (Record.phones self)).
Proof.
  unfold Record.find_phone.
  induction (Record.phones self) as [|phone l IH]; simpl.
  - split; split; try tauto; discriminate.
  - destruct (str_eqb phone value) eqn:E.
    + apply str_eqb_eq in E. subst phone.
      split; split; auto; try discriminate. intros H. exfalso. auto.
    + apply str_eqb_neq in E. destruct IH as [IH1 IH2].
      rewrite IH1, IH2. split; split; tauto.
Qed.

(** [add_phone] with a valid text appends it at the end of the list,
    also when the record has that phone already (a second copy is
    kept), and [find_phone] finds it afterwards. *)
Theorem add_phone_appends (self : Record.t) (value : pystr) :
  Phone.validate (VStr value) = Ok true ->
  Record.add_phone (VStr value) self
  = (Ok tt, Record.mk (Record.name self) (Record.phones self ++ [value])
              (Record.birthday self))
  /\ Record.find_phone value (snd (Record.add_phone (VStr value) self))
     = Some value
  /\ count_occ (list_eq_dec Z.eq_dec)
       (Record.phones (snd (Record.add_phone (VStr value) self))) value
     = S (count_occ (list_eq_dec Z.eq_dec) (Record.phones self) value).
Proof.
  intros V. apply validate_true in V. rewrite add_phone_text, V. simpl.
  split; [reflexivity|]. split.
  - apply find_phone_spec. simpl. apply in_or_app. right. now left.
  - rewrite count_occ_app. simpl.
    destruct (list_eq_dec Z.eq_dec value value); [apply Nat.add_1_r | congruence].
Qed.

Lemma add_phone_appends_witness :
  let self := Record.mk (py "Alice") [py "1234567890"] None in
  Phone.validate (VStr (py "1234567890")) = Ok true
  /\ Record.add_phone (VStr (py "1234567890")) self
     = (Ok tt, Record.mk (py "Alice") [py "1234567890"; py "1234567890"] None).
Proof.
  intros self. split; [reflexivity|].
  exact (proj1 (add_phone_appends self (py "1234567890") eq_refl)).
Defined.

(** [remove_phone] takes out the first phone with the value and keeps
    the others in their order (later copies of the value stay); when no
    phone has the value it raises the [ValueError] that names the value
    and leaves the record as it was. *)
Theorem remove_phone_spec (self : Record.t) (value : pystr) :
  (In value (Record.phones self) ->
   exists l1 l2,
     Record.phones self = l1 ++ value :: l2
     /\ ~ In value l1
     /\ Record.remove_phone value self
        = (Ok tt, Record.mk (Record.name self) (l1 ++ l2)
                    (Record.birthday self)))
  /\ (~ In value (Record.phones self) ->
      Record.remove_phone value self
      = (Raise (ValueError
                  (Msg (py "Phone number " ++ value ++ py " not found."))),
         self)).
Proof.
  unfold Record.remove_phone. split; intros H.
  - destruct (remove_first_in _ _ H) as [l' E]. rewrite E.
    destruct (remove_first_some _ _ _ E) as (l1 & l2 & P & -> & N).
    exists l1, l2. auto.
  - now rewrite (remove_first_none _ _ H).
Qed.

Lemma remove_phone_spec_witness :
  let a := py "1234567890" in
  let b := py "0987654321" in
  let self := Record.mk (py "Alice") [b; a; b; a] None in
  (exists l1 l2,
     Record.phones self = l1 ++ a :: l2
     /\ ~ In a l1
     /\ Record.remove_phone a self
        = (Ok tt, Record.mk (py "Alice") (l1 ++ l2) None))
  /\ Record.remove_phone (py "5555555555") self
     = (Raise (ValueError (Msg (py "Phone number 5555555555 not found."))),
        self).
Proof.
  intros a b self. split.
  - apply (proj1 (remove_phone_spec self a)).
    simpl. right. left. reflexivity.
  - apply (proj2 (remove_phone_spec self (py "5555555555"))).
    simpl. intuition discriminate.
Defined.

Lemma remove_first_app_last value l :
  ~ In value l -> Record.remove_first value (l ++ [value]) = Some l.
Proof.
  induction l as [|phone l IH]; simpl; intros H.
  - now rewrite str_eqb_refl.
  - destruct (str_eqb phone value) eqn:E.
    + apply str_eqb_eq in E. tauto.
    + rewrite IH by tauto. reflexivity.
Qed.

(** Adding a phone the record does not have and removing it again
    gives the record back. *)
Theorem add_then_remove_phone (self : Record.t) (value : pystr) :
  Phone.validate (VStr value) = Ok true ->
  ~ In value (Record.phones self) ->
  bind (Record.add_phone (VStr value)) (fun _ => Record.remove_phone value) self
  = (Ok tt, self).
Proof.
  intros V N. apply validate_true in V.
  unfold bind. rewrite add_phone_text, V.
  unfold Record.remove_phone. cbn [Record.phones Record.name Record.birthday].
  rewrite (remove_first_app_last _ _ N). now rewrite record_eta.
Qed.

Lemma add_then_remove_phone_witness :
  let self := Record.mk (py "Alice") [py "1234567890"] None in
  Phone.validate (VStr (py "0987654321")) = Ok true
  /\ bind (Record.add_phone (VStr (py "0987654321")))
          (fun _ => Record.remove_phone (py "0987654321")) self
     = (Ok tt, self).
Proof.
  intros self. split; [reflexivity|].
  apply (add_then_remove_phone self (py "0987654321")); [reflexivity|].
  simpl. intuition discriminate.
Defined.

(** [edit_phone] with a valid new value and an old value the record
    has: the first phone with the old value leaves the list and the new
    one goes to the end (not to the place of the old one); the number of
    phones, the name and the birthday stay. *)
Theorem edit_phone_moves_to_end (self : Record.t) (old_value new_value : pystr) :
  Phone.validate (VStr new_value) = Ok true ->
  In old_value (Record.phones self) ->
  exists l1 l2,
    Record.phones self = l1 ++ old_value :: l2
    /\ ~ In old_value l1
    /\ Record.edit_phone old_value new_value self
       = (Ok tt, Record.mk (Record.name self) (l1 ++ l2 ++ [new_value])
                   (Record.birthday self))
    /\ List.length (Record.phones (snd (Record.edit_phone old_value new_value self)))
       = List.length (Record.phones self).
Proof.
  intros V H. apply validate_true in V.
  destruct (proj1 (remove_phone_spec self old_value) H) as (l1 & l2 & P & N & E).
  exists l1, l2. split; [exact P|]. split; [exact N|].
  assert (Q : Record.edit_phone old_value new_value self
              = (Ok tt, Record.mk (Record.name self) (l1 ++ l2 ++ [new_value])
                          (Record.birthday self))).
  { unfold Record.edit_phone, bind at 1, lift. simpl. rewrite V.
    unfold bind. rewrite E, add_phone_text, V. simpl. now rewrite <- app_assoc. }
  split; [exact Q|]. rewrite Q, P. cbn [snd Record.phones].
  repeat (rewrite length_app; cbn [List.length]). lia.
Qed.

Lemma edit_phone_moves_to_end_witness :
  let a := py "1234567890" in
  let b := py "0987654321" in
  let c := py "5555555555" in
  let self := Record.mk (py "Alice") [a; b] None in
  exists l1 l2,
    Record.phones self = l1 ++ a :: l2
    /\ ~ In a l1
    /\ Record.edit_phone a c self
       = (Ok tt, Record.mk (py "Alice") (l1 ++ l2 ++ [c]) None)
    /\ List.length (Record.phones (snd (Record.edit_phone a c self))) = 2%nat.
Proof.
  intros a b c self.
  apply (edit_phone_moves_to_end self a c); [reflexivity|].
  simpl. left. reflexivity.
Defined.

(** ** The store *)

Section StoreMore.
Import AddressBook.

Lemma dict_get_some_split key d v :
  dict_get key d = Some v ->
  exists d1 d2, d = d1 ++ (key, v) :: d2 /\ ~ In key (keys d1)
                /\ dict_del key d = d1 ++ d2.
Proof.
  induction d as [|[k x] d IH]; simpl; [discriminate|].
  destruct (str_eqb k key) eqn:E.
  - apply str_eqb_eq in E. subst k. intros H. injection H as <-.
    exists [], d. simpl. auto.
  - apply str_eqb_neq in E. intros H.
    destruct (IH H) as (d1 & d2 & -> & N & D).
    exists ((k, x) :: d1), d2. simpl. rewrite D. intuition.
Qed.

Lemma dict_del_get_other key key' d :
  key' <> key -> dict_get key' (dict_del key d) = dict_get key' d.
Proof.
  intros N. induction d as [|[k x] d IH]; simpl; [reflexivity|].
  destruct (str_eqb k key) eqn:E; simpl.
  - apply str_eqb_eq in E. subst k.
    destruct (str_eqb key key') eqn:E'; [|reflexivity].
    apply str_eqb_eq in E'. congruence.
  - now rewrite IH.
Qed.

Lemma dict_del_set_absent key v d :
  dict_get key d = None -> dict_del key (dict_set key v d) = d.
Proof.
  induction d as [|[k x] d IH]; simpl.
  - now rewrite str_eqb_refl.
  - destruct (str_eqb k key) eqn:E; [discriminate|]. simpl. rewrite E.
    intros H. now rewrite IH.
Qed.

End StoreMore.

(** [delete] of a name that is a key removes that entry and nothing
    else: the entries before and after it keep their order, the name is
    not found afterwards and every other name is found as before.  For
    a name that is not a key it raises the [ValueError] that names it
    and the store is unchanged. *)
Theorem delete_spec (book : AddressBook.t) (name : pystr) :
  unique_keys book ->
  (forall record, AddressBook.dict_get name book = Some record ->
     exists b1 b2,
       book = b1 ++ (name, record) :: b2
       /\ AddressBook.delete name book = (Ok tt, b1 ++ b2)
       /\ AddressBook.dict_get name (b1 ++ b2) = None
       /\ (forall k, k <> name ->
             AddressBook.dict_get k (b1 ++ b2) = AddressBook.dict_get k book))
  /\ (AddressBook.dict_get name book = None ->
      AddressBook.delete name book
      = (Raise (ValueError (Msg (py "Record for " ++ name ++ py " not found."))),
         book)).
Proof.
  intros U. unfold AddressBook.delete, AddressBook.dict_contains. split.
  - intros record G. rewrite G.
    destruct (dict_get_some_split _ _ _ G) as (b1 & b2 & E & N & D).
    exists b1, b2. rewrite D. split; [exact E|]. split; [reflexivity|]. split.
    + rewrite <- D. now apply dict_del_get.
    + intros k Hk. rewrite <- D. now apply dict_del_get_other.
  - intros ->. reflexivity.
Qed.

Lemma delete_spec_witness :
  let alice := Record.mk (py "Alice") [] None in
  let bob := Record.mk (py "Bob") [] None in
  let book := [(py "Alice", alice); (py "Bob", bob)] in
  unique_keys book
  /\ (exists b1 b2,
        book = b1 ++ (py "Alice", alice) :: b2
        /\ AddressBook.delete (py "Alice") book = (Ok tt, b1 ++ b2)
        /\ AddressBook.dict_get (py "Alice") (b1 ++ b2) = None
        /\ (forall k, k <> py "Alice" ->
              AddressBook.dict_get k (b1 ++ b2) = AddressBook.dict_get k book))
  /\ AddressBook.delete (py "Carol") []
     = (Raise (ValueError (Msg (py "Record for Carol not found."))), []).
Proof.
  intros alice bob book.
  assert (U : unique_keys book).
  { repeat constructor; simpl; intuition discriminate. }
  split; [exact U|]. split.
  - apply (proj1 (delete_spec book (py "Alice") U) alice). reflexivity.
  - apply (proj2 (delete_spec [] (py "Carol") (NoDup_nil _))). reflexivity.
Defined.

(** Adding a record under a name that is not yet a key and deleting
    that name gives the store back; the new record had gone to the end
    of the store. *)
Theorem add_record_then_delete (book : AddressBook.t) (record : Record.t) :
  AddressBook.dict_get (Record.name record) book = None ->
  AddressBook.add_record record book
  = (Ok tt, book ++ [(Record.name record, record)])
  /\ bind (AddressBook.add_record record)
          (fun _ => AddressBook.delete (Record.name record)) book
     = (Ok tt, book).
Proof.
  intros G. unfold AddressBook.add_record. split.
  - now rewrite (dict_set_absent _ _ _ G).
  - unfold bind, AddressBook.delete, AddressBook.dict_contains.
    rewrite dict_get_set_same. now rewrite (dict_del_set_absent _ _ _ G).
Qed.

Lemma add_record_then_delete_witness :
  let alice := Record.mk (py "Alice") [] None in
  let bob := Record.mk (py "Bob") [py "1234567890"] None in
  AddressBook.dict_get (py "Bob") [(py "Alice", alice)] = None
  /\ bind (AddressBook.add_record bob)
          (fun _ => AddressBook.delete (py "Bob")) [(py "Alice", alice)]
     = (Ok tt, [(py "Alice", alice)]).
Proof.
  intros alice bob. split; [reflexivity|].
  exact (proj2 (add_record_then_delete [(py "Alice", alice)] bob eq_refl)).
Defined.

(** ** The birthday query: what it reports *)

Lemma replace_year_fields t y t' :
  replace_year t y = Ok t' ->
  year t' = y /\ month t' = month t /\ day t' = day t
  /\ valid_date y (month t) (day t) = true.
Proof.
  unfold replace_year.
  destruct (valid_date y (month t) (day t)) eqn:V; [|discriminate].
  intros H. injection H as <-. simpl. auto.
Qed.

Lemma window_date_some today t7 value g :
  AddressBook.window_date today t7 value = Ok (Some g) ->
  month g = month value /\ day g = day value
  /\ leb g t7 = true
  /\ ((year g = year today /\ leb today g = true)
      \/ year g = year today + 1).
Proof.
  unfold AddressBook.window_date, rbind.
  destruct (replace_year value (year today)) as [b|] eqn:R1; [|discriminate].
  destruct (replace_year_fields _ _ _ R1) as (Y1 & M1 & D1 & _).
  destruct (leb today b) eqn:L1; cbn [andb].
  - destruct (leb b t7) eqn:L2.
    + intros H. injection H as <-. auto 6.
    + destruct (ltb b today); [|discriminate].
      destruct (replace_year b (year today + 1)) as [b'|] eqn:R2; [|discriminate].
      destruct (replace_year_fields _ _ _ R2) as (Y2 & M2 & D2 & _).
      destruct (leb b' t7) eqn:L3; [|discriminate].
      intros H. injection H as <-. repeat split; try congruence. auto.
  - destruct (ltb b today); [|discriminate].
    destruct (replace_year b (year today + 1)) as [b'|] eqn:R2; [|discriminate].
    destruct (replace_year_fields _ _ _ R2) as (Y2 & M2 & D2 & _).
    destruct (leb b' t7) eqn:L3; [|discriminate].
    intros H. injection H as <-. repeat split; try congruence. auto.
Qed.

Lemma leb_ordinal a b :
  valid_date (year a) (month a) (day a) = true ->
  valid_date (year b) (month b) (day b) = true ->
  leb a b = true -> toordinal a <= toordinal b.
Proof.
  intros Va Vb L. unfold toordinal. apply ymd2ord_mono; try assumption.
  apply compare_not_Gt. unfold leb in L.
  destruct (Datetime.compare a b); congruence.
Qed.

Lemma weekend_shift_ok g :
  valid_date (year g) (month g) (day g) = true ->
  exists shown,
    AddressBook.weekend_shift g = Ok shown
    /\ weekday shown <= 4
    /\ toordinal g <= toordinal shown <= toordinal g + 2
    /\ valid_date (year shown) (month shown) (day shown) = true.
Proof.
  intros V. unfold AddressBook.weekend_shift.
  pose proof (weekday_range g) as R.
  destruct (Z.leb_spec 5 (weekday g)) as [W|W].
  - destruct (weekend_to_monday g V W) as (monday & A & M & O & V').
    exists monday. rewrite A. repeat split; try assumption; lia.
  - exists g. repeat split; try assumption; lia.
Qed.

(** Every entry the query makes for a record carries a date from Monday
    to Friday that is not before today and at most nine days after it:
    the date found has the month and day of the stored birthday and lies
    from today to seven days on, and the weekend rule adds at most two
    days. *)
Theorem reported_date_in_window (zero_pad : bool) (now t7 : datetime)
    (record : Record.t) (e : AddressBook.entry) :
  valid now = true ->
  timedelta_add now 7 = Ok t7 ->
  AddressBook.record_entry zero_pad now t7 record = Ok (Some e) ->
  exists value g shown,
    Record.birthday record = Some value
    /\ month g = month value /\ day g = day value
    /\ toordinal now <= toordinal g <= toordinal now + 7
    /\ AddressBook.weekend_shift g = Ok shown
    /\ weekday shown <= 4
    /\ toordinal g <= toordinal shown <= toordinal g + 2
    /\ e = AddressBook.mk_entry (Record.name record)
             (strftime_dmY zero_pad shown).
Proof.
  intros V T E. unfold valid in V. apply andb_true_iff in V.
  destruct V as [Vd _].
  destruct (add_days_ordinal _ _ _ Vd T) as [O7 V7]. cbn in O7.
  unfold AddressBook.record_entry in E.
  destruct (Record.birthday record) as [value|]; [|discriminate].
  destruct (AddressBook.window_date now t7 value) as [[g|]|] eqn:W;
    try discriminate.
  pose proof (window_date_valid _ _ _ _ W) as Vg.
  destruct (window_date_some _ _ _ _ W) as (Mg & Dg & L7 & C).
  destruct (weekend_shift_ok g Vg) as (shown & S & Wd & Os & _).
  cbn [rbind] in E. rewrite S in E. cbn [rbind] in E.
  exists value, g, shown.
  pose proof (leb_ordinal _ _ Vg V7 L7) as U.
  assert (Lo : toordinal now <= toordinal g).
  { destruct C as [[_ L]|Y]; [now apply leb_ordinal|].
    unfold toordinal. apply ymd2ord_mono; try assumption. lia. }
  repeat split; try assumption; try lia. congruence.
Qed.

Lemma reported_date_in_window_witness :
  let now := mkdt 2024 3 15 10 30 0 0 in
  let t7 := mkdt 2024 3 22 10 30 0 0 in
  let record := Record.mk (py "Alice") [] (Some (mkdt 1990 3 16 0 0 0 0)) in
  valid now = true
  /\ timedelta_add now 7 = Ok t7
  /\ exists value g shown,
       Record.birthday record = Some value
       /\ month g = month value /\ day g = day value
       /\ toordinal now <= toordinal g <= toordinal now + 7
       /\ AddressBook.weekend_shift g = Ok shown
       /\ weekday shown <= 4
       /\ toordinal g <= toordinal shown <= toordinal g + 2
       /\ AddressBook.mk_entry (py "Alice") (py "18.03.2024")
          = AddressBook.mk_entry (Record.name record) (strftime_dmY true shown).
Proof.
  intros now t7 record. split; [reflexivity|]. split; [reflexivity|].
  exact (reported_date_in_window true now t7 record
           (AddressBook.mk_entry (py "Alice") (py "18.03.2024"))
           eq_refl eq_refl eq_refl).
Defined.









(** ** The birthday query: when it raises and when it returns *)

Lemma replace_year_error t y e :
  replace_year t y = Raise e -> e = ValueError LibMsg.
Proof.
  unfold replace_year. destruct (valid_date y (month t) (day t)); congruence.
Qed.

Lemma window_date_error today t7 value e :
  AddressBook.window_date today t7 value = Raise e -> e = ValueError LibMsg.
Proof.
  unfold AddressBook.window_date, rbind.
  destruct (replace_year value (year today)) as [b|e1] eqn:R1.
  - destruct (leb today b && leb b t7); [discriminate|].
    destruct (ltb b today); [|discriminate].
    destruct (replace_year b (year today + 1)) as [b'|e2] eqn:R2.
    + destruct (leb b' t7); discriminate.
    + apply replace_year_error in R2. congruence.
  - apply replace_year_error in R1. congruence.
Qed.

Lemma record_entry_error zero_pad today t7 record e :
  AddressBook.record_entry zero_pad today t7 record = Raise e ->
  e = ValueError LibMsg.
Proof.
  unfold AddressBook.record_entry.
  destruct (Record.birthday record) as [value|]; [|discriminate].
  destruct (AddressBook.window_date today t7 value) as [[g|]|e1] eqn:W;
    cbn [rbind]; try discriminate.
  - destruct (weekend_shift_ok g (window_date_valid _ _ _ _ W))
      as (shown & -> & _). discriminate.
  - apply window_date_error in W. congruence.
Qed.

Lemma for_records_raises zero_pad today t7 record records :
  In record records ->
  AddressBook.record_entry zero_pad today t7 record = Raise (ValueError LibMsg) ->
  forall acc book,
    AddressBook.for_records zero_pad today t7 records acc book
    = (Raise (ValueError LibMsg), book).
Proof.
  intros I R. induction records as [|r rest IH]; [contradiction|].
  intros acc book. cbn [AddressBook.for_records]. unfold bind, lift.
  destruct (AddressBook.record_entry zero_pad today t7 r) as [e|e] eqn:E.
  - destruct I as [->|I]; [congruence|]. now apply IH.
  - apply record_entry_error in E. now subst e.
Qed.

(** With today plus seven days in range, a birthday on 29 February
    makes the query raise in a year that is not a leap year. *)
Lemma leap_day_raises_in_range (zero_pad : bool) (now t7 value : datetime)
    (book : AddressBook.t) (record : Record.t) :
  is_leap (year now) = false ->
  timedelta_add now 7 = Ok t7 ->
  In record (AddressBook.values book) ->
  Record.birthday record = Some value ->
  month value = 2 -> day value = 29 ->
  AddressBook.get_upcoming_birthdays zero_pad now book
  = (Raise (ValueError LibMsg), book).
Proof.
  intros L T I B M D.
  unfold AddressBook.get_upcoming_birthdays, bind at 1, lift. rewrite T.
  unfold bind at 1, get. unfold bind at 1.
  rewrite (for_records_raises zero_pad now t7 record); auto.
  unfold AddressBook.record_entry, AddressBook.window_date. rewrite B.
  unfold replace_year at 1. rewrite M, D.
  assert (V : valid_date (year now) 2 29 = false).
  { apply not_true_is_false. intros V. apply valid_date_iff in V.
    unfold days_in_month in V. rewrite L in V. simpl in V. lia. }
  now rewrite V.
Qed.

Lemma add_days_in_range n : forall t,
  valid_date (year t) (month t) (day t) = true ->
  toordinal t + Z.of_nat n <= 3652059 ->
  exists t', add_days t n = Ok t'.
Proof.
  induction n as [|n IH]; intros t V H; cbn [add_days]; [eauto|].
  destruct (next_day t) as [t1|] eqn:N.
  - destruct (next_day_ordinal _ _ V N) as [O1 V1]. apply IH; [assumption|lia].
  - destruct (next_day_none _ V N) as (Hy & Hm & Hd).
    unfold toordinal in H. rewrite Hy, Hm, Hd in H.
    change (ymd2ord 9999 12 31) with 3652059 in H. lia.
Qed.

Lemma plus_seven_in_range now :
  valid_date (year now) (month now) (day now) = true ->
  year now < 9999 ->
  exists t7, timedelta_add now 7 = Ok t7.
Proof.
  intros V Y. apply add_days_in_range; [assumption|].
  assert (M : ymd2ord (year now) (month now) (day now) <= ymd2ord 9999 1 1).
  { apply ymd2ord_mono; [assumption | reflexivity | lia]. }
  change (ymd2ord 9999 1 1) with 3651695 in M. unfold toordinal.
  change (Z.of_nat (Z.to_nat 7)) with 7. lia.
Qed.

(** A birthday on 29 February stops the query in every year before 9999
    that is not a leap year: whatever else the store holds and whatever
    the day and time, the call raises [ValueError] (from [replace] at
    line 107), reports nobody and leaves the store as it is. *)
Theorem leap_day_birthday_raises (zero_pad : bool) (now value : datetime)
    (book : AddressBook.t) (record : Record.t) :
  valid now = true ->
  year now < 9999 ->
  is_leap (year now) = false ->
  In record (AddressBook.values book) ->
  Record.birthday record = Some value ->
  month value = 2 -> day value = 29 ->
  AddressBook.get_upcoming_birthdays zero_pad now book
  = (Raise (ValueError LibMsg), book).
Proof.
  intros V Y L I B M D. unfold valid in V. apply andb_true_iff in V.
  destruct V as [Vd _].
  destruct (plus_seven_in_range now Vd Y) as [t7 T].
  now apply (leap_day_raises_in_range zero_pad now t7 value book record).
Qed.

Lemma leap_day_birthday_raises_witness :
  let now := mkdt 2023 6 1 9 0 0 0 in
  let alice := Record.mk (py "Alice") [] (Some (mkdt 1990 6 3 0 0 0 0)) in
  let bob := Record.mk (py "Bob") [] (Some (mkdt 2000 2 29 0 0 0 0)) in
  let book := [(py "Alice", alice); (py "Bob", bob)] in
  valid now = true
  /\ is_leap (year now) = false
  /\ AddressBook.get_upcoming_birthdays true now book
     = (Raise (ValueError LibMsg), book).
Proof.
  intros now alice bob book. split; [reflexivity|]. split; [reflexivity|].
  apply (leap_day_birthday_raises true now (mkdt 2000 2 29 0 0 0 0) book bob);
    try reflexivity.
  simpl. right. left. reflexivity.
Defined.

Lemma add_days_ok n : forall t,
  valid_date (year t) (month t) (day t) = true ->
  toordinal t + Z.of_nat n <= 3652059 ->
  exists t', add_days t n = Ok t'.
Proof.
  induction n as [|n IH]; intros t V H; cbn [add_days]; [eauto|].
  destruct (next_day t) as [t1|] eqn:N.
  - destruct (next_day_ordinal _ _ V N) as [O1 V1]. apply IH; [assumption|lia].
  - destruct (next_day_none _ V N) as (Hy & Hm & Hd).
    unfold toordinal in H. rewrite Hy, Hm, Hd in H.
    change (ymd2ord 9999 12 31) with 3652059 in H. lia.
Qed.

Lemma days_in_month_other_year y y' m d :
  1 <= m <= 12 -> 1 <= d <= days_in_month y m -> ~ (m = 2 /\ d = 29) ->
  d <= days_in_month y' m.
Proof.
  intros Hm Hd N. unfold days_in_month in *.
  destruct (is_leap y), (is_leap y'); month_cases m; simpl in *; lia.
Qed.

(** In a year before 9999 the query returns, and leaves the store as it
    is, whenever no stored birthday is a 29 February (stored birthdays
    being dates of the calendar, as [Birthday] makes them). *)
Theorem query_returns_without_leap_day (zero_pad : bool) (now : datetime)
    (book : AddressBook.t) :
  valid now = true ->
  year now < 9999 ->
  (forall record value,
     In record (AddressBook.values book) ->
     Record.birthday record = Some value ->
     valid_date (year value) (month value) (day value) = true
     /\ ~ (month value = 2 /\ day value = 29)) ->
  exists u, AddressBook.get_upcoming_birthdays zero_pad now book = (Ok u, book).
Proof.
  intros V Y H. unfold valid in V. apply andb_true_iff in V.
  destruct V as [Vd _].
  pose proof Vd as Vd'. apply valid_date_iff in Vd'.
  assert (T : exists t7, timedelta_add now 7 = Ok t7).
  { apply add_days_ok; [assumption|].
    assert (M : ymd2ord (year now) (month now) (day now) <= ymd2ord 9999 1 1).
    { apply ymd2ord_mono; [assumption | reflexivity | lia]. }
    change (ymd2ord 9999 1 1) with 3651695 in M. unfold toordinal.
    change (Z.of_nat (Z.to_nat 7)) with 7. lia. }
  destruct T as [t7 T].
  unfold AddressBook.get_upcoming_birthdays, bind at 1, lift. rewrite T.
  unfold bind at 1, get. unfold bind at 1.
  assert (F : forall records acc,
    (forall record, In record records -> In record (AddressBook.values book)) ->
    exists l, AddressBook.for_records zero_pad now t7 records acc book
              = (Ok l, book)).
  { induction records as [|r rest IH]; intros acc Hin;
      cbn [AddressBook.for_records]; [unfold ret; eauto|].
    unfold bind, lift.
    assert (E : exists e, AddressBook.record_entry zero_pad now t7 r = Ok e).
    { destruct (AddressBook.record_entry zero_pad now t7 r) as [e|e] eqn:E;
        [eauto|exfalso].
      unfold AddressBook.record_entry in E.
      destruct (Record.birthday r) as [value|] eqn:B; [|discriminate].
      destruct (H r value (Hin r (or_introl eq_refl)) B) as [Vv Nl].
      apply valid_date_iff in Vv. destruct Vv as (_ & Vm & Vdv).
      assert (V1 : valid_date (year now) (month value) (day value) = true).
      { apply valid_date_iff.
        pose proof (days_in_month_other_year _ (year now) _ _ Vm Vdv Nl). lia. }
      assert (V2 : valid_date (year now + 1) (month value) (day value) = true).
      { apply valid_date_iff.
        pose proof (days_in_month_other_year _ (year now + 1) _ _ Vm Vdv Nl).
        lia. }
      destruct (AddressBook.window_date now t7 value) as [[g|]|e1] eqn:W;
        cbn [rbind] in E; try discriminate.
      - destruct (weekend_shift_ok g (window_date_valid _ _ _ _ W))
          as (shown & S & _). rewrite S in E. discriminate.
      - unfold AddressBook.window_date, replace_year in W.
        rewrite V1 in W. cbn [rbind month day year] in W.
        destruct (leb now _ && leb _ t7); [discriminate|].
        destruct (ltb _ now); [|discriminate].
        rewrite V2 in W. cbn [rbind] in W.
        destruct (leb _ t7); discriminate. }
    destruct E as [e ->]. apply IH. intros record I. apply Hin. now right. }
  destruct (F (AddressBook.values book) [] (fun _ I => I)) as [l ->].
  unfold ret. eauto.
Qed.

Lemma query_returns_without_leap_day_witness :
  let now := mkdt 2024 3 15 10 30 0 0 in
  let alice := Record.mk (py "Alice") [] (Some (mkdt 1990 3 16 0 0 0 0)) in
  let book := [(py "Alice", alice)] in
  valid now = true
  /\ exists u, AddressBook.get_upcoming_birthdays true now book = (Ok u, book).
Proof.
  intros now alice book. split; [reflexivity|].
  apply (query_returns_without_leap_day true now book);
    [reflexivity | reflexivity |].
  intros record value [<-|[]] B. injection B as <-.
  split; [reflexivity|]. intros [M _]. discriminate M.
Defined.

Lemma record_entry_name zero_pad today t7 record e :
  AddressBook.record_entry zero_pad today t7 record = Ok (Some e) ->
  AddressBook.entry_name e = Record.name record
  /\ Record.birthday record <> None.
Proof.
  unfold AddressBook.record_entry.
  destruct (Record.birthday record) as [value|]; [|discriminate].
  destruct (AddressBook.window_date today t7 value) as [[g|]|];
    cbn [rbind]; try discriminate.
  destruct (AddressBook.weekend_shift g); cbn [rbind]; [|discriminate].
  intros H. injection H as <-. split; [reflexivity | discriminate].
Qed.

Lemma subsequence_refl {A : Type} (l : list A) : subsequence l l.
Proof. induction l; constructor; assumption. Qed.

Lemma for_records_names zero_pad today t7 records : forall acc book l book',
  AddressBook.for_records zero_pad today t7 records acc book = (Ok l, book') ->
  exists l',
    l = acc ++ l'
    /\ subsequence (map AddressBook.entry_name l')
         (map Record.name
            (filter (fun r => match Record.birthday r with
                              | Some _ => true
                              | None => false
                              end) records)).
Proof.
  induction records as [|r rest IH]; intros acc book l book';
    cbn [AddressBook.for_records].
  - unfold ret. intros H. injection H as <- <-. exists [].
    rewrite app_nil_r. split; [reflexivity | constructor].
  - unfold bind, lift.
    destruct (AddressBook.record_entry zero_pad today t7 r) as [[e|]|] eqn:E;
      [| |discriminate]; intros H; apply IH in H; destruct H as (l' & -> & S).
    + destruct (record_entry_name _ _ _ _ _ E) as [N B].
      exists (e :: l'). rewrite <- app_assoc. split; [reflexivity|].
      cbn [filter]. destruct (Record.birthday r); [|congruence].
      cbn [map]. rewrite N. now constructor.
    + exists l'. split; [reflexivity|].
      cbn [filter]. destruct (Record.birthday r); [|assumption].
      cbn [map]. now constructor.
Qed.

(** What the query returns when it returns: either the text for no
    birthdays, or a list that is not empty, whose names are names of
    stored records with a birthday, in the order of the store and each
    record at most once. *)
Theorem query_result_shape (zero_pad : bool) (now : datetime)
    (book book' : AddressBook.t) (u : AddressBook.upcoming) :
  AddressBook.get_upcoming_birthdays zero_pad now book = (Ok u, book') ->
  match u with
  | AddressBook.Text s => s = AddressBook.no_upcoming
  | AddressBook.Entries l =>
      l <> []
      /\ subsequence (map AddressBook.entry_name l)
           (map Record.name
              (filter (fun r => match Record.birthday r with
                                | Some _ => true
                                | None => false
                                end) (AddressBook.values book)))
  end.
Proof.
  unfold AddressBook.get_upcoming_birthdays, bind at 1, lift.
  destruct (timedelta_add now 7) as [t7|]; [|discriminate].
  unfold bind at 1, get. unfold bind at 1.
  destruct (AddressBook.for_records zero_pad now t7 (AddressBook.values book)
              [] book) as [[l|] b1] eqn:F; [|discriminate].
  apply for_records_names in F. destruct F as (l' & -> & S).
  unfold ret. intros H. injection H as <- _.
  cbn [app]. destruct l' as [|e l']; [reflexivity|].
  split; [discriminate | exact S].
Qed.

Lemma query_result_shape_witness :
  let now := mkdt 2024 3 15 10 30 0 0 in
  let alice := Record.mk (py "Alice") [] (Some (mkdt 1990 3 16 0 0 0 0)) in
  let bob := Record.mk (py "Bob") [] None in
  let carol := Record.mk (py "Carol") [] (Some (mkdt 1985 3 20 0 0 0 0)) in
  let book := [(py "Alice", alice); (py "Bob", bob); (py "Carol", carol)] in
  let l := [AddressBook.mk_entry (py "Alice") (py "18.03.2024");
            AddressBook.mk_entry (py "Carol") (py "20.03.2024")] in
  AddressBook.get_upcoming_birthdays true now book
  = (Ok (AddressBook.Entries l), book)
  /\ l <> []
  /\ subsequence (map AddressBook.entry_name l) [py "Alice"; py "Carol"].
Proof.
  intros now alice bob carol book l.
  assert (Q : AddressBook.get_upcoming_birthdays true now book
              = (Ok (AddressBook.Entries l), book)) by reflexivity.
  split; [exact Q|].
  exact (query_result_shape true now book book (AddressBook.Entries l) Q).
Defined.

(** ** Handlers: which exceptions leave them *)

Lemma raises_only_ret {S A : Type} (P : exn -> Prop) (a : A) :
  raises_only P (@ret S A a).
Proof. intros s e H. discriminate H. Qed.

Lemma raises_only_raise {S A : Type} (P : exn -> Prop) (e : exn) :
  P e -> raises_only P (@raise S A e).
Proof. intros H s e' E. injection E as <-. exact H. Qed.

Lemma raises_only_lift {S A : Type} (P : exn -> Prop) (r : result A) :
  (forall e, r = Raise e -> P e) -> raises_only P (@lift S A r).
Proof. intros H s e E. apply H. exact E. Qed.

Lemma raises_only_bind {S A B : Type} (P : exn -> Prop) (m : M S A)
    (k : A -> M S B) :
  raises_only P m -> (forall a, raises_only P (k a)) ->
  raises_only P (bind m k).
Proof.
  intros Hm Hk s e. unfold bind. specialize (Hm s).
  destruct (m s) as [[a|e'] s']; simpl in *.
  - apply Hk.
  - intros E. injection E as <-. now apply Hm.
Qed.

Lemma raises_only_on_record {A : Type} (P : exn -> Prop) key record
    (m : M Record.t A) :
  raises_only P m -> raises_only P (on_record key record m).
Proof.
  intros H s e. unfold on_record. specialize (H record).
  destruct (m record) as [r record']. simpl in *. apply H.
Qed.

Lemma raises_only_find (P : exn -> Prop) name :
  raises_only P (AddressBook.find name).
Proof. intros s e H. discriminate H. Qed.

Lemma raises_only_add_record (P : exn -> Prop) record :
  raises_only P (AddressBook.add_record record).
Proof. intros s e H. discriminate H. Qed.

Lemma raises_only_input_error (P : exn -> Prop) func :
  raises_only P func ->
  raises_only (fun e => P e /\ (forall m, e <> ValueError m)
                        /\ e <> KeyError /\ e <> IndexError)
    (input_error func).
Proof.
  intros H s e. unfold input_error. specialize (H s).
  destruct (func s) as [[a|e'] s']; simpl in *; [discriminate|].
  destruct e'; simpl; intros E; try discriminate; injection E as <-;
    (split; [now apply H | repeat split; intros; discriminate]).
Qed.

Lemma Phone_init_raises value e :
  Phone.init value = Raise e ->
  e = PhoneValidationError PhoneValidationError_default \/ e = TypeError.
Proof.
  destruct value as [s|p]; unfold Phone.init; simpl.
  - destruct ((len s =? 10) && Unicode.isdigit s); [discriminate|].
    intros H. injection H as <-. now left.
  - intros H. injection H as <-. now right.
Qed.

Lemma Record_init_raises name e :
  Record.init name = Raise e ->
  e = NameValidationError NameValidationError_default.
Proof.
  unfold Record.init, Name.init.
  destruct (Name.validate (VStr name)); simpl; congruence.
Qed.

Lemma add_phone_raises value :
  raises_only (fun e => e = PhoneValidationError PhoneValidationError_default
                        \/ e = TypeError)
    (Record.add_phone value).
Proof.
  intros s e. unfold Record.add_phone, bind, lift.
  destruct (Phone.init value) as [p|e'] eqn:I; simpl; [discriminate|].
  intros E. injection E as <-. now apply Phone_init_raises in I.
Qed.

Lemma add_birthday_raises string :
  raises_only (fun e => e = ValueError (Msg Birthday.invalid_date_format))
    (Record.add_birthday string).
Proof.
  intros s e. unfold Record.add_birthday, bind, lift, Birthday.init.
  destruct (Birthday.str_to_datetime string) as [d|e'] eqn:I; simpl;
    [discriminate|].
  intros E. injection E as <-. now apply str_to_datetime_error in I.
Qed.

Lemma edit_phone_raises old_value new_value :
  raises_only
    (fun e => e = PhoneValidationError PhoneValidationError_default
              \/ e = ValueError
                      (Msg (py "Phone number " ++ old_value ++ py " not found.")))
    (Record.edit_phone old_value new_value).
Proof.
  intros s e. unfold Record.edit_phone, bind at 1, lift. simpl.
  destruct ((len new_value =? 10) && Unicode.isdigit new_value) eqn:V.
  - unfold bind, Record.remove_phone.
    destruct (Record.remove_first old_value (Record.phones s)); simpl.
    + rewrite add_phone_text, V. discriminate.
    + intros E. injection E as <-. now right.
  - simpl. intros E. injection E as <-. now left.
Qed.

Lemma raises_only_weaken {S A : Type} (P Q : exn -> Prop) (m : M S A) :
  (forall e, P e -> Q e) -> raises_only P m -> raises_only Q m.
Proof. intros I H s e E. apply I. eapply H. eassumption. Qed.

Lemma add_contact_func_raises args :
  raises_only
    (fun e => e = ValueError LibMsg
              \/ e = NameValidationError NameValidationError_default
              \/ e = PhoneValidationError PhoneValidationError_default
              \/ e = TypeError)
    (add_contact_func args).
Proof.
  unfold add_contact_func.
  destruct args as [|name [|phone rest]];
    try (apply raises_only_raise; auto).
  assert (R : forall record message,
    raises_only
      (fun e => e = ValueError LibMsg
                \/ e = NameValidationError NameValidationError_default
                \/ e = PhoneValidationError PhoneValidationError_default
                \/ e = TypeError)
      (on_record name record
         (bind (if truthy phone
                then bind (lift (Phone.init (VStr phone)))
                          (fun p => Record.add_phone (VPhone p))
                else @ret Record.t unit tt)
               (fun _ => @ret Record.t pystr message)))).
  { intros record message. apply raises_only_on_record.
    apply raises_only_bind; [|intros; apply raises_only_ret].
    destruct (truthy phone); [|apply raises_only_ret].
    apply raises_only_bind.
    - apply raises_only_lift. intros e H. apply Phone_init_raises in H. tauto.
    - intros p. eapply raises_only_weaken; [|apply add_phone_raises].
      simpl. tauto. }
  apply raises_only_bind; [apply raises_only_find|].
  intros [record|]; [apply R|].
  apply raises_only_bind.
  - apply raises_only_lift. intros e H. apply Record_init_raises in H. tauto.
  - intros record. apply raises_only_bind; [apply raises_only_add_record|].
    intros _. apply R.
Qed.

Lemma change_contact_func_raises args :
  raises_only
    (fun e => e = IndexError \/ e = TypeError \/ (exists m, e = ValueError m)
              \/ e = PhoneValidationError PhoneValidationError_default)
    (change_contact_func args).
Proof.
  unfold change_contact_func.
  destruct args as [|name [|old_phone [|new_phone rest]]];
    try (apply raises_only_raise; eauto).
  apply raises_only_bind; [apply raises_only_find|].
  intros [record|]; [|apply raises_only_ret].
  apply raises_only_on_record.
  apply raises_only_bind.
  - destruct (truthy old_phone && truthy new_phone); [|apply raises_only_ret].
    eapply raises_only_weaken; [|apply edit_phone_raises].
    simpl. intros e [->| ->]; eauto.
  - intros _. apply raises_only_bind; [|intros; apply raises_only_ret].
    destruct (if _ : bool then Some _ else None) as [b|];
      [|apply raises_only_ret].
    destruct (truthy b); [|apply raises_only_ret].
    eapply raises_only_weaken; [|apply add_birthday_raises].
    simpl. intros e ->. eauto.
Qed.

Lemma add_birthday_func_raises args :
  raises_only (fun e => exists m, e = ValueError m) (add_birthday_func args).
Proof.
  unfold add_birthday_func.
  destruct args as [|name [|birthday rest]];
    try (apply raises_only_raise; eauto).
  apply raises_only_bind; [apply raises_only_find|].
  intros [record|]; [|apply raises_only_ret].
  apply raises_only_on_record.
  apply raises_only_bind; [|intros; apply raises_only_ret].
  eapply raises_only_weaken; [|apply add_birthday_raises].
  simpl. intros e ->. eauto.
Qed.

Lemma show_phone_func_raises args :
  raises_only (fun e => exists m, e = ValueError m) (show_phone_func args).
Proof.
  unfold show_phone_func.
  destruct args as [|name rest]; [apply raises_only_raise; eauto|].
  apply raises_only_bind; [apply raises_only_find|].
  intros [record|]; apply raises_only_ret.
Qed.

Lemma show_birthday_func_raises zero_pad args :
  raises_only (fun e => exists m, e = ValueError m)
    (show_birthday_func zero_pad args).
Proof.
  unfold show_birthday_func.
  destruct args as [|name rest]; [apply raises_only_raise; eauto|].
  apply raises_only_bind; [apply raises_only_find|].
  intros [record|]; apply raises_only_ret.
Qed.

Lemma show_all_lines_raises zero_pad items e :
  show_all_lines zero_pad items = Raise e -> e = AttributeError.
Proof.
  induction items as [|[name record] rest IH]; cbn [show_all_lines];
    [discriminate|].
  unfold show_all_line, rbind.
  destruct (Record.birthday record); [|congruence].
  destruct (show_all_lines zero_pad rest); [discriminate|].
  intros H. apply IH. congruence.
Qed.

Lemma show_all_func_raises zero_pad :
  raises_only (fun e => e = AttributeError) (show_all_func zero_pad).
Proof.
  unfold show_all_func. intros book e. unfold bind at 1, get.
  destruct book as [|item rest]; [discriminate|].
  unfold bind, lift.
  destruct (show_all_lines zero_pad (item :: rest)) as [lines|e'] eqn:L;
    simpl; [discriminate|].
  intros E. injection E as <-. now apply show_all_lines_raises in L.
Qed.

Lemma always_returns {S A : Type} (m : M S A) :
  raises_only (fun _ => False) m -> forall s, exists a, fst (m s) = Ok a.
Proof.
  intros H s. destruct (fst (m s)) as [a|e] eqn:E; [eauto|].
  destruct (H s e E).
Qed.

Lemma input_error_catches_value_errors func :
  raises_only (fun e => exists m, e = ValueError m) func ->
  raises_only (fun _ => False) (input_error func).
Proof.
  intros H. eapply raises_only_weaken; [|apply raises_only_input_error, H].
  simpl. intros e [[m ->] [N _]]. now apply (N m).
Qed.

(** The exceptions that leave the decorated handlers.  [add_birthday],
    [show_phone] and [show_birthday] always return a text.
    [add_contact] can raise [NameValidationError], [PhoneValidationError]
    or [TypeError] and nothing else, [change_contact] can raise
    [PhoneValidationError] or [TypeError] and nothing else, [show_all]
    can raise [AttributeError] and nothing else.  No handler body raises
    [KeyError], so the text for a contact that does not exist never
    comes from the decorator. *)
Theorem handlers_escaping_exceptions (zero_pad : bool) (args : list pystr)
    (book : AddressBook.t) :
  (forall e, fst (add_contact args book) = Raise e ->
     e = NameValidationError NameValidationError_default
     \/ e = PhoneValidationError PhoneValidationError_default
     \/ e = TypeError)
  /\ (forall e, fst (change_contact args book) = Raise e ->
        e = PhoneValidationError PhoneValidationError_default \/ e = TypeError)
  /\ (exists text, fst (add_birthday args book) = Ok text)
  /\ (exists text, fst (show_phone args book) = Ok text)
  /\ (exists text, fst (show_birthday zero_pad args book) = Ok text)
  /\ (forall e, fst (show_all zero_pad book) = Raise e -> e = AttributeError)
  /\ (forall e, fst (add_contact_func args book) = Raise e
                \/ fst (change_contact_func args book) = Raise e
                \/ fst (add_birthday_func args book) = Raise e
                \/ fst (show_phone_func args book) = Raise e
                \/ fst (show_birthday_func zero_pad args book) = Raise e
                \/ fst (show_all_func zero_pad book) = Raise e ->
                e <> KeyError).
Proof.
  split; [|split; [|split; [|split; [|split; [|split]]]]].
  - intros e H.
    destruct (raises_only_input_error _ _ (add_contact_func_raises args)
                book e H) as [P [N _]].
    destruct P as [->|P]; [now destruct (N LibMsg)|exact P].
  - intros e H.
    destruct (raises_only_input_error _ _ (change_contact_func_raises args)
                book e H) as [P [N [_ NI]]].
    destruct P as [->|[->|[[m ->]|P]]]; auto; [congruence|now destruct (N m)].
  - apply always_returns, input_error_catches_value_errors,
      add_birthday_func_raises.
  - apply always_returns, input_error_catches_value_errors,
      show_phone_func_raises.
  - apply always_returns, input_error_catches_value_errors,
      show_birthday_func_raises.
  - intros e H.
    now destruct (raises_only_input_error _ _ (show_all_func_raises zero_pad)
                    book e H) as [P _].
  - intros e [H|[H|[H|[H|[H|H]]]]].
    + apply add_contact_func_raises in H.
      destruct H as [->|[->|[->| ->]]]; discriminate.
    + apply change_contact_func_raises in H.
      destruct H as [->|[->|[[m ->]| ->]]]; discriminate.
    + apply add_birthday_func_raises in H. destruct H as [m ->]. discriminate.
    + apply show_phone_func_raises in H. destruct H as [m ->]. discriminate.
    + apply show_birthday_func_raises in H. destruct H as [m ->]. discriminate.
    + apply show_all_func_raises in H. subst e. discriminate.
Qed.

(** ** Handlers: answers and effects on the store *)

(** With too few arguments the handlers answer with a fixed text and
    leave the store alone: [add_contact] and [add_birthday] with none or
    one, [change_contact] with two, [show_phone] and [show_birthday]
    with none get the text of [ValueError]; [change_contact] with none
    gets the text of [IndexError]. *)
Theorem too_few_arguments (zero_pad : bool) (book : AddressBook.t)
    (x y : pystr) :
  let sorry := py "Give me name and phone, please." in
  add_contact [] book = (Ok sorry, book)
  /\ add_contact [x] book = (Ok sorry, book)
  /\ add_birthday [] book = (Ok sorry, book)
  /\ add_birthday [x] book = (Ok sorry, book)
  /\ change_contact [] book = (Ok (py "Not enough arguments."), book)
  /\ change_contact [x; y] book = (Ok sorry, book)
  /\ show_phone [] book = (Ok sorry, book)
  /\ show_birthday zero_pad [] book = (Ok sorry, book).
Proof. repeat split. Qed.

(** For a name that is not in the store, [change_contact],
    [add_birthday], [show_phone] and [show_birthday] answer that the
    contact (or the birthday) was not found, naming it, and leave the
    store alone; nothing is validated before the lookup. *)
Theorem unknown_contact (zero_pad : bool) (book : AddressBook.t)
    (name a b : pystr) (rest : list pystr) :
  AddressBook.dict_get name book = None ->
  let not_found := py "Contact " ++ name ++ py " not found." in
  change_contact (name :: a :: b :: rest) book = (Ok not_found, book)
  /\ add_birthday (name :: a :: rest) book = (Ok not_found, book)
  /\ show_phone (name :: rest) book = (Ok not_found, book)
  /\ show_birthday zero_pad (name :: rest) book
     = (Ok (py "Birthday for " ++ name ++ py " not found."), book).
Proof.
  intros G.
  unfold change_contact, add_birthday, show_phone, show_birthday, input_error,
    change_contact_func, add_birthday_func, show_phone_func, show_birthday_func,
    bind, AddressBook.find.
  rewrite G. repeat split.
Qed.

Lemma unknown_contact_witness :
  AddressBook.dict_get (py "Carol") [] = None
  /\ change_contact [py "Carol"; py "x"; py "y"] []
     = (Ok (py "Contact Carol not found."), [])
  /\ show_birthday true [py "Carol"] []
     = (Ok (py "Birthday for Carol not found."), []).
Proof.
  split; [reflexivity|].
  pose proof (unknown_contact true [] (py "Carol") (py "x") (py "y") []
                eq_refl) as (C & _ & _ & S).
  split; [exact C | exact S].
Defined.

Lemma strict_text_parses s y m d :
  is_DD_MM_YYYY s = true ->
  dmY_fields s = Some (y, m, d) ->
  valid_date y m d = true ->
  strptime_dmY s = Ok (mkdt y m d 0 0 0 0)
  /\ (forall zero_pad, zero_pad = true \/ 1000 <= y ->
        strftime_dmY zero_pad (mkdt y m d 0 0 0 0) = s).
Proof.
  intros S F V.
  destruct (strict_is_text s S)
    as (a & b & c & d' & e & f & g & h & -> & Ha & Hb & Hc & Hd & He & Hf & Hg & Hh).
  rewrite dmY_fields_text in F.
  assert (Ey : y = 1000 * e + 100 * f + 10 * g + h) by congruence.
  assert (Em : m = 10 * c + d') by congruence.
  assert (Ed : d = 10 * a + b) by congruence.
  subst y m d. clear F. split.
  - now apply strptime_strict.
  - intros zero_pad P. apply strftime_strict; auto.
    destruct P as [P|P]; [now left | right; lia].
Qed.

(** Setting a birthday and showing it: for a contact that is in the
    store and a text [s] of the strict shape DD.MM.YYYY that names a
    date of the calendar, [add_birthday] answers that the contact is
    updated, only the birthday of that contact changes, and
    [show_birthday] gives [s] back (below the year 1000 where the
    platform pads the year).  A text that does not parse is answered
    with the text of [ValueError] and changes nothing. *)
Theorem add_birthday_then_show (book : AddressBook.t) (name s : pystr)
    (rest : list pystr) (record : Record.t) (y m d : Z) :
  AddressBook.dict_get name book = Some record ->
  is_DD_MM_YYYY s = true ->
  dmY_fields s = Some (y, m, d) ->
  valid_date y m d = true ->
  let record' := Record.mk (Record.name record) (Record.phones record)
                   (Some (mkdt y m d 0 0 0 0)) in
  let book' := AddressBook.dict_set name record' book in
  add_birthday (name :: s :: rest) book = (Ok (py "Contact updated."), book')
  /\ AddressBook.keys book' = AddressBook.keys book
  /\ show_birthday true [name] book' = (Ok s, book')
  /\ (1000 <= y -> show_birthday false [name] book' = (Ok s, book'))
  /\ (forall bad e, Birthday.str_to_datetime bad = Raise e ->
        add_birthday (name :: bad :: rest) book
        = (Ok (py "Give me name and phone, please."), book)).
Proof.
  intros G S F V record' book'.
  destruct (strict_text_parses s y m d S F V) as [P Fm].
  assert (G' : AddressBook.dict_get name book' = Some record')
    by apply dict_get_set_same.
  split; [|split; [|split; [|split]]].
  - unfold add_birthday, input_error, add_birthday_func, bind at 1,
      AddressBook.find. rewrite G.
    unfold on_record, bind, lift, Record.add_birthday, Birthday.init.
    rewrite (proj2 (str_to_datetime_ok s _) P). reflexivity.
  - apply dict_set_present. unfold AddressBook.dict_contains. now rewrite G.
  - unfold show_birthday, input_error, show_birthday_func, bind,
      AddressBook.find. rewrite G'. unfold ret. cbn [Record.birthday record'].
    rewrite Fm by now left. reflexivity.
  - intros Y. unfold show_birthday, input_error, show_birthday_func, bind,
      AddressBook.find. rewrite G'. unfold ret. cbn [Record.birthday record'].
    rewrite Fm by now right. reflexivity.
  - intros bad e B. pose proof (str_to_datetime_error _ _ B) as ->.
    unfold add_birthday, input_error, add_birthday_func, bind at 1,
      AddressBook.find. rewrite G.
    unfold on_record, Record.add_birthday, Birthday.init, bind, lift.
    rewrite B. now rewrite (dict_set_get_same _ _ _ G).
Qed.

Lemma add_birthday_then_show_witness :
  let alice := Record.mk (py "Alice") [py "1234567890"] None in
  let alice' := Record.mk (py "Alice") [py "1234567890"]
                  (Some (mkdt 1990 3 15 0 0 0 0)) in
  add_birthday [py "Alice"; py "15.03.1990"] [(py "Alice", alice)]
  = (Ok (py "Contact updated."), [(py "Alice", alice')])
  /\ show_birthday true [py "Alice"] [(py "Alice", alice')]
     = (Ok (py "15.03.1990"), [(py "Alice", alice')]).
Proof.
  intros alice alice'.
  pose proof (add_birthday_then_show [(py "Alice", alice)] (py "Alice")
                (py "15.03.1990") [] alice 1990 3 15
                eq_refl eq_refl eq_refl eq_refl) as (A & _ & S & _).
  split; [exact A | exact S].
Defined.

Lemma edit_phone_ok self old_value new_value l' :
  (len new_value =? 10) && Unicode.isdigit new_value = true ->
  Record.remove_first old_value (Record.phones self) = Some l' ->
  Record.edit_phone old_value new_value self
  = (Ok tt, Record.mk (Record.name self) (l' ++ [new_value])
              (Record.birthday self)).
Proof.
  intros V R. unfold Record.edit_phone, bind at 1, lift. simpl. rewrite V.
  unfold bind, Record.remove_phone. rewrite R, add_phone_text, V. reflexivity.
Qed.

Lemma isdigit_truthy s : Unicode.isdigit s = true -> truthy s = true.
Proof. unfold Unicode.isdigit. intros H. now apply andb_true_iff in H. Qed.

Lemma isdigit_not_a_date s :
  Unicode.isdigit s = true ->
  Birthday.init s = Raise (ValueError (Msg Birthday.invalid_date_format)).
Proof.
  intros D. unfold Birthday.init.
  destruct (Birthday.str_to_datetime s) as [d|e] eqn:E.
  - apply str_to_datetime_not_isdigit in E. congruence.
  - now rewrite (str_to_datetime_error _ _ E).
Qed.

Lemma len_three_or_more {A : Type} (a b c : A) (rest : list A) :
  (2 <? len (a :: b :: c :: rest)) = true.
Proof. apply Z.ltb_lt. unfold len. cbn [List.length]. lia. Qed.

(** What [change_contact] answers when it edits.  For a contact in the
    store that has the old phone, and a valid new phone, the phone is
    edited in the store, and the answer depends on the last argument
    alone: if it is all digits (as the new phone itself is, when there
    are just three arguments) it is taken for a birthday, does not
    parse, and the answer is the text of [ValueError] although the phone
    was changed; otherwise the answer is that the contact was updated. *)
Theorem change_contact_reply (book : AddressBook.t)
    (name old_phone new_phone : pystr) (rest : list pystr)
    (record : Record.t) :
  AddressBook.dict_get name book = Some record ->
  truthy old_phone = true ->
  Phone.validate (VStr new_phone) = Ok true ->
  In old_phone (Record.phones record) ->
  exists l1 l2,
    Record.phones record = l1 ++ old_phone :: l2
    /\ ~ In old_phone l1
    /\ change_contact (name :: old_phone :: new_phone :: rest) book
       = (Ok (if Unicode.isdigit (last (name :: old_phone :: new_phone :: rest) [])
              then py "Give me name and phone, please."
              else py "Contact " ++ name ++ py " updated successfully."),
          AddressBook.dict_set name
            (Record.mk (Record.name record) (l1 ++ l2 ++ [new_phone])
               (Record.birthday record)) book).
Proof.
  intros G To V I. apply validate_true in V.
  destruct (remove_first_in _ _ I) as [l' R].
  destruct (remove_first_some _ _ _ R) as (l1 & l2 & P & -> & N).
  exists l1, l2. split; [exact P|]. split; [exact N|].
  assert (Tn : truthy new_phone = true).
  { apply andb_true_iff in V. destruct V as [L _]. apply Z.eqb_eq in L.
    destruct new_phone; [discriminate L | reflexivity]. }
  unfold change_contact, input_error, change_contact_func.
  rewrite len_three_or_more. cbn [andb].
  set (final := last (name :: old_phone :: new_phone :: rest) []).
  unfold bind at 1, AddressBook.find. rewrite G. rewrite To, Tn. cbn [andb].
  unfold on_record, bind at 1.
  rewrite (edit_phone_ok _ _ _ _ V R). rewrite <- app_assoc.
  destruct (Unicode.isdigit final) eqn:D.
  - rewrite (isdigit_truthy _ D).
    unfold bind, Record.add_birthday, lift. rewrite (isdigit_not_a_date _ D).
    reflexivity.
  - reflexivity.
Qed.

Lemma change_contact_reply_witness :
  let a := py "1234567890" in
  let b := py "0987654321" in
  let alice := Record.mk (py "Alice") [a] None in
  exists l1 l2,
    [a] = l1 ++ a :: l2
    /\ ~ In a l1
    /\ change_contact [py "Alice"; a; b] [(py "Alice", alice)]
       = (Ok (py "Give me name and phone, please."),
          AddressBook.dict_set (py "Alice")
            (Record.mk (py "Alice") (l1 ++ l2 ++ [b]) None)
            [(py "Alice", alice)]).
Proof.
  intros a b alice.
  apply (change_contact_reply [(py "Alice", alice)] (py "Alice") a b [] alice);
    try reflexivity.
  simpl. left. reflexivity.
Defined.

(** ** Handlers: the shape of the store *)

Lemma add_phone_name value self :
  Record.name (snd (Record.add_phone value self)) = Record.name self.
Proof.
  unfold Record.add_phone, bind, lift.
  destruct (Phone.init value); reflexivity.
Qed.

Lemma add_birthday_name string self :
  Record.name (snd (Record.add_birthday string self)) = Record.name self.
Proof.
  unfold Record.add_birthday, bind, lift.
  destruct (Birthday.init string); reflexivity.
Qed.

Lemma edit_phone_name old_value new_value self :
  Record.name (snd (Record.edit_phone old_value new_value self))
  = Record.name self.
Proof.
  unfold Record.edit_phone, bind at 1, lift. simpl.
  destruct ((len new_value =? 10) && Unicode.isdigit new_value); [|reflexivity].
  unfold bind, Record.remove_phone.
  destruct (Record.remove_first old_value (Record.phones self)); [|reflexivity].
  simpl. now rewrite add_phone_name.
Qed.

Lemma keeps_name_preserves {A : Type} (m : M Record.t A) key :
  (forall s, Record.name (snd (m s)) = Record.name s) ->
  preserves (fun r => Record.name r = key) m.
Proof. intros H s E. now rewrite H. Qed.

Lemma dict_set_keys_are_names key v d :
  keys_are_names d -> Record.name v = key ->
  keys_are_names (AddressBook.dict_set key v d).
Proof.
  unfold keys_are_names. intros K N.
  induction d as [|[k x] d IH]; simpl.
  - constructor; [exact N | constructor].
  - inversion_clear K as [|? ? Hk Hd].
    destruct (str_eqb k key) eqn:E.
    + apply str_eqb_eq in E. subst k. constructor; [exact N | assumption].
    + constructor; [assumption | auto].
Qed.

Lemma dict_get_keys_are_names key d r :
  keys_are_names d -> AddressBook.dict_get key d = Some r -> Record.name r = key.
Proof.
  unfold keys_are_names. intros K.
  induction d as [|[k x] d IH]; simpl; [discriminate|].
  inversion_clear K as [|? ? Hk Hd].
  destruct (str_eqb k key) eqn:E.
  - apply str_eqb_eq in E. subst k. intros H. injection H as <-. exact Hk.
  - auto.
Qed.

Lemma on_record_shape {A : Type} key record (m : M Record.t A) book :
  keys_are_names book ->
  AddressBook.dict_get key book = Some record ->
  preserves (fun r => Record.name r = key) m ->
  keys_are_names (snd (on_record key record m book))
  /\ AddressBook.keys (snd (on_record key record m book))
     = AddressBook.keys book.
Proof.
  intros K G P. unfold on_record.
  pose proof (P record (dict_get_keys_are_names _ _ _ K G)) as N.
  destruct (m record) as [r record']. simpl in *. split.
  - now apply dict_set_keys_are_names.
  - apply dict_set_present. unfold AddressBook.dict_contains. now rewrite G.
Qed.

Lemma bind_find {A : Type} name (k : option Record.t -> M AddressBook.t A) book :
  bind (AddressBook.find name) k book = k (AddressBook.dict_get name book) book.
Proof. reflexivity. Qed.

Lemma bind_lift {S A B : Type} (r : result A) (k : A -> M S B) s :
  bind (lift r) k s = match r with Ok a => k a s | Raise e => (Raise e, s) end.
Proof. unfold bind, lift. destruct r; reflexivity. Qed.

Lemma change_contact_shape args book :
  keys_are_names book ->
  keys_are_names (snd (change_contact args book))
  /\ AddressBook.keys (snd (change_contact args book)) = AddressBook.keys book.
Proof.
  intros K. unfold change_contact. rewrite input_error_snd.
  unfold change_contact_func.
  destruct args as [|name [|old_phone [|new_phone rest]]]; try (simpl; split; [assumption | reflexivity]).
  rewrite bind_find.
  destruct (AddressBook.dict_get name book) as [record|] eqn:G;
    [|simpl; split; [assumption | reflexivity]].
  apply on_record_shape; try assumption.
  apply preserves_bind.
  - destruct (truthy old_phone && truthy new_phone).
    + apply keeps_name_preserves, edit_phone_name.
    + apply readonly_preserves, readonly_ret.
  - intros _. apply preserves_bind.
    + destruct (if _ : bool then Some _ else None) as [b|];
        [|apply readonly_preserves, readonly_ret].
      destruct (truthy b); [|apply readonly_preserves, readonly_ret].
      apply keeps_name_preserves, add_birthday_name.
    + intros _. apply readonly_preserves, readonly_ret.
Qed.

Lemma add_birthday_shape args book :
  keys_are_names book ->
  keys_are_names (snd (add_birthday args book))
  /\ AddressBook.keys (snd (add_birthday args book)) = AddressBook.keys book.
Proof.
  intros K. unfold add_birthday. rewrite input_error_snd.
  unfold add_birthday_func.
  destruct args as [|name [|birthday rest]]; try (simpl; split; [assumption | reflexivity]).
  rewrite bind_find.
  destruct (AddressBook.dict_get name book) as [record|] eqn:G;
    [|simpl; split; [assumption | reflexivity]].
  apply on_record_shape; try assumption.
  apply preserves_bind.
  - apply keeps_name_preserves, add_birthday_name.
  - intros _. apply readonly_preserves, readonly_ret.
Qed.

Lemma add_contact_shape args book :
  keys_are_names book ->
  keys_are_names (snd (add_contact args book))
  /\ (AddressBook.keys (snd (add_contact args book)) = AddressBook.keys book
      \/ exists name,
           AddressBook.dict_get name book = None
           /\ AddressBook.keys (snd (add_contact args book))
              = AddressBook.keys book ++ [name]).
Proof.
  intros K. unfold add_contact. rewrite input_error_snd.
  unfold add_contact_func.
  destruct args as [|name [|phone rest]]; try (simpl; split; [assumption | now left]).
  assert (P : preserves (fun r => Record.name r = name)
                (bind (if truthy phone
                       then bind (lift (Phone.init (VStr phone)))
                                 (fun p => Record.add_phone (VPhone p))
                       else @ret Record.t unit tt)
                      (fun _ => @ret Record.t pystr (py "x")))).
  { apply preserves_bind; [|intros; apply readonly_preserves, readonly_ret].
    destruct (truthy phone); [|apply readonly_preserves, readonly_ret].
    apply preserves_bind; [apply readonly_preserves, readonly_lift|].
    intros p. apply keeps_name_preserves. intros s. apply add_phone_name. }
  assert (Q : forall record message book0,
    snd (on_record name record
           (bind (if truthy phone
                  then bind (lift (Phone.init (VStr phone)))
                            (fun p => Record.add_phone (VPhone p))
                  else @ret Record.t unit tt)
                 (fun _ => @ret Record.t pystr message)) book0)
    = snd (on_record name record
           (bind (if truthy phone
                  then bind (lift (Phone.init (VStr phone)))
                            (fun p => Record.add_phone (VPhone p))
                  else @ret Record.t unit tt)
                 (fun _ => @ret Record.t pystr (py "x"))) book0)).
  { intros record message book0. unfold on_record, bind, lift, ret.
    destruct (truthy phone); [|reflexivity].
    destruct (Phone.init (VStr phone)); [|reflexivity].
    destruct (Record.add_phone (VPhone a) record) as [[[]|] r']; reflexivity. }
  rewrite bind_find.
  destruct (AddressBook.dict_get name book) as [record|] eqn:G.
  - rewrite Q. destruct (on_record_shape name record _ book K G P) as [S1 S2].
    split; [exact S1 | now left].
  - rewrite bind_lift.
    destruct (Record.init name) as [record|e] eqn:I; [|simpl; split; [assumption | now left]].
    assert (Nr : Record.name record = name).
    { unfold Record.init, Name.init in I.
      destruct (Name.validate (VStr name)); [|discriminate].
      simpl in I. injection I as <-. reflexivity. }
    change (bind (AddressBook.add_record record) ?k book)
      with (k tt (AddressBook.dict_set (Record.name record) record book)).
    cbv beta. rewrite Nr.
    set (book1 := AddressBook.dict_set name record book).
    assert (K1 : keys_are_names book1)
      by now apply dict_set_keys_are_names.
    assert (G1 : AddressBook.dict_get name book1 = Some record)
      by apply dict_get_set_same.
    rewrite Q. destruct (on_record_shape name record _ book1 K1 G1 P) as [S1 S2].
    split; [exact S1|]. right. exists name. split; [exact G|].
    rewrite S2. unfold book1. rewrite (dict_set_absent _ _ _ G).
    unfold AddressBook.keys. now rewrite map_app.
Qed.

(** The handlers that write keep the shape of the store.  If every
    record is kept under its own name, it still is after [add_contact],
    [change_contact] or [add_birthday], whether they answer or raise;
    [change_contact] and [add_birthday] keep the keys and their order,
    and [add_contact] keeps them or puts one new name at the end. *)
Theorem handlers_keep_store_shape (args : list pystr) (book : AddressBook.t) :
  keys_are_names book ->
  (keys_are_names (snd (add_contact args book))
   /\ (AddressBook.keys (snd (add_contact args book)) = AddressBook.keys book
       \/ exists name,
            AddressBook.dict_get name book = None
            /\ AddressBook.keys (snd (add_contact args book))
               = AddressBook.keys book ++ [name]))
  /\ (keys_are_names (snd (change_contact args book))
      /\ AddressBook.keys (snd (change_contact args book))
         = AddressBook.keys book)
  /\ (keys_are_names (snd (add_birthday args book))
      /\ AddressBook.keys (snd (add_birthday args book))
         = AddressBook.keys book).
Proof.
  intros K. split; [now apply add_contact_shape|].
  split; [now apply change_contact_shape | now apply add_birthday_shape].
Qed.

Lemma handlers_keep_store_shape_witness :
  let alice := Record.mk (py "Alice") [py "1234567890"] None in
  let book := [(py "Alice", alice)] in
  keys_are_names book
  /\ keys_are_names (snd (add_contact [py "Bob"; py "12345"] book))
  /\ AddressBook.keys
       (snd (change_contact [py "Alice"; py "1234567890"; py "0987654321"] book))
     = [py "Alice"].
Proof.
  intros alice book.
  assert (K : keys_are_names book) by (repeat constructor).
  split; [exact K|].
  split.
  - exact (proj1 (proj1 (handlers_keep_store_shape
                           [py "Bob"; py "12345"] book K))).
  - exact (proj2 (proj1 (proj2 (handlers_keep_store_shape
             [py "Alice"; py "1234567890"; py "0987654321"] book K)))).
Defined.

(** ** Listing all contacts *)

Lemma center_length width s : len (Text.center width s) = Z.max width (len s).
Proof.
  unfold Text.center. cbv zeta.
  destruct (Z.leb_spec (width - len s) 0) as [H|H]; [lia|].
  unfold len in *. rewrite !length_app, !repeat_length.
  rewrite !Nat2Z.inj_add, !Z2Nat.id; Z.div_mod_to_equations; lia.
Qed.

Lemma show_all_lines_ok zero_pad items :
  forallb has_birthday (AddressBook.values items) = true ->
  exists lines,
    show_all_lines zero_pad items = Ok lines
    /\ List.length lines = List.length items
    /\ Forall2 (fun line kv =>
                  exists rest,
                    line = Text.center 12 (fst kv) ++ [124] ++ rest)
         lines items.
Proof.
  induction items as [|[name record] rest IH]; cbn [show_all_lines].
  - exists []. repeat split. constructor.
  - cbn [AddressBook.values map forallb snd]. intros H.
    apply andb_true_iff in H. destruct H as [Hb Hr].
    destruct (IH Hr) as (lines & -> & L & F).
    unfold show_all_line, has_birthday in *.
    destruct (Record.birthday record) as [value|]; [|discriminate].
    cbn [rbind]. eexists. split; [reflexivity|]. split.
    + cbn [List.length]. now rewrite L.
    + constructor; [|exact F]. cbn [fst]. eexists. reflexivity.
Qed.

Lemma show_all_lines_fail zero_pad items :
  forallb has_birthday (AddressBook.values items) = false ->
  show_all_lines zero_pad items = Raise AttributeError.
Proof.
  induction items as [|[name record] rest IH]; cbn [show_all_lines];
    [discriminate|].
  cbn [AddressBook.values map forallb snd]. intros H.
  unfold show_all_line, has_birthday in *.
  destruct (Record.birthday record) as [value|]; [|reflexivity].
  cbn [andb] in H. cbn [rbind]. now rewrite (IH H).
Qed.

(** [show_all]: an empty store is answered with the text for no
    contacts.  When every record has a birthday the answer has one line
    for each record, in the order of the store, and each line starts
    with the key centred in twelve columns (a longer key is not cut) and
    a bar.  As soon as one record has no birthday, the call raises
    [AttributeError], which [input_error] does not catch.  The store is
    never changed. *)
Theorem show_all_spec (zero_pad : bool) (book : AddressBook.t) :
  show_all zero_pad [] = (Ok (py "No contacts."), [])
  /\ (book <> [] ->
      forallb has_birthday (AddressBook.values book) = true ->
      exists lines,
        show_all zero_pad book = (Ok (Record.join [10] lines), book)
        /\ List.length lines = List.length book
        /\ Forall2 (fun line kv =>
                      exists rest,
                        line = Text.center 12 (fst kv) ++ [124] ++ rest
                        /\ len (Text.center 12 (fst kv))
                           = Z.max 12 (len (fst kv)))
             lines book)
  /\ (forallb has_birthday (AddressBook.values book) = false ->
      show_all zero_pad book = (Raise AttributeError, book)).
Proof.
  split; [reflexivity|]. split.
  - intros N H. destruct (show_all_lines_ok zero_pad book H) as (lines & E & L & F).
    exists lines. split; [|split; [exact L|]].
    + unfold show_all, input_error, show_all_func, bind at 1, get.
      destruct book as [|item rest]; [congruence|].
      unfold bind, lift. rewrite E. reflexivity.
    + eapply Forall2_impl; [|exact F].
      intros line kv [rest ->]. exists rest. split; [reflexivity|].
      apply center_length.
  - intros H. pose proof (show_all_lines_fail zero_pad book H) as E.
    unfold show_all, input_error, show_all_func, bind at 1, get.
    destruct book as [|item rest]; [discriminate H|].
    unfold bind, lift. rewrite E. reflexivity.
Qed.

Lemma show_all_spec_witness :
  let alice := Record.mk (py "Alice") [py "1234567890"]
                 (Some (mkdt 1990 3 15 0 0 0 0)) in
  let bob := Record.mk (py "Bob") [] None in
  (exists lines,
     show_all true [(py "Alice", alice)] = (Ok (Record.join [10] lines),
                                            [(py "Alice", alice)])
     /\ List.length lines = 1%nat)
  /\ show_all true [(py "Alice", alice); (py "Bob", bob)]
     = (Raise AttributeError, [(py "Alice", alice); (py "Bob", bob)]).
Proof.
  intros alice bob. split.
  - destruct (proj1 (proj2 (show_all_spec true [(py "Alice", alice)])))
      as (lines & E & L & _); [discriminate | reflexivity |].
    exists lines. split; [exact E | exact L].
  - apply (proj2 (proj2 (show_all_spec true
                           [(py "Alice", alice); (py "Bob", bob)]))).
    reflexivity.
Defined.

Example show_all_one_line :
  show_all true [(py "Alice", Record.mk (py "Alice")
                                [py "1234567890"; py "0987654321"]
                                (Some (mkdt 1990 3 15 0 0 0 0)))]
  = (Ok (py "   Alice    | 15.03.1990 |1234567890, 0987654321"),
     [(py "Alice", Record.mk (py "Alice")
                     [py "1234567890"; py "0987654321"]
                     (Some (mkdt 1990 3 15 0 0 0 0)))]).
Proof. reflexivity. Qed.

(** ** The birthdays command *)

Lemma print_entries_spec l : forall book out,
  print_entries l (book, out)
  = (Ok tt,
     (book,
      out ++ map (fun e => AddressBook.entry_name e ++ py " : "
                           ++ AddressBook.entry_birthday e) l)).
Proof.
  induction l as [|e l IH]; intros book out; cbn [print_entries map].
  - unfold ret. now rewrite app_nil_r.
  - unfold bind, print. cbn [fst snd]. rewrite IH. now rewrite <- app_assoc.
Qed.

Lemma for_records_error zero_pad today t7 records : forall acc book e book',
  AddressBook.for_records zero_pad today t7 records acc book = (Raise e, book') ->
  e = ValueError LibMsg.
Proof.
  induction records as [|r rest IH]; intros acc book e book';
    cbn [AddressBook.for_records]; [discriminate|].
  unfold bind, lift.
  destruct (AddressBook.record_entry zero_pad today t7 r) as [x|e'] eqn:E.
  - apply IH.
  - intros H. injection H as <- _. now apply record_entry_error in E.
Qed.

Lemma add_days_error n : forall t e, add_days t n = Raise e -> e = OverflowError.
Proof.
  induction n as [|n IH]; intros t e; cbn [add_days]; [discriminate|].
  destruct (next_day t); [apply IH | congruence].
Qed.

Lemma query_error zero_pad now book e :
  fst (AddressBook.get_upcoming_birthdays zero_pad now book) = Raise e ->
  e = ValueError LibMsg \/ e = OverflowError.
Proof.
  unfold AddressBook.get_upcoming_birthdays. rewrite bind_lift.
  destruct (timedelta_add now 7) as [t7|e'] eqn:T.
  - unfold bind at 1, get. unfold bind.
    destruct (AddressBook.for_records zero_pad now t7 (AddressBook.values book)
                [] book) as [[l|e'] b1] eqn:F; [discriminate|].
    simpl. intros H. injection H as <-. left.
    eapply for_records_error. eassumption.
  - simpl. intros H. injection H as <-. right.
    eapply add_days_error. eassumption.
Qed.

(** The [birthdays] command never changes the store.  When the query
    answers with the text for no birthdays it prints that text; when it
    answers with a list it prints one line for each entry, the name, a
    colon between blanks, and the date, in the order of the list; when
    the query raises [ValueError] it prints nothing and returns the text
    of [ValueError] (which the caller does not print); an
    [OverflowError] of the query leaves the handler. *)
Theorem birthdays_prints (zero_pad : bool) (now : datetime)
    (book : AddressBook.t) (out : console) :
  birthdays zero_pad now (book, out)
  = match fst (AddressBook.get_upcoming_birthdays zero_pad now book) with
    | Ok (AddressBook.Text s) => (Ok (inl tt), (book, out ++ [s]))
    | Ok (AddressBook.Entries l) =>
        (Ok (inl tt),
         (book,
          out ++ map (fun e => AddressBook.entry_name e ++ py " : "
                               ++ AddressBook.entry_birthday e) l))
    | Raise (ValueError _) =>
        (Ok (inr (py "Give me name and phone, please.")), (book, out))
    | Raise e => (Raise e, (book, out))
    end.
Proof.
  pose proof (get_upcoming_birthdays_readonly zero_pad now book) as R.
  pose proof (query_error zero_pad now book) as Q.
  unfold birthdays, input_error_none, birthdays_func, bind at 1, on_book.
  cbn [fst snd].
  destruct (AddressBook.get_upcoming_birthdays zero_pad now book)
    as [[u|e] book'] eqn:E; cbn [fst snd] in *; subst book'.
  - destruct u as [l|s].
    + now rewrite print_entries_spec.
    + reflexivity.
  - destruct (Q e eq_refl) as [-> | ->]; reflexivity.
Qed.

(** ** Reading a command line *)

Lemma split_from_spaces s :
  Forall (fun c => Text.isspace_char c = true) s -> Text.split_from [] s = [].
Proof.
  induction 1 as [|c s Hc Hs IH]; cbn [Text.split_from truthy]; [reflexivity|].
  now rewrite Hc.
Qed.

Lemma split_from_token w : forall cur r,
  Forall (fun c => Text.isspace_char c = false) w ->
  Text.split_from cur (w ++ r) = Text.split_from (cur ++ w) r.
Proof.
  induction w as [|c w IH]; intros cur r H; cbn [app Text.split_from].
  - now rewrite app_nil_r.
  - inversion_clear H as [|? ? Hc Hw]. rewrite Hc, IH by assumption.
    now rewrite <- app_assoc.
Qed.

Lemma truthy_token w : is_token w -> truthy w = true.
Proof. intros [N _]. destruct w; [congruence | reflexivity]. Qed.

Lemma split_join_tokens ws : forall w,
  is_token w -> Forall is_token ws ->
  Text.split (Record.join [32] (w :: ws)) = w :: ws.
Proof.
  unfold Text.split.
  induction ws as [|w' ws IH]; intros w T Ts.
  - cbn [Record.join]. rewrite <- (app_nil_r w) at 1.
    rewrite split_from_token by apply T.
    cbn [app Text.split_from]. now rewrite (truthy_token _ T).
  - inversion_clear Ts as [|? ? T' Ts'].
    change (Record.join [32] (w :: w' :: ws))
      with (w ++ [32] ++ Record.join [32] (w' :: ws)).
    rewrite split_from_token by apply T.
    cbn [app Text.split_from].
    change (Text.isspace_char 32) with true. cbv iota.
    rewrite (truthy_token _ T). now rewrite IH.
Qed.

Lemma lstrip_token w : is_token w -> Text.lstrip w = w.
Proof.
  intros [N F]. destruct w as [|c w]; [congruence|].
  inversion_clear F as [|? ? Hc Hw]. cbn [Text.lstrip]. now rewrite Hc.
Qed.

Lemma strip_token w : is_token w -> Text.strip w = w.
Proof.
  intros T. unfold Text.strip. rewrite (lstrip_token _ T).
  assert (T' : is_token (rev w)).
  { destruct T as [N F]. split.
    - intros E. apply N. rewrite <- (rev_involutive w), E. reflexivity.
    - now apply Forall_rev. }
  rewrite (lstrip_token _ T'). apply rev_involutive.
Qed.

(** [parse_input]: a line that is empty or all white space raises
    [ValueError] (there is no command to unpack; [parse_input] is called
    outside the decorated handlers).  A line made of words separated by
    single blanks gives the first word, lowered, as the command, and the
    other words, as they are, as the arguments. *)
Theorem parse_input_spec (lower : pystr -> pystr) :
  (forall line, Forall (fun c => Text.isspace_char c = true) line ->
     parse_input lower line = Raise (ValueError LibMsg))
  /\ (forall cmd args, is_token cmd -> Forall is_token args ->
        parse_input lower (Record.join [32] (cmd :: args))
        = Ok (lower cmd, args)).
Proof.
  split.
  - intros line H. unfold parse_input, Text.split.
    now rewrite (split_from_spaces _ H).
  - intros cmd args T Ts. unfold parse_input.
    rewrite (split_join_tokens _ _ T Ts). now rewrite (strip_token _ T).
Qed.

Lemma parse_input_spec_witness :
  parse_input (fun s => s) (py "   ") = Raise (ValueError LibMsg)
  /\ parse_input (fun s => s) (py "add Bob 1234567890")
     = Ok (py "add", [py "Bob"; py "1234567890"]).
Proof.
  split.
  - apply (proj1 (parse_input_spec (fun s => s))). repeat constructor.
  - apply (proj2 (parse_input_spec (fun s => s)) (py "add")
             [py "Bob"; py "1234567890"]).
    + split; [discriminate | repeat constructor].
    + repeat constructor; discriminate.
Defined.

Lemma handlers_escaping_exceptions_witness :
  fst (add_contact [py "Alice"; py "123"] [])
  = Raise (PhoneValidationError PhoneValidationError_default)
  /\ (NameValidationError NameValidationError_default
        = PhoneValidationError PhoneValidationError_default
      \/ PhoneValidationError PhoneValidationError_default
         = PhoneValidationError PhoneValidationError_default
      \/ PhoneValidationError PhoneValidationError_default = TypeError).
Proof.
  assert (E : fst (add_contact [py "Alice"; py "123"] [])
              = Raise (PhoneValidationError PhoneValidationError_default))
    by reflexivity.
  split; [exact E|].
  destruct (proj1 (handlers_escaping_exceptions true [py "Alice"; py "123"] [])
              _ E) as [H|[H|H]]; [discriminate H | now right; left | discriminate H].
Defined.
